(** * qcML report modules: a model of the parser and of the module drivers

    The development follows [multiqc/modules/readqc/readqc.py],
    [mappingqc/mappingqc.py] and [somaticqc/somaticqc.py].  Python values are
    modelled as they are used there: [str] as [string], [dict] as an
    insertion-ordered association list, exceptions as a result type threaded
    through a state-and-error monad whose state is the module object
    ([self.qcml], [self.qcdata]) together with what was handed to the host. *)

From Stdlib Require Import String Ascii List ZArith Bool Lia.
From Stdlib Require Import SpecFloat DecimalString.
Import ListNotations.
Local Open Scope list_scope.
Local Open Scope string_scope.

Set Implicit Arguments.
Set Warnings "-register-all".

(* ------------------------------------------------------------------ *)
(** ** Strings *)

Module Str.

(** The line feed character, which has no literal syntax in a string. *)
Definition nl : string := String (ascii_of_nat 10) "".

(** [s.startswith(p)] *)
Fixpoint startswith (s p : string) : bool :=
  match p, s with
  | EmptyString, _ => true
  | String a p', String b s' => Ascii.eqb a b && startswith s' p'
  | String _ _, EmptyString => false
  end.

(** [s.endswith(p)] *)
Fixpoint endswith (s p : string) : bool :=
  (s =? p) || match s with
              | EmptyString => false
              | String _ s' => endswith s' p
              end.

(** Every character of [s] is in the class [cls]. *)
Fixpoint all (cls : ascii -> bool) (s : string) : bool :=
  match s with
  | EmptyString => true
  | String c r => cls c && all cls r
  end.

(** The rest of [s] after the prefix [p], when [s] starts with [p]. *)
Fixpoint removeprefix (p s : string) : option string :=
  match p, s with
  | EmptyString, _ => Some s
  | String a p', String b s' =>
      if Ascii.eqb a b then removeprefix p' s' else None
  | String _ _, EmptyString => None
  end.

End Str.

(* ------------------------------------------------------------------ *)
(** ** Python dictionaries

    A [dict] keeps its keys in insertion order; assigning to a key that is
    present replaces the value where the key stands, assigning to a new key
    appends it. *)

Module Dict.
Section Dict.
Variable V : Type.

Definition t := list (string * V).

Definition empty : t := [].

(** [d.get(k)], [None] when [d[k]] raises [KeyError]. *)
Fixpoint get (k : string) (d : t) : option V :=
  match d with
  | [] => None
  | (k', v) :: r => if k' =? k then Some v else get k r
  end.

(** [d[k] = v] *)
Fixpoint set (k : string) (v : V) (d : t) : t :=
  match d with
  | [] => [(k, v)]
  | (k', v') :: r =>
      if k' =? k then (k, v) :: r else (k', v') :: set k v r
  end.

(** [del d[k]], what [d.pop(k)] does to [d] when [k] is present. *)
Definition remove (k : string) (d : t) : t :=
  filter (fun kv => negb (fst kv =? k)) d.

(** [k in d] *)
Definition mem (k : string) (d : t) : bool :=
  match get k d with Some _ => true | None => false end.

(** [list(d.keys())] *)
Definition keys (d : t) : list string := map fst d.

(** [d.update(u)] *)
Definition update (u : t) (d : t) : t :=
  fold_left (fun acc kv => set (fst kv) (snd kv) acc) u d.

End Dict.
End Dict.

(* ------------------------------------------------------------------ *)
(** ** Regular expressions

    The patterns of the modules use literals, an alternation of literals,
    one greedy character-class repetition and the [$] anchor.  Matching is
    by backtracking in the priority order of [re]: alternatives from left to
    right, a repetition from its longest run down. *)

Module Re.

Inductive atom :=
| Lit (s : string)
| Alt (alts : list string)
| Plus (cls : ascii -> bool)
| Eol.

Definition regex := list atom.

Definition shift (n : nat) (r : option nat) : option nat :=
  match r with Some m => Some (n + m) | None => None end.

(** The matchers return the length of the match that starts at the head
    of the string; [k] matches what follows in the pattern. *)

(** A literal. *)
Definition lit_len (l : string) (k : string -> option nat) (s : string)
  : option nat :=
  match Str.removeprefix l s with
  | Some r => shift (String.length l) (k r)
  | None => None
  end.

(** An alternation of literals: the first alternative with which the
    whole match succeeds. *)
Fixpoint alt_len (ls : list string) (k : string -> option nat)
    (s : string) : option nat :=
  match ls with
  | [] => None
  | l :: ls' =>
      match lit_len l k s with
      | Some n => Some n
      | None => alt_len ls' k s
      end
  end.

(** A greedy repetition [[cls]+]: one more character where that lets the
    whole match succeed, else what follows in the pattern. *)
Fixpoint plus_len (cls : ascii -> bool) (k : string -> option nat)
    (s : string) : option nat :=
  match s with
  | String c r =>
      if cls c then
        match plus_len cls k r with
        | Some n => Some (S n)
        | None => shift 1 (k r)
        end
      else None
  | EmptyString => None
  end.

(** [$] holds at the end of the string and just before a line feed that
    ends the string. *)
Definition at_end (s : string) : bool := (s =? "") || (s =? Str.nl).

Fixpoint match_len (p : regex) : string -> option nat :=
  match p with
  | [] => fun _ => Some 0
  | Lit l :: p' => lit_len l (match_len p')
  | Alt ls :: p' => alt_len ls (match_len p')
  | Plus cls :: p' => plus_len cls (match_len p')
  | Eol :: p' => fun s => if at_end s then match_len p' s else None
  end.

(** [re.sub(p, repl, s)] for a replacement without group references:
    scan from the left, replace each match and go on after it.  [skip]
    counts the characters of the last match still to pass over.  A pattern
    that matches the empty string is replaced in front of the character,
    which is then copied. *)
Fixpoint sub_from (p : regex) (repl : string) (skip : nat) (s : string)
  : string :=
  match skip with
  | S k =>
      match s with
      | String _ r => sub_from p repl k r
      | EmptyString => ""
      end
  | O =>
      match match_len p s with
      | Some (S n) =>
          repl ++ match s with
                  | String _ r => sub_from p repl n r
                  | EmptyString => ""
                  end
      | Some O =>
          repl ++ match s with
                  | String c r => String c (sub_from p repl 0 r)
                  | EmptyString => ""
                  end
      | None =>
          match s with
          | String c r => String c (sub_from p repl 0 r)
          | EmptyString => ""
          end
      end
  end.

Definition sub (p : regex) (repl s : string) : string :=
  sub_from p repl 0 s.

(** The repetition [([cls]+)] as a group: the length of the group and the
    length of what follows, chosen as [plus_len] chooses. *)
Fixpoint plus_group (cls : ascii -> bool) (k : string -> option nat)
    (s : string) : option (nat * nat) :=
  match s with
  | String c r =>
      if cls c then
        match plus_group cls k r with
        | Some (g, n) => Some (S g, n)
        | None =>
            match k r with
            | Some n => Some (1, n)
            | None => None
            end
        end
      else None
  | EmptyString => None
  end.

End Re.

(* ------------------------------------------------------------------ *)
(** ** Element trees

    What [xml.etree] builds from a document: a tag, the attribute
    dictionary and the children in document order. *)

Inductive Element :=
| Elem (tag : string) (attrib : Dict.t string) (children : list Element).

Definition tag (e : Element) : string :=
  match e with Elem t _ _ => t end.

Definition attrib (e : Element) : Dict.t string :=
  match e with Elem _ a _ => a end.

Definition children (e : Element) : list Element :=
  match e with Elem _ _ c => c end.

(** [e.iter()]: the element and its descendants, in document order. *)
Fixpoint iter (e : Element) : list Element :=
  match e with
  | Elem _ _ cs => e :: flat_map iter cs
  end.

(** [root.findall(".//" + t)]: the descendants of [root] (not [root]
    itself) whose tag is [t], in document order. *)
Definition findall_descendants (t : string) (root : Element) : list Element :=
  filter (fun e => tag e =? t) (flat_map iter (children root)).


(* ------------------------------------------------------------------ *)
(** ** Binary64 numbers

    Python's [float] is an IEEE 754 binary64 number.  The module gives the
    numbers and the reading of a string by [float(s)] for the ASCII syntax:
    digit grouping by single underscores, surrounding white space, a sign,
    a decimal literal with an optional exponent, or [inf], [infinity] and
    [nan] in any letter case.  [None] stands for [ValueError].  The digits
    and spaces of Unicode outside ASCII, which [float] also reads, are not
    covered: the examples do not use them. *)

Module Binary64.

Definition prec : Z := 53.
Definition emax : Z := 1024.

Definition t := spec_float.

Definition mul : t -> t -> t := SFmul prec emax.

(** The number nearest to [m * 10 ^ e], with the sign [neg]. *)
Definition of_decimal (neg : bool) (m e : Z) : t :=
  match m with
  | Zpos p =>
      if (0 <=? e)%Z
      then binary_round prec emax neg (p * Z.to_pos (10 ^ e)) 0
      else SFdiv prec emax (S754_finite neg p 0)
             (S754_finite false (Z.to_pos (10 ^ (- e))) 0)
  | _ => S754_zero neg
  end.

Definition code (c : ascii) : nat := nat_of_ascii c.

Definition is_digit (c : ascii) : bool :=
  (48 <=? code c)%nat && (code c <=? 57)%nat.

Definition is_space (c : ascii) : bool :=
  ((9 <=? code c)%nat && (code c <=? 13)%nat) || (code c =? 32)%nat.

Definition lower (c : ascii) : ascii :=
  if (65 <=? code c)%nat && (code c <=? 90)%nat
  then ascii_of_nat (code c + 32) else c.

Fixpoint lower_string (s : string) : string :=
  match s with
  | EmptyString => EmptyString
  | String c r => String (lower c) (lower_string r)
  end.

(** Underscores are dropped; one is allowed only between two digits.
    [prev] is the character before the head of the string. *)
Fixpoint drop_underscores (prev : ascii) (s : string) : option string :=
  match s with
  | EmptyString =>
      if Ascii.eqb prev "_" then None else Some EmptyString
  | String c r =>
      if Ascii.eqb c "_" then
        if is_digit prev then drop_underscores c r else None
      else if Ascii.eqb prev "_" && negb (is_digit c) then None
      else option_map (String c) (drop_underscores c r)
  end.

Fixpoint lstrip (s : string) : string :=
  match s with
  | String c r => if is_space c then lstrip r else s
  | EmptyString => EmptyString
  end.

Fixpoint rstrip (s : string) : string :=
  match s with
  | String c r =>
      match rstrip r with
      | EmptyString => if is_space c then EmptyString else String c EmptyString
      | r' => String c r'
      end
  | EmptyString => EmptyString
  end.

Definition sign (s : string) : bool * string :=
  match s with
  | String "-" r => (true, r)
  | String "+" r => (false, r)
  | _ => (false, s)
  end.

(** The longest run of digits at the head of [s], read after the digits
    already in [acc]: the value, the number of digits read, the rest. *)
Fixpoint digits (s : string) (acc : Z) (n : Z) : Z * Z * string :=
  match s with
  | String c r =>
      if is_digit c
      then digits r (10 * acc + Z.of_nat (code c - 48)) (n + 1)%Z
      else (acc, n, s)
  | EmptyString => (acc, n, s)
  end.

Definition is_e (c : ascii) : bool := Ascii.eqb (lower c) "e".

Definition parse_decimal (s : string) : option t :=
  let (neg, s1) := sign s in
  let '(ip, ni, s2) := digits s1 0 0 in
  let '(m, nf, s3) :=
    match s2 with
    | String "." r => digits r ip 0
    | _ => (ip, 0%Z, s2)
    end in
  if (ni + nf =? 0)%Z then None
  else
    match s3 with
    | EmptyString => Some (of_decimal neg m (- nf))
    | String c r =>
        if is_e c then
          let (eneg, r1) := sign r in
          let '(ev, ne, r2) := digits r1 0 0 in
          if (ne =? 0)%Z || negb (r2 =? "") then None
          else Some (of_decimal neg m ((if eneg then - ev else ev) - nf))
        else None
    end.

Definition parse_inf_nan (s : string) : option t :=
  let (neg, r) := sign s in
  let l := lower_string r in
  if (l =? "inf") || (l =? "infinity") then Some (S754_infinity neg)
  else if l =? "nan" then Some S754_nan
  else None.

(** [float(s)] *)
Definition float (s : string) : option t :=
  match drop_underscores "000" s with
  | None => None
  | Some s' =>
      let w := rstrip (lstrip s') in
      match parse_decimal w with
      | Some x => Some x
      | None => parse_inf_nan w
      end
  end.

(** [1e6] *)
Definition million : t := of_decimal false 1 6.

End Binary64.


(* ------------------------------------------------------------------ *)
(** ** Values, exceptions and the environment of a module *)

(** A stored quality parameter: [float(value)] where that succeeds, the
    attribute text otherwise. *)
Inductive value (F : Type) :=
| VFloat (x : F)
| VStr (s : string).

Arguments VFloat {F} x.
Arguments VStr {F} s.

(** The exceptions that leave the modules. [ParseError] is the error of the
    XML parser. *)
Inductive exn :=
| KeyError (key : string)
| ValueError
| TypeError
| ParseError
| UserWarning.

Inductive result (A : Type) :=
| Ok (a : A)
| Raise (e : exn).

Arguments Ok {A} a.
Arguments Raise {A} e.

(** One entry of [find_log_files(..., filecontents=True)]. *)
Record LogFile := {
  s_name : string;
  root : string;
  f : string
}.

(** What the modules take from outside: the [float] type of the Python
    runtime with its string conversion, product and the constant [1e6];
    the XML parser ([None] for its parse error); and the sample-name
    cleaning and sample filtering of the base module. *)
Class Host := {
  pyfloat : Type;
  float : string -> option pyfloat;
  float_mul : pyfloat -> pyfloat -> pyfloat;
  float_1e6 : pyfloat;
  fromstring : string -> option Element;
  clean_s_name : string -> string -> string;
  ignore_samples :
    Dict.t (Dict.t (value pyfloat)) -> Dict.t (Dict.t (value pyfloat))
}.

(** Values of the display configuration handed to the host. *)
Inductive hval :=
| HStr (s : string)
| HInt (n : Z)
| HBool (b : bool)
| HList (l : list string)
| HConfig (name : string)        (* config.<name> *)
| HTimesConfig (name : string).  (* lambda x: x * config.<name> *)

Definition header := Dict.t hval.

Section Report.
Variable F : Type.

(** The call of a plot function of the host, with its arguments. *)
Inductive plot_of :=
| TablePlot (data : Dict.t (Dict.t (value F))) (headers : Dict.t header)
    (pconfig : Dict.t hval)
| BarPlot (data : Dict.t (Dict.t (value F))) (cats : Dict.t header)
    (pconfig : Dict.t hval)
| BarPlots (data : list (Dict.t (Dict.t (value F))))
    (cats : list (Dict.t header)) (pconfig : Dict.t hval).

Record section_of := {
  sec_name : string;
  sec_anchor : string;
  sec_description : string;
  sec_plot : plot_of
}.

(** The module object: the description table [self.qcml], the data
    [self.qcdata], and what the module has handed to the host so far
    (data sources, general-statistics columns, data files, sections).
    The functions of the host are taken to return. *)
Record state_of := {
  qcml : Dict.t (Dict.t string);
  qcdata : Dict.t (Dict.t (value F));
  data_sources : list LogFile;
  general_stats : list (Dict.t (Dict.t (value F)) * Dict.t header);
  data_files : list (Dict.t (Dict.t (value F)) * string);
  sections : list section_of
}.

End Report.

Arguments qcml {F} s.
Arguments qcdata {F} s.
Arguments data_sources {F} s.
Arguments general_stats {F} s.
Arguments data_files {F} s.
Arguments sections {F} s.

Section State.
Context {host : Host}.

(** The per-sample mapping (SampleMetrics). *)
Definition metrics := Dict.t (value pyfloat).

Definition plot := plot_of pyfloat.

Definition section := section_of pyfloat.

Definition state := state_of pyfloat.

(** [self.qcml = dict(); self.qcdata = dict()] on a fresh module. *)
Definition fresh : state :=
  {| qcml := Dict.empty _; qcdata := Dict.empty _; data_sources := [];
     general_stats := []; data_files := []; sections := [] |}.

Definition set_qcml (q : Dict.t (Dict.t string)) (st : state) : state :=
  {| qcml := q; qcdata := qcdata st; data_sources := data_sources st;
     general_stats := general_stats st; data_files := data_files st;
     sections := sections st |}.

Definition set_qcdata (d : Dict.t metrics) (st : state) : state :=
  {| qcml := qcml st; qcdata := d; data_sources := data_sources st;
     general_stats := general_stats st; data_files := data_files st;
     sections := sections st |}.

(** Nothing has been handed to the host for the report: no
    general-statistics column, no data file, no section. *)
Definition no_output (st : state) : Prop :=
  general_stats st = [] /\ data_files st = [] /\ sections st = [].

Definition same_output (st st' : state) : Prop :=
  general_stats st' = general_stats st
  /\ data_files st' = data_files st
  /\ sections st' = sections st.

(** A computation on the module object that returns or raises. *)
Definition M (A : Type) := state -> result A * state.

Definition ret {A} (a : A) : M A := fun st => (Ok a, st).

Definition raise {A} (e : exn) : M A := fun st => (Raise e, st).

Definition bind {A B} (c : M A) (k : A -> M B) : M B :=
  fun st =>
    match c st with
    | (Ok a, st') => k a st'
    | (Raise e, st') => (Raise e, st')
    end.

Definition gets {A} (proj : state -> A) : M A := fun st => (Ok (proj st), st).

Definition modify (upd : state -> state) : M unit :=
  fun st => (Ok tt, upd st).

Definition lift {A} (r : result A) : M A := fun st => (r, st).

(** [d[k]] *)
Definition getitem {V} (d : Dict.t V) (k : string) : result V :=
  match Dict.get k d with
  | Some v => Ok v
  | None => Raise (KeyError k)
  end.

(** A [for] loop that carries a local value through its body. *)
Fixpoint for_each {A S} (xs : list A) (body : A -> S -> M S) (acc : S)
  : M S :=
  match xs with
  | [] => ret acc
  | x :: rest => bind (body x acc) (for_each rest body)
  end.

(** [self.add_data_source(f)] *)
Definition add_data_source (lf : LogFile) : M unit :=
  modify (fun st =>
    {| qcml := qcml st; qcdata := qcdata st;
       data_sources := (data_sources st ++ [lf])%list;
       general_stats := general_stats st; data_files := data_files st;
       sections := sections st |}).

(** [self.general_stats_addcols(self.qcdata, headers)] *)
Definition general_stats_addcols (headers : Dict.t header) : M unit :=
  modify (fun st =>
    {| qcml := qcml st; qcdata := qcdata st;
       data_sources := data_sources st;
       general_stats := (general_stats st ++ [(qcdata st, headers)])%list;
       data_files := data_files st; sections := sections st |}).

(** [self.write_data_file(self.qcdata, fn)] *)
Definition write_data_file (fn : string) : M unit :=
  modify (fun st =>
    {| qcml := qcml st; qcdata := qcdata st;
       data_sources := data_sources st;
       general_stats := general_stats st;
       data_files := (data_files st ++ [(qcdata st, fn)])%list;
       sections := sections st |}).

(** [self.add_section(name=..., anchor=..., description=..., plot=...)] *)
Definition add_section (name anchor description : string) (p : plot)
  : M unit :=
  modify (fun st =>
    {| qcml := qcml st; qcdata := qcdata st;
       data_sources := data_sources st;
       general_stats := general_stats st; data_files := data_files st;
       sections := (sections st ++
         [{| sec_name := name; sec_anchor := anchor;
             sec_description := description; sec_plot := p |}])%list |}).

End State.

Declare Scope py_scope.
Delimit Scope py_scope with py.
Notation "x <- c ;; k" := (bind c (fun x => k))
  (at level 61, c at next level, right associativity) : py_scope.
Notation "c ;;; k" := (bind c (fun _ => k))
  (at level 61, right associativity) : py_scope.
Local Open Scope py_scope.

(* ------------------------------------------------------------------ *)
(** ** QcmlMultiqcModule (readqc.py), the base of the four modules *)

Module Qcml.
Section Qcml.
Context {host : Host}.

Definition qualityParameter : string :=
  "{http://www.prime-xs.eu/ms/qcml}qualityParameter".

(** [r' percentage$'] *)
Definition percentage_re : Re.regex := [Re.Lit " percentage"; Re.Eol].

(** [try: float(v) except ValueError: v] *)
Definition convert (v : string) : value pyfloat :=
  match float v with
  | Some x => VFloat x
  | None => VStr v
  end.

(** The body of the loop of [parse_qcml], for one [qualityParameter]
    element [qp] and the dictionary built so far. *)
Definition parse_qp (qp : Element) (quality_parameters : metrics)
  : M metrics :=
  v <- lift (getitem (attrib qp) "value") ;;
  if Str.startswith v "n/a" then ret quality_parameters
  else
    name <- lift (getitem (attrib qp) "name") ;;
    let qp_name := Re.sub percentage_re " %" name in
    v' <- lift (getitem (attrib qp) "value") ;;
    let quality_parameters :=
      Dict.set qp_name (convert v') quality_parameters in
    description <- lift (getitem (attrib qp) "description") ;;
    accession <- lift (getitem (attrib qp) "accession") ;;
    modify (fun st =>
      set_qcml (Dict.set qp_name
                  [("description", description); ("accession", accession)]
                  (qcml st)) st) ;;;
    ret quality_parameters.

(** [parse_qcml(self, qcml_contents)] *)
Definition parse_qcml (qcml_contents : string) : M metrics :=
  match fromstring qcml_contents with
  | None => raise ParseError
  | Some root =>
      for_each (findall_descendants qualityParameter root)
        parse_qp (Dict.empty _)
  end.

(** One item of [make_description]: both format arguments are looked
    up, the description is used. *)
Definition describe (key : string) : M string :=
  q <- gets qcml ;;
  e <- lift (getitem q key) ;;
  d <- lift (getitem e "description") ;;
  q' <- gets qcml ;;
  e' <- lift (getitem q' key) ;;
  _ <- lift (getitem e' "accession") ;;
  ret d.

(** [make_description(self, keynames)] *)
Definition make_description (keynames : list string) : M string :=
  match keynames with
  | [k] => describe k
  | _ =>
      items <- for_each keynames
                 (fun key acc =>
                    d <- describe key ;;
                    ret (acc ++ [("<li>" ++ d ++ "</li>")%string])%list) [] ;;
      ret ("<ul>" ++ String.concat "" items ++ "</ul>")
  end.

(** [dict_ordered_subset(d, ks)] *)
Definition dict_ordered_subset {V} (d : Dict.t V) (ks : list string)
  : Dict.t V :=
  fold_left
    (fun od k =>
       match Dict.get k d with
       | Some v => Dict.set k v od
       | None => od
       end)
    ks (Dict.empty V).

(** *** Notions used to state the properties of [parse_qcml] *)

(** The elements the loop of [parse_qcml] visits, in document order. *)
Definition visited (root : Element) : list Element :=
  findall_descendants qualityParameter root.

(** The element is passed over by the "skip n/a values" test. *)
Definition is_na (qp : Element) : bool :=
  match Dict.get "value" (attrib qp) with
  | Some v => Str.startswith v "n/a"
  | None => false
  end.

(** The key under which the element is stored. *)
Definition qp_key (qp : Element) : option string :=
  option_map (Re.sub percentage_re " %") (Dict.get "name" (attrib qp)).

Definition has_key (k : string) (qp : Element) : bool :=
  match qp_key qp with
  | Some k' => k' =? k
  | None => false
  end.

(** The elements that are not passed over, in document order. *)
Definition kept (qps : list Element) : list Element :=
  filter (fun qp => negb (is_na qp)) qps.

(** The three ways the loop body ends for an element. *)
Inductive outcome :=
| Skip
| Store (k : string) (v : value pyfloat) (entry : Dict.t string)
| Fail (e : exn).

Definition classify (qp : Element) : outcome :=
  match Dict.get "value" (attrib qp) with
  | None => Fail (KeyError "value")
  | Some v =>
      if Str.startswith v "n/a" then Skip
      else
        match Dict.get "name" (attrib qp) with
        | None => Fail (KeyError "name")
        | Some n =>
            match Dict.get "description" (attrib qp) with
            | None => Fail (KeyError "description")
            | Some d =>
                match Dict.get "accession" (attrib qp) with
                | None => Fail (KeyError "accession")
                | Some a =>
                    Store (Re.sub percentage_re " %" n) (convert v)
                      [("description", d); ("accession", a)]
                end
            end
        end
  end.

(** The keys of the elements that are not passed over, in document
    order. *)
Definition kept_keys (qps : list Element) : list string :=
  flat_map
    (fun qp => match qp_key qp with Some k => [k] | None => [] end)
    (kept qps).

(** The assignments [quality_parameters[k] = v] of a run of the loop
    body over the elements. *)
Definition entries (qps : list Element)
  : list (string * value pyfloat) :=
  flat_map
    (fun qp =>
       match classify qp with Store k v _ => [(k, v)] | _ => [] end)
    qps.

(** The shared start of every [__init__]: parse each log file into
    [self.qcdata] under its cleaned sample name. *)
Definition parse_files (files : list LogFile) : M unit :=
  for_each files
    (fun lf (_ : unit) =>
       add_data_source lf ;;;
       let s := clean_s_name (s_name lf) (root lf) in
       d <- parse_qcml (f lf) ;;
       modify (fun st => set_qcdata (Dict.set s d (qcdata st)) st))
    tt.

(** [self.qcdata = self.ignore_samples(self.qcdata)] and the check
    [if len(self.qcdata) == 0: raise UserWarning]. *)
Definition filter_samples : M unit :=
  modify (fun st => set_qcdata (ignore_samples (qcdata st)) st) ;;;
  d <- gets qcdata ;;
  match d with
  | [] => raise UserWarning
  | _ :: _ => ret tt
  end.

(** [headers[k].update(u)]; [None] is [KeyError k]. *)
Definition update_header (k : string) (u : header)
    (headers : Dict.t header) : option (Dict.t header) :=
  match Dict.get k headers with
  | Some h => Some (Dict.set k (Dict.update u h) headers)
  | None => None
  end.

(** [headers[k].update(u)] outside of a [try]. *)
Definition must_update (k : string) (u : header)
    (headers : Dict.t header) : M (Dict.t header) :=
  match update_header k u headers with
  | Some h => ret h
  | None => raise (KeyError k)
  end.

(** The dictionary comprehension that prepares the table headers from
    [self.qcml.items()]. *)
Definition prepare_headers (namespace : string) : M (Dict.t header) :=
  q <- gets qcml ;;
  for_each q
    (fun kv headers =>
       let qp_key := fst kv in
       let qp_entry := snd kv in
       d <- lift (getitem qp_entry "description") ;;
       ret (Dict.set qp_key
              [("namespace", HStr namespace); ("title", HStr qp_key);
               ("description", HStr d)] headers))
    (Dict.empty _).

(** The statement [for s, kv in self.qcdata.items(): body(kv)] for a
    body that changes [kv] in place or raises before it changed it. *)
Fixpoint each_sample (body : metrics -> result metrics)
    (d : Dict.t metrics) : option exn * Dict.t metrics :=
  match d with
  | [] => (None, [])
  | (s, kv) :: r =>
      match body kv with
      | Ok kv' =>
          let (e, r') := each_sample body r in (e, (s, kv') :: r')
      | Raise e => (Some e, (s, kv) :: r)
      end
  end.

Definition for_samples (body : metrics -> result metrics) : M unit :=
  fun st =>
    match each_sample body (qcdata st) with
    | (None, d) => (Ok tt, set_qcdata d st)
    | (Some e, d) => (Raise e, set_qcdata d st)
    end.

(** What deriving the base count from the megabase count [mb] does to
    the mapping [kv] of a sample: [kv'] has the product under [key],
    has lost [mb], and agrees with [kv] on the other keys. *)
Definition converted (mb key : string) (kv kv' : metrics) : Prop :=
  exists x,
    Dict.get mb kv = Some (VFloat x)
    /\ Dict.get key kv' = Some (VFloat (float_mul x float_1e6))
    /\ Dict.get mb kv' = None
    /\ forall k, k <> mb -> k <> key -> Dict.get k kv' = Dict.get k kv.

(** [x * 1e6] *)
Definition times_1e6 (x : value pyfloat) : result (value pyfloat) :=
  match x with
  | VFloat a => Ok (VFloat (float_mul a float_1e6))
  | VStr _ => Raise TypeError
  end.

End Qcml.
End Qcml.

(* ------------------------------------------------------------------ *)
(** ** ReadQC (readqc.py, [MultiqcModule.__init__]) *)

Module ReadQC.
Import Qcml.
Section ReadQC.
Context {host : Host}.

(** The body of the loop that derives [bases sequenced]:
    [kv['bases sequenced'] = kv['bases sequenced (MB)'] * 1e6]
    and [kv.pop('bases sequenced (MB)')]. *)
Definition bases_sequenced (kv : metrics) : result metrics :=
  match getitem kv "bases sequenced (MB)" with
  | Raise e => Raise e
  | Ok mb =>
      match times_1e6 mb with
      | Raise e => Raise e
      | Ok b =>
          Ok (Dict.remove "bases sequenced (MB)"
                (Dict.set "bases sequenced" b kv))
      end
  end.

(** "add bases sequenced key, derived from bases sequenced (MB)" *)
Definition add_bases_sequenced : M unit :=
  q <- gets qcml ;;
  _ <- lift (getitem q "bases sequenced (MB)") ;;
  modify (set_qcml
            (Dict.set "bases sequenced"
               [("description", "Bases sequenced in total.")]
               (Dict.remove "bases sequenced (MB)" q))) ;;;
  for_samples bases_sequenced.

Definition percent (extra : header) : header :=
  ([("suffix", HStr "%"); ("format", HStr "{:,.2f}")] ++ extra)%list.

(** The [update] calls on the prepared headers. *)
Definition format_headers (headers : Dict.t header)
  : M (Dict.t header) :=
  h <- must_update "Q20 read %" (percent [("max", HInt 100)]) headers ;;
  h <- must_update "Q30 base %" (percent [("max", HInt 100)]) h ;;
  h <- must_update "gc content %" (percent [("max", HInt 100)]) h ;;
  h <- must_update "no base call %" (percent [("floor", HInt 1)]) h ;;
  h <- must_update "bases sequenced"
         [("suffix", HConfig "base_count_prefix");
          ("format", HStr "{:,.2f}");
          ("modify", HTimesConfig "base_count_multiplier")] h ;;
  h <- must_update "read count"
         [("suffix", HConfig "read_count_prefix");
          ("format", HStr "{:,.2f}");
          ("modify", HTimesConfig "read_count_multiplier")] h ;;
  must_update "read length"
    [("suffix", HStr "bp"); ("format", HStr "{:,.0f}")] h.

(** What follows the headers: general statistics, data file, the
    overview table. *)
Definition report (headers : Dict.t header) : M unit :=
  general_stats_addcols
    (dict_ordered_subset headers
       ["read count"; "bases sequenced"; "gc content %"]) ;;;
  write_data_file "multiqc_readqc" ;;;
  data <- gets qcdata ;;
  add_section "Overview" "readqc-all" ""
    (TablePlot data headers [("namespace", HStr "ReadQC")]).

(** [MultiqcModule.__init__], from the log files the host found. *)
Definition init (files : list LogFile) : M unit :=
  parse_files files ;;;
  filter_samples ;;;
  add_bases_sequenced ;;;
  headers <- prepare_headers "ReadQC" ;;
  headers <- format_headers headers ;;
  report headers.

Definition run (files : list LogFile) : result unit * state :=
  init files fresh.

End ReadQC.
End ReadQC.

(* ------------------------------------------------------------------ *)
(** ** MappingQC (mappingqc.py, [MultiqcModule.__init__]) *)

Module MappingQC.
Import Qcml.
Section MappingQC.
Context {host : Host}.

(** The body of the loop that derives [bases usable]. *)
Definition bases_usable (kv : metrics) : result metrics :=
  match getitem kv "bases usable (MB)" with
  | Raise e => Raise e
  | Ok mb =>
      match times_1e6 mb with
      | Raise e => Raise e
      | Ok b =>
          Ok (Dict.remove "bases usable (MB)"
                (Dict.set "bases usable" b kv))
      end
  end.

(** "add bases usable key, derived from bases usable (MB)" *)
Definition add_bases_usable : M unit :=
  q <- gets qcml ;;
  _ <- lift (getitem q "bases usable (MB)") ;;
  modify (set_qcml
            (Dict.set "bases usable"
               [("description", "Bases sequenced in total.")]
               (Dict.remove "bases usable (MB)" q))) ;;;
  for_samples bases_usable.

Definition percent (extra : header) : header :=
  ([("suffix", HStr "%"); ("format", HStr "{:,.2f}")] ++ extra)%list.

(** The [update] calls outside of a [try]. *)
Definition format_required (headers : Dict.t header)
  : M (Dict.t header) :=
  h <- must_update "trimmed base %"
         (percent [("floor", HInt 1); ("scale", HStr "PuBu")]) headers ;;
  h <- must_update "clipped base %"
         (percent [("floor", HInt 1); ("scale", HStr "PuRd")]) h ;;
  h <- must_update "mapped read %"
         (percent [("max", HInt 100); ("scale", HStr "Reds")]) h ;;
  h <- must_update "bases usable"
         [("suffix", HConfig "base_count_prefix");
          ("format", HStr "{:,.2f}");
          ("modify", HTimesConfig "base_count_multiplier");
          ("scale", HStr "Greens")] h ;;
  must_update "on-target read %"
    (percent [("max", HInt 100); ("scale", HStr "Purples")]) h.

(** [coverage_values] *)
Definition coverage_values : list nat := [10; 20; 30; 50; 100; 200; 500]%nat.

(** ['target region {:d}x %'.format(x)] *)
Definition coverage_key (x : nat) : string :=
  "target region " ++ NilEmpty.string_of_uint (Nat.to_uint x) ++ "x %".

(** The loop over [coverage_values] inside the last [try]: the first
    missing key ends it. *)
Fixpoint update_coverage (xs : list nat) (headers : Dict.t header)
  : Dict.t header :=
  match xs with
  | [] => headers
  | x :: rest =>
      match update_header (coverage_key x)
              (percent [("max", HInt 100); ("scale", HStr "YlGn")])
              headers with
      | Some h => update_coverage rest h
      | None => headers
      end
  end.

(** The four [try: ... except KeyError: pass] blocks.  A block is left
    at its first missing key and keeps the updates made before it. *)
Definition format_optional (headers : Dict.t header) : Dict.t header :=
  let h1 :=
    match update_header "duplicate read %"
            (percent [("max", HInt 100); ("scale", HStr "YlOrRd")])
            headers with
    | Some h => h
    | None => headers
    end in
  let h2 :=
    match update_header "properly-paired read %"
            (percent [("max", HInt 100); ("scale", HStr "GnBu")]) h1 with
    | Some h =>
        match update_header "insert size"
                [("suffix", HStr "bp"); ("format", HStr "{:,.2f}");
                 ("scale", HStr "RdYlGn")] h with
        | Some h' => h'
        | None => h
        end
    | None => h1
    end in
  let h3 :=
    match update_header "SNV allele frequency deviation"
            [("suffix", HStr ""); ("format", HStr "{:,.2f}");
             ("floor", HInt 0); ("ceiling", HInt 10);
             ("minRange", HInt 10); ("scale", HStr "Greys")] h2 with
    | Some h => h
    | None => h2
    end in
  match update_header "target region read depth"
          [("suffix", HStr "x"); ("format", HStr "{:,.2f}")] h3 with
  | Some h => update_coverage coverage_values h
  | None => h3
  end.

Definition namespace : Dict.t hval := [("namespace", HStr "MappingQC")].

(** General statistics, data file and the overview table. *)
Definition report_overview (headers : Dict.t header) : M unit :=
  general_stats_addcols
    (dict_ordered_subset headers
       ["bases usable"; "mapped read %"; "on-target read %";
        "target region read depth"]) ;;;
  write_data_file "multiqc_mappingqc" ;;;
  data <- gets qcdata ;;
  add_section "Overview" "mappingqc-general" ""
    (TablePlot data
       (dict_ordered_subset headers
          ["bases usable"; "on-target read %"; "mapped read %";
           "properly-paired read %"; "trimmed base %"; "clipped base %";
           "duplicate read %"; "insert size";
           "SNV allele frequency deviation"])
       namespace).

(** The three sections under
    [if 'target region 10x %' in headers.keys()]. *)
Definition report_coverage (headers : Dict.t header) : M unit :=
  data <- gets qcdata ;;
  add_section "Coverage" "mappingqc-coverage" ""
    (TablePlot data
       (dict_ordered_subset headers
          ("target region read depth" :: map coverage_key coverage_values))
       namespace) ;;;
  description <- make_description ["target region read depth"] ;;
  data <- gets qcdata ;;
  add_section "Sequencing Depth" "mappingqc-read-depth" description
    (BarPlot data
       (dict_ordered_subset headers ["target region read depth"])
       [("namespace", HStr "MappingQC");
        ("id", HStr "mappingqc-read-depth-plot");
        ("title", HStr "MappingQC: Target Region Sequencing Depth");
        ("ylab", HStr "coverage");
        ("cpswitch", HBool false);
        ("tt_decimals", HInt 2);
        ("tt_suffix", HStr "x");
        ("tt_percentages", HBool false)]) ;;;
  data <- gets qcdata ;;
  cats <- for_each (map coverage_key coverage_values)
            (fun s acc =>
               h <- lift (getitem headers s) ;;
               ret (acc ++ [[(s, h)]])%list) [] ;;
  add_section "Target Coverage" "mappingqc-target-coverage" ""
    (BarPlots (repeat data (List.length coverage_values)) cats
       [("namespace", HStr "MappingQC");
        ("id", HStr "mappingqc-target-coverage-plot");
        ("title", HStr "MappingQC: Target Coverage Percentage");
        ("ylab", HStr "target coverage percentage");
        ("cpswitch", HBool false);
        ("data_labels",
         HList (map (fun x =>
                   NilEmpty.string_of_uint (Nat.to_uint x)
                   ++ "x coverage %") coverage_values));
        ("ymin", HInt 0);
        ("ymax", HInt 100);
        ("use_legend", HBool false);
        ("tt_decimals", HInt 2);
        ("tt_suffix", HStr "%");
        ("tt_percentages", HBool false)]).

(** [MultiqcModule.__init__], from the log files the host found. *)
Definition init (files : list LogFile) : M unit :=
  parse_files files ;;;
  filter_samples ;;;
  add_bases_usable ;;;
  headers <- prepare_headers "MappingQC" ;;
  headers <- format_required headers ;;
  let headers := format_optional headers in
  report_overview headers ;;;
  if Dict.mem "target region 10x %" headers
  then report_coverage headers
  else ret tt.

Definition run (files : list LogFile) : result unit * state :=
  init files fresh.

End MappingQC.
End MappingQC.

(* ------------------------------------------------------------------ *)
(** ** SomaticQC (somaticqc.py): the "parse somatic variant rate value"
    step of [MultiqcModule.__init__] *)

Module SomaticQC.
Import Qcml.
Section SomaticQC.
Context {host : Host}.

(** [[0-9.]] *)
Definition digit_or_dot (c : ascii) : bool :=
  Binary64.is_digit c || Ascii.eqb c ".".

(** [r'(low|moderate|high) \(([0-9.]+) var/Mb\)'] *)
Definition rate_re : Re.regex :=
  [Re.Alt ["low"; "moderate"; "high"]; Re.Lit " (";
   Re.Plus digit_or_dot; Re.Lit " var/Mb)"].

(** The replacement ['\2']: in a string literal that is not raw, the
    one character U+0002. *)
Definition replacement : string := String (ascii_of_nat 2) "".

(** The body of the loop:
    [try: kv[k] = float(re.sub(..., '\2', kv[k]))]
    [except ValueError: kv.pop(k)], with [k = 'somatic variant rate'].
    [re.sub] raises [TypeError] on a number. *)
Definition somatic_variant_rate (kv : metrics) : result metrics :=
  match getitem kv "somatic variant rate" with
  | Raise e => Raise e
  | Ok (VFloat _) => Raise TypeError
  | Ok (VStr s) =>
      match float (Re.sub rate_re replacement s) with
      | Some x => Ok (Dict.set "somatic variant rate" (VFloat x) kv)
      | None => Ok (Dict.remove "somatic variant rate" kv)
      end
  end.

(** "parse somatic variant rate value" *)
Definition parse_somatic_variant_rate : M unit :=
  for_samples somatic_variant_rate.

(** [[^-]] *)
Definition not_dash (c : ascii) : bool := negb (Ascii.eqb c "-").

(** [ms = re.match(r'([^-]+)-[^-]+', s_name)]: [ms.group(1)] where the
    pattern matches at the start of the name. *)
Definition pair_name (name : string) : option string :=
  match Re.plus_group not_dash
          (Re.match_len [Re.Lit "-"; Re.Plus not_dash]) name with
  | Some (g, _) => Some (substring 0 g name)
  | None => None
  end.

(** The sample name of a log file: "try to split Sample1-Sample2
    names". *)
Definition sample_name (lf : LogFile) : string :=
  let s := clean_s_name (s_name lf) (root lf) in
  match pair_name s with
  | Some g => g
  | None => s
  end.

(** The loop over the log files. *)
Definition parse_files (files : list LogFile) : M unit :=
  for_each files
    (fun lf (_ : unit) =>
       add_data_source lf ;;;
       let s := sample_name lf in
       d <- parse_qcml (f lf) ;;
       modify (fun st => set_qcdata (Dict.set s d (qcdata st)) st))
    tt.

(** The [update] calls outside of a [try]. *)
Definition format_required (headers : Dict.t header)
  : M (Dict.t header) :=
  h <- must_update "sample correlation"
         [("format", HStr "{:,.2f}"); ("max", HInt 1)] headers ;;
  h <- must_update "variant count"
         [("format", HStr "{:,.0f}"); ("title", HStr "variant count")] h ;;
  h <- must_update "somatic variant count"
         [("format", HStr "{:,.0f}")] h ;;
  h <- must_update "known somatic variants %"
         [("suffix", HStr "%"); ("format", HStr "{:,.2f}");
          ("max", HInt 100)] h ;;
  h <- must_update "somatic indel %"
         [("suffix", HStr "%"); ("format", HStr "{:,.2f}");
          ("minRange", HInt 20); ("ceiling", HInt 20)] h ;;
  must_update "somatic variant rate"
    [("suffix", HStr "Variants/Mb"); ("format", HStr "{:,.2f}");
     ("min", HInt 0); ("minRange", HInt 10); ("ceiling", HInt 10)] h.

(** The two [try: ... except KeyError: pass] blocks. *)
Definition format_optional (headers : Dict.t header) : Dict.t header :=
  let h1 :=
    match update_header "somatic transition/transversion ratio"
            [("format", HStr "{:,.2f}"); ("minRange", HInt 5);
             ("ceiling", HInt 5)] headers with
    | Some h => h
    | None => headers
    end in
  match update_header "tumor content estimate"
          [("suffix", HStr "%"); ("format", HStr "{:,.2f}");
           ("max", HInt 100)] h1 with
  | Some h => h
  | None => h1
  end.

(** [d[new] = d.pop(old)] *)
Definition rename_key {V} (old new : string) (d : Dict.t V)
  : result (Dict.t V) :=
  match getitem d old with
  | Raise e => Raise e
  | Ok v => Ok (Dict.set new v (Dict.remove old d))
  end.

(** "rename 'variant count' key to prevent duplicate ID with 'variant
    count' from VariantQC", in the headers and in every sample. *)
Definition rename_variant_count (headers : Dict.t header)
  : M (Dict.t header) :=
  h <- lift (rename_key "variant count" "variant count somaticqc" headers) ;;
  for_samples (rename_key "variant count" "variant count somaticqc") ;;;
  ret h.

(** General statistics, data file, the overview table and the bar plot. *)
Definition report (headers : Dict.t header) : M unit :=
  general_stats_addcols
    (dict_ordered_subset headers
       ["sample correlation"; "somatic variant count";
        "known somatic variants %"]) ;;;
  write_data_file "multiqc_somaticqc" ;;;
  data <- gets qcdata ;;
  add_section "Overview" "somaticqc-general" ""
    (TablePlot data
       (dict_ordered_subset headers
          ["sample correlation"; "variant count somaticqc";
           "somatic variant count"; "known somatic variants %";
           "somatic indel %"; "somatic transition/transversion ratio";
           "somatic variant rate"; "tumor content estimate"])
       [("namespace", HStr "SomaticQC")]) ;;;
  description <- make_description ["somatic variant count"] ;;
  data <- gets qcdata ;;
  add_section "Somatic Variant Count" "somaticqc-somatic-variant-count"
    description
    (BarPlot data
       (dict_ordered_subset headers ["somatic variant count"])
       [("namespace", HStr "SomaticQC");
        ("id", HStr "somaticqc-somatic-variant-count-plot");
        ("title", HStr "SomaticQC: Somatic Variant Count");
        ("ylab", HStr "count");
        ("yDecimals", HBool false);
        ("cpswitch", HBool false);
        ("tt_decimals", HInt 0);
        ("tt_suffix", HStr "");
        ("tt_percentages", HBool false)]).

(** [MultiqcModule.__init__], from the log files the host found. *)
Definition init (files : list LogFile) : M unit :=
  parse_files files ;;;
  filter_samples ;;;
  parse_somatic_variant_rate ;;;
  headers <- prepare_headers "SomaticQC" ;;
  headers <- format_required headers ;;
  let headers := format_optional headers in
  headers <- rename_variant_count headers ;;
  report headers.

Definition run (files : list LogFile) : result unit * state :=
  init files fresh.

End SomaticQC.
End SomaticQC.

(* ------------------------------------------------------------------ *)
(** ** VariantQC (variantqc.py, [MultiqcModule.__init__]) *)

Module VariantQC.
Import Qcml.
Section VariantQC.
Context {host : Host}.

(** The [update] calls on the prepared headers. *)
Definition format_headers (headers : Dict.t header)
  : M (Dict.t header) :=
  h <- must_update "variant count"
         [("format", HStr "{:,.0f}"); ("scale", HStr "Blues")] headers ;;
  h <- must_update "known variants %"
         [("suffix", HStr "%"); ("format", HStr "{:,.2f}");
          ("max", HInt 100); ("scale", HStr "YlGnBu")] h ;;
  h <- must_update "high-impact variants %"
         [("suffix", HStr "%"); ("format", HStr "{:,.2f}");
          ("min", HInt 0); ("minRange", HInt 10); ("ceiling", HInt 10);
          ("scale", HStr "Reds")] h ;;
  h <- must_update "homozygous variants %"
         [("suffix", HStr "%"); ("format", HStr "{:,.2f}");
          ("max", HInt 100); ("scale", HStr "Purples")] h ;;
  h <- must_update "indel variants %"
         [("suffix", HStr "%"); ("format", HStr "{:,.2f}");
          ("minRange", HInt 20); ("ceiling", HInt 20);
          ("scale", HStr "PuRd")] h ;;
  must_update "transition/transversion ratio"
    [("format", HStr "{:,.2f}"); ("minRange", HInt 5); ("ceiling", HInt 5);
     ("scale", HStr "RdBu")] h.

(** General statistics, data file, the overview table and the bar plot. *)
Definition report (headers : Dict.t header) : M unit :=
  general_stats_addcols
    (dict_ordered_subset headers ["variant count"; "known variants %"]) ;;;
  write_data_file "multiqc_variantqc" ;;;
  data <- gets qcdata ;;
  add_section "Overview" "variantqc-general" ""
    (TablePlot data
       (dict_ordered_subset headers
          ["variant count"; "high-impact variants %";
           "homozygous variants %"; "indel variants %";
           "transition/transversion ratio"])
       [("namespace", HStr "VariantQC")]) ;;;
  description <- make_description ["variant count"] ;;
  data <- gets qcdata ;;
  add_section "Variant Count" "variantqc-variant-count" description
    (BarPlot data
       (dict_ordered_subset headers ["variant count"])
       [("namespace", HStr "VariantQC");
        ("id", HStr "variantqc-variant-count-plot");
        ("title", HStr "VariantQC: Variant Count");
        ("ylab", HStr "count");
        ("yDecimals", HBool false);
        ("cpswitch", HBool false);
        ("tt_decimals", HInt 0);
        ("tt_suffix", HStr "");
        ("tt_percentages", HBool false)]).

(** [MultiqcModule.__init__], from the log files the host found. *)
Definition init (files : list LogFile) : M unit :=
  parse_files files ;;;
  filter_samples ;;;
  headers <- prepare_headers "VariantQC" ;;
  headers <- format_headers headers ;;
  report headers.

Definition run (files : list LogFile) : result unit * state :=
  init files fresh.

End VariantQC.
End VariantQC.

(* ------------------------------------------------------------------ *)
(** ** Lists of keys *)

(** The first occurrence of every key, in the order of the list. *)
Fixpoint first_occurrences (ks : list string) : list string :=
  match ks with
  | [] => []
  | k :: r => k :: filter (fun x => negb (x =? k)) (first_occurrences r)
  end.

(* ------------------------------------------------------------------ *)
(** ** A concrete host and concrete documents

    The host of the examples: binary64 numbers, an XML parser given by the
    table of the documents it knows (any other text is malformed), sample
    names kept as they are and the samples of [ignored] filtered out. *)

Definition host64 (docs : Dict.t Element) (ignored : list string) : Host :=
  {| pyfloat := Binary64.t;
     float := Binary64.float;
     float_mul := Binary64.mul;
     float_1e6 := Binary64.million;
     fromstring := fun text => Dict.get text docs;
     clean_s_name := fun s _ => s;
     ignore_samples :=
       filter (fun kv => negb (existsb (String.eqb (fst kv)) ignored)) |}.

Definition ns (local : string) : string :=
  "{http://www.prime-xs.eu/ms/qcml}" ++ local.

(** A [qualityParameter] element with the four attributes. *)
Definition qp (name val : string) : Element :=
  Elem (ns "qualityParameter")
    [("ID", "qp"); ("name", name); ("description", "about " ++ name);
     ("value", val); ("accession", "QC:0000000")] [].

(** A qcML document with one [runQuality] holding the given elements. *)
Definition qcml_doc (qps : list Element) : Element :=
  Elem (ns "qcML") [] [Elem (ns "runQuality") [("ID", "rq0001")] qps].

(** The example of the specification: a percentage, an n/a value, a number
    and a text. *)
Definition example_text : string :=
  "<qcML xmlns='http://www.prime-xs.eu/ms/qcml'><runQuality ID='rq0001'>"
  ++ "<qualityParameter ID='qp' name='mapped read percentage' description='about mapped read percentage' value='97.3' accession='QC:0000000'/>"
  ++ "<qualityParameter ID='qp' name='target region read depth' description='about target region read depth' value='n/a (no target region)' accession='QC:0000000'/>"
  ++ "<qualityParameter ID='qp' name='insert size' description='about insert size' value='210' accession='QC:0000000'/>"
  ++ "<qualityParameter ID='qp' name='sample note' description='about sample note' value='NA_TEXT' accession='QC:0000000'/>"
  ++ "</runQuality></qcML>".

Definition example_doc : Element :=
  qcml_doc
    [qp "mapped read percentage" "97.3";
     qp "target region read depth" "n/a (no target region)";
     qp "insert size" "210";
     qp "sample note" "NA_TEXT"].

(** A name that ends in a line feed, written [&#10;] in the attribute. *)
Definition newline_text : string :=
  "<qcML xmlns='http://www.prime-xs.eu/ms/qcml'><runQuality ID='rq0001'>"
  ++ "<qualityParameter ID='qp' name='gc content percentage&#10;' description='about gc content percentage&#10;' value='41.2' accession='QC:0000000'/>"
  ++ "</runQuality></qcML>".

Definition newline_doc : Element :=
  qcml_doc [qp ("gc content percentage" ++ Str.nl) "41.2"].

(** An n/a element that has only its value. *)
Definition bare_na_text : string :=
  "<qcML xmlns='http://www.prime-xs.eu/ms/qcml'><runQuality ID='rq0001'>"
  ++ "<qualityParameter value='n/a'/>"
  ++ "</runQuality></qcML>".

Definition bare_na_doc : Element :=
  qcml_doc [Elem (ns "qualityParameter") [("value", "n/a")] []].

(** An element that has no value. *)
Definition no_value_text : string :=
  "<qcML xmlns='http://www.prime-xs.eu/ms/qcml'><runQuality ID='rq0001'>"
  ++ "<qualityParameter ID='qp' name='read count' description='about read count' accession='QC:0000000'/>"
  ++ "</runQuality></qcML>".

Definition no_value_doc : Element :=
  qcml_doc
    [Elem (ns "qualityParameter")
       [("ID", "qp"); ("name", "read count");
        ("description", "about read count"); ("accession", "QC:0000000")]
       []].

(** A document without quality parameters. *)
Definition empty_text : string :=
  "<qcML xmlns='http://www.prime-xs.eu/ms/qcml'><runQuality ID='rq0001'/></qcML>".

Definition empty_doc : Element :=
  Elem (ns "qcML") [] [Elem (ns "runQuality") [("ID", "rq0001")] []].

(** A ReadQC report. *)
Definition readqc_text : string :=
  "<qcML xmlns='http://www.prime-xs.eu/ms/qcml'><runQuality ID='rq0001'>"
  ++ "<qualityParameter ID='qp' name='read count' description='about read count' value='1000000' accession='QC:0000000'/>"
  ++ "<qualityParameter ID='qp' name='read length' description='about read length' value='151' accession='QC:0000000'/>"
  ++ "<qualityParameter ID='qp' name='Q20 read percentage' description='about Q20 read percentage' value='98.5' accession='QC:0000000'/>"
  ++ "<qualityParameter ID='qp' name='Q30 base percentage' description='about Q30 base percentage' value='93.1' accession='QC:0000000'/>"
  ++ "<qualityParameter ID='qp' name='no base call percentage' description='about no base call percentage' value='0.01' accession='QC:0000000'/>"
  ++ "<qualityParameter ID='qp' name='gc content percentage' description='about gc content percentage' value='41.2' accession='QC:0000000'/>"
  ++ "<qualityParameter ID='qp' name='bases sequenced (MB)' description='about bases sequenced (MB)' value='151.5' accession='QC:0000000'/>"
  ++ "</runQuality></qcML>".

Definition readqc_doc : Element :=
  qcml_doc
    [qp "read count" "1000000";
     qp "read length" "151";
     qp "Q20 read percentage" "98.5";
     qp "Q30 base percentage" "93.1";
     qp "no base call percentage" "0.01";
     qp "gc content percentage" "41.2";
     qp "bases sequenced (MB)" "151.5"].

(** A MappingQC report without any of the optional parameters. *)
Definition mappingqc_text : string :=
  "<qcML xmlns='http://www.prime-xs.eu/ms/qcml'><runQuality ID='rq0001'>"
  ++ "<qualityParameter ID='qp' name='trimmed base percentage' description='about trimmed base percentage' value='0.5' accession='QC:0000000'/>"
  ++ "<qualityParameter ID='qp' name='clipped base percentage' description='about clipped base percentage' value='0.2' accession='QC:0000000'/>"
  ++ "<qualityParameter ID='qp' name='mapped read percentage' description='about mapped read percentage' value='97.3' accession='QC:0000000'/>"
  ++ "<qualityParameter ID='qp' name='on-target read percentage' description='about on-target read percentage' value='88.0' accession='QC:0000000'/>"
  ++ "<qualityParameter ID='qp' name='bases usable (MB)' description='about bases usable (MB)' value='120.25' accession='QC:0000000'/>"
  ++ "</runQuality></qcML>".

Definition mappingqc_doc : Element :=
  qcml_doc
    [qp "trimmed base percentage" "0.5";
     qp "clipped base percentage" "0.2";
     qp "mapped read percentage" "97.3";
     qp "on-target read percentage" "88.0";
     qp "bases usable (MB)" "120.25"].

(** A MappingQC report with the 10x coverage and no read depth. *)
Definition coverage_text : string :=
  "<qcML xmlns='http://www.prime-xs.eu/ms/qcml'><runQuality ID='rq0001'>"
  ++ "<qualityParameter ID='qp' name='trimmed base percentage' description='about trimmed base percentage' value='0.5' accession='QC:0000000'/>"
  ++ "<qualityParameter ID='qp' name='clipped base percentage' description='about clipped base percentage' value='0.2' accession='QC:0000000'/>"
  ++ "<qualityParameter ID='qp' name='mapped read percentage' description='about mapped read percentage' value='97.3' accession='QC:0000000'/>"
  ++ "<qualityParameter ID='qp' name='on-target read percentage' description='about on-target read percentage' value='88.0' accession='QC:0000000'/>"
  ++ "<qualityParameter ID='qp' name='bases usable (MB)' description='about bases usable (MB)' value='120.25' accession='QC:0000000'/>"
  ++ "<qualityParameter ID='qp' name='target region 10x percentage' description='about target region 10x percentage' value='99.1' accession='QC:0000000'/>"
  ++ "</runQuality></qcML>".

Definition coverage_doc : Element :=
  qcml_doc
    [qp "trimmed base percentage" "0.5";
     qp "clipped base percentage" "0.2";
     qp "mapped read percentage" "97.3";
     qp "on-target read percentage" "88.0";
     qp "bases usable (MB)" "120.25";
     qp "target region 10x percentage" "99.1"].

Definition documents : Dict.t Element :=
  [(example_text, example_doc); (newline_text, newline_doc);
   (bare_na_text, bare_na_doc); (no_value_text, no_value_doc);
   (empty_text, empty_doc);
   (readqc_text, readqc_doc); (mappingqc_text, mappingqc_doc);
   (coverage_text, coverage_doc)].

(** A SomaticQC mapping with an annotated variant rate. *)
Definition somatic_kv : Dict.t (value Binary64.t) :=
  [("somatic variant count", VFloat (Binary64.of_decimal false 42 0));
   ("somatic variant rate", VStr "high (12.5 var/Mb)")].

(** A host that ignores the sample "A". *)
Definition py_without_A : Host := host64 documents ["A"].

(** The host of the examples, which ignores no sample. *)
Definition py : Host := host64 documents [].

Definition log (s text : string) : LogFile :=
  {| s_name := s; root := "."; f := text |}.

(** A VariantQC report. *)
Definition variantqc_text : string :=
  "<qcML xmlns='http://www.prime-xs.eu/ms/qcml'><runQuality ID='rq0001'>"
  ++ "<qualityParameter ID='qp' name='variant count' description='about variant count' value='41000' accession='QC:0000000'/>"
  ++ "<qualityParameter ID='qp' name='known variants percentage' description='about known variants percentage' value='98.2' accession='QC:0000000'/>"
  ++ "<qualityParameter ID='qp' name='high-impact variants percentage' description='about high-impact variants percentage' value='0.4' accession='QC:0000000'/>"
  ++ "<qualityParameter ID='qp' name='homozygous variants percentage' description='about homozygous variants percentage' value='38.1' accession='QC:0000000'/>"
  ++ "<qualityParameter ID='qp' name='indel variants percentage' description='about indel variants percentage' value='11.9' accession='QC:0000000'/>"
  ++ "<qualityParameter ID='qp' name='transition/transversion ratio' description='about transition/transversion ratio' value='2.05' accession='QC:0000000'/>"
  ++ "</runQuality></qcML>".

Definition variantqc_doc : Element :=
  qcml_doc
    [qp "variant count" "41000";
     qp "known variants percentage" "98.2";
     qp "high-impact variants percentage" "0.4";
     qp "homozygous variants percentage" "38.1";
     qp "indel variants percentage" "11.9";
     qp "transition/transversion ratio" "2.05"].

(** A MappingQC report with the read depth and all coverage values. *)
Definition full_mappingqc_text : string :=
  "<qcML xmlns='http://www.prime-xs.eu/ms/qcml'><runQuality ID='rq0001'>"
  ++ "<qualityParameter ID='qp' name='trimmed base percentage' description='about trimmed base percentage' value='0.5' accession='QC:0000000'/>"
  ++ "<qualityParameter ID='qp' name='clipped base percentage' description='about clipped base percentage' value='0.2' accession='QC:0000000'/>"
  ++ "<qualityParameter ID='qp' name='mapped read percentage' description='about mapped read percentage' value='97.3' accession='QC:0000000'/>"
  ++ "<qualityParameter ID='qp' name='on-target read percentage' description='about on-target read percentage' value='88.0' accession='QC:0000000'/>"
  ++ "<qualityParameter ID='qp' name='bases usable (MB)' description='about bases usable (MB)' value='120.25' accession='QC:0000000'/>"
  ++ "<qualityParameter ID='qp' name='target region read depth' description='about target region read depth' value='150.2' accession='QC:0000000'/>"
  ++ "<qualityParameter ID='qp' name='target region 10x percentage' description='about target region 10x percentage' value='99.1' accession='QC:0000000'/>"
  ++ "<qualityParameter ID='qp' name='target region 20x percentage' description='about target region 20x percentage' value='98.4' accession='QC:0000000'/>"
  ++ "<qualityParameter ID='qp' name='target region 30x percentage' description='about target region 30x percentage' value='97.2' accession='QC:0000000'/>"
  ++ "<qualityParameter ID='qp' name='target region 50x percentage' description='about target region 50x percentage' value='93.5' accession='QC:0000000'/>"
  ++ "<qualityParameter ID='qp' name='target region 100x percentage' description='about target region 100x percentage' value='71.8' accession='QC:0000000'/>"
  ++ "<qualityParameter ID='qp' name='target region 200x percentage' description='about target region 200x percentage' value='12.6' accession='QC:0000000'/>"
  ++ "<qualityParameter ID='qp' name='target region 500x percentage' description='about target region 500x percentage' value='0.3' accession='QC:0000000'/>"
  ++ "</runQuality></qcML>".

Definition full_mappingqc_doc : Element :=
  qcml_doc
    [qp "trimmed base percentage" "0.5";
     qp "clipped base percentage" "0.2";
     qp "mapped read percentage" "97.3";
     qp "on-target read percentage" "88.0";
     qp "bases usable (MB)" "120.25";
     qp "target region read depth" "150.2";
     qp "target region 10x percentage" "99.1";
     qp "target region 20x percentage" "98.4";
     qp "target region 30x percentage" "97.2";
     qp "target region 50x percentage" "93.5";
     qp "target region 100x percentage" "71.8";
     qp "target region 200x percentage" "12.6";
     qp "target region 500x percentage" "0.3"].

(** A SomaticQC report with an annotated variant rate. *)
Definition somaticqc_text : string :=
  "<qcML xmlns='http://www.prime-xs.eu/ms/qcml'><runQuality ID='rq0001'>"
  ++ "<qualityParameter ID='qp' name='sample correlation' description='about sample correlation' value='0.97' accession='QC:0000000'/>"
  ++ "<qualityParameter ID='qp' name='variant count' description='about variant count' value='41000' accession='QC:0000000'/>"
  ++ "<qualityParameter ID='qp' name='somatic variant count' description='about somatic variant count' value='42' accession='QC:0000000'/>"
  ++ "<qualityParameter ID='qp' name='known somatic variants percentage' description='about known somatic variants percentage' value='3.1' accession='QC:0000000'/>"
  ++ "<qualityParameter ID='qp' name='somatic indel percentage' description='about somatic indel percentage' value='4.8' accession='QC:0000000'/>"
  ++ "<qualityParameter ID='qp' name='somatic variant rate' description='about somatic variant rate' value='high (12.5 var/Mb)' accession='QC:0000000'/>"
  ++ "</runQuality></qcML>".

Definition somaticqc_doc : Element :=
  qcml_doc
    [qp "sample correlation" "0.97";
     qp "variant count" "41000";
     qp "somatic variant count" "42";
     qp "known somatic variants percentage" "3.1";
     qp "somatic indel percentage" "4.8";
     qp "somatic variant rate" "high (12.5 var/Mb)"].

(** A SomaticQC report with the variant rate as a plain number. *)
Definition numeric_rate_text : string :=
  "<qcML xmlns='http://www.prime-xs.eu/ms/qcml'><runQuality ID='rq0001'>"
  ++ "<qualityParameter ID='qp' name='sample correlation' description='about sample correlation' value='0.97' accession='QC:0000000'/>"
  ++ "<qualityParameter ID='qp' name='variant count' description='about variant count' value='41000' accession='QC:0000000'/>"
  ++ "<qualityParameter ID='qp' name='somatic variant count' description='about somatic variant count' value='42' accession='QC:0000000'/>"
  ++ "<qualityParameter ID='qp' name='known somatic variants percentage' description='about known somatic variants percentage' value='3.1' accession='QC:0000000'/>"
  ++ "<qualityParameter ID='qp' name='somatic indel percentage' description='about somatic indel percentage' value='4.8' accession='QC:0000000'/>"
  ++ "<qualityParameter ID='qp' name='somatic variant rate' description='about somatic variant rate' value='12.5' accession='QC:0000000'/>"
  ++ "</runQuality></qcML>".

Definition numeric_rate_doc : Element :=
  qcml_doc
    [qp "sample correlation" "0.97";
     qp "variant count" "41000";
     qp "somatic variant count" "42";
     qp "known somatic variants percentage" "3.1";
     qp "somatic indel percentage" "4.8";
     qp "somatic variant rate" "12.5"].

(** The documents of the further examples. *)
Definition more_documents : Dict.t Element :=
  (documents
   ++ [(variantqc_text, variantqc_doc);
       (full_mappingqc_text, full_mappingqc_doc);
       (somaticqc_text, somaticqc_doc);
       (numeric_rate_text, numeric_rate_doc)])%list.

(** The host of the further examples, which ignores no sample. *)
Definition py_more : Host := host64 more_documents [].

(* ------------------------------------------------------------------ *)
(** ** Notions used to state the properties of the drivers *)

(** The character [c] occurs in [s]. *)
Fixpoint contains (c : ascii) (s : string) : bool :=
  match s with
  | EmptyString => false
  | String a r => Ascii.eqb a c || contains c r
  end.

(** The keys whose headers a module updates outside of a [try], in the
    order of the [update] calls. *)
Definition readqc_required : list string :=
  ["Q20 read %"; "Q30 base %"; "gc content %"; "no base call %";
   "bases sequenced"; "read count"; "read length"].

Definition mappingqc_required : list string :=
  ["trimmed base %"; "clipped base %"; "mapped read %"; "bases usable";
   "on-target read %"].

Definition somaticqc_required : list string :=
  ["sample correlation"; "variant count"; "somatic variant count";
   "known somatic variants %"; "somatic indel %"; "somatic variant rate"].

Definition variantqc_required : list string :=
  ["variant count"; "known variants %"; "high-impact variants %";
   "homozygous variants %"; "indel variants %";
   "transition/transversion ratio"].

(** The first of the keys [ks] that the dictionary does not have. *)
Definition first_missing {V} (ks : list string) (d : Dict.t V)
  : option string :=
  find (fun k => negb (Dict.mem k d)) ks.

(** An entry of the description table as [parse_qcml] writes it. *)
Definition complete_entry (e : Dict.t string) : Prop :=
  (exists d, Dict.get "description" e = Some d)
  /\ (exists a, Dict.get "accession" e = Some a).

(** One item of the list [make_description] builds. *)
Definition item (d : string) : string := "<li>" ++ d ++ "</li>".

(** The header prepared from the entry [e] of the key [k]. *)
Definition header_of (namespace k : string) (e : Dict.t string) : header :=
  [("namespace", HStr namespace); ("title", HStr k);
   ("description",
    HStr (match Dict.get "description" e with
          | Some d => d
          | None => EmptyString
          end))].

(** A description table as [parse_qcml] keeps it: no key twice, every
    entry with a description and an accession. *)
Definition table_wf (q : Dict.t (Dict.t string)) : Prop :=
  NoDup (Dict.keys q) /\ forall k e, In (k, e) q -> complete_entry e.

Section Notions.
Context {host : Host}.

(** A run of [headers[k].update(u)] calls outside of a [try]. *)
Definition update_all (us : list (string * header))
    (headers : Dict.t header) : M (Dict.t header) :=
  for_each us (fun ku h => Qcml.must_update (fst ku) (snd ku) h) headers.

(** The mapping that [parse_qcml] returns for the text of a log file. *)
Definition parsed (lf : LogFile) : option metrics :=
  match fst (Qcml.parse_qcml (f lf) fresh) with
  | Ok d => Some d
  | Raise _ => None
  end.

(** The cleaned sample name of a log file. *)
Definition cleaned (lf : LogFile) : string :=
  clean_s_name (s_name lf) (root lf).

(** The loop over the log files, for a given naming of the samples. *)
Definition parse_files_named (name : LogFile -> string)
    (files : list LogFile) : M unit :=
  for_each files
    (fun lf (_ : unit) =>
       add_data_source lf ;;;
       let s := name lf in
       d <- Qcml.parse_qcml (f lf) ;;
       modify (fun st => set_qcdata (Dict.set s d (qcdata st)) st))
    tt.

End Notions.

(* ------------------------------------------------------------------ *)
(** * Properties *)

(** ** The model on small inputs *)

Example sub_percentage_example :
  map (Re.sub Qcml.percentage_re " %")
    ["mapped read percentage"; "percentage of reads"; " percentage";
     "a percentage percentage"; "gc percentage" ++ Str.nl;
     "gc percentage" ++ Str.nl ++ Str.nl]
  = ["mapped read %"; "percentage of reads"; " %"; "a percentage %";
     "gc %" ++ Str.nl; "gc percentage" ++ Str.nl ++ Str.nl].
Proof. reflexivity. Qed.

Example sub_rate_example :
  map (Re.sub SomaticQC.rate_re "#")
    ["high (12.5 var/Mb)"; "xx low (1 var/Mb) and moderate (.. var/Mb)!";
     "higher (1 var/Mb)"; "low ( var/Mb)"; "12.5"]
  = ["#"; "xx # and #!"; "higher (1 var/Mb)"; "low ( var/Mb)"; "12.5"].
Proof. reflexivity. Qed.

Example float_example :
  map Binary64.float ["97.3"; " 1_000.5e-3 "; "-inf"; "NA_TEXT"; "n/a"; "1e"]
  = [Some (S754_finite false 6846878808486707 (-46));
     Some (S754_finite false 4505851427184181 (-52));
     Some (S754_infinity true); None; None; None].
Proof. vm_compute. reflexivity. Qed.

Example times_example :
  option_map (fun x => Binary64.mul x Binary64.million)
    (Binary64.float "151.5")
  = Binary64.float "151500000".
Proof. vm_compute. reflexivity. Qed.

Example findall_example :
  map (fun e => Dict.get "name" (attrib e))
    (findall_descendants Qcml.qualityParameter
       (Elem (ns "qualityParameter") [("name", "root")]
          [Elem (ns "runQuality") []
             [qp "a" "1"; Elem (ns "metaDataParameter") [("name", "m")] []];
           Elem (ns "setQuality") [] [qp "b" "2"]]))
  = [Some "a"; Some "b"].
Proof. reflexivity. Qed.

Example coverage_key_example :
  map MappingQC.coverage_key MappingQC.coverage_values
  = ["target region 10x %"; "target region 20x %"; "target region 30x %";
     "target region 50x %"; "target region 100x %"; "target region 200x %";
     "target region 500x %"].
Proof. reflexivity. Qed.

Example dict_example :
  Dict.set "a" 3 (Dict.set "b" 2 (Dict.set "a" 1 (Dict.empty nat)))
  = [("a", 3); ("b", 2)]
  /\ Dict.remove "a" [("a", 3); ("b", 2)] = [("b", 2)]
  /\ Qcml.dict_ordered_subset [("a", 3); ("b", 2)] ["b"; "c"; "a"]
     = [("b", 2); ("a", 3)].
Proof. repeat split. Qed.

(** ** Strings and dictionaries *)

Lemma removeprefix_app (p r : string) : Str.removeprefix p (p ++ r) = Some r.
Proof.
  induction p as [|a p IH]; simpl; [reflexivity|].
  now rewrite Ascii.eqb_refl.
Qed.

Lemma removeprefix_Some (p s r : string) :
  Str.removeprefix p s = Some r -> s = p ++ r.
Proof.
  revert s; induction p as [|a p IH]; intros s H; simpl in *.
  - now inversion H.
  - destruct s as [|b s]; [discriminate|].
    destruct (Ascii.eqb_spec a b) as [->|]; [|discriminate].
    now rewrite (IH _ H).
Qed.

Lemma length_append (s r : string) :
  String.length (s ++ r) = String.length s + String.length r.
Proof. induction s; simpl; congruence. Qed.

Section DictFacts.
Variable V : Type.
Implicit Types (d : Dict.t V) (k : string) (v : V).

Lemma get_set_eq k v d : Dict.get k (Dict.set k v d) = Some v.
Proof.
  induction d as [|[k' v'] d IH]; simpl.
  - now rewrite String.eqb_refl.
  - destruct (String.eqb_spec k' k) as [->|N]; simpl.
    + now rewrite String.eqb_refl.
    + destruct (String.eqb_spec k' k); [contradiction|exact IH].
Qed.

Lemma get_set_neq k k' v d :
  k <> k' -> Dict.get k' (Dict.set k v d) = Dict.get k' d.
Proof.
  intros N; induction d as [|[k0 v0] d IH]; simpl.
  - destruct (String.eqb_spec k k'); [contradiction|reflexivity].
  - destruct (String.eqb_spec k0 k) as [->|N0]; simpl.
    + destruct (String.eqb_spec k k'); [contradiction|reflexivity].
    + now rewrite IH.
Qed.

Lemma get_remove_eq k d : Dict.get k (Dict.remove k d) = None.
Proof.
  induction d as [|[k0 v0] d IH]; simpl; [reflexivity|].
  destruct (String.eqb_spec k0 k) as [->|N]; simpl; [exact IH|].
  destruct (String.eqb_spec k0 k); [contradiction|exact IH].
Qed.

Lemma get_remove_neq k k' d :
  k <> k' -> Dict.get k' (Dict.remove k d) = Dict.get k' d.
Proof.
  intros N; induction d as [|[k0 v0] d IH]; simpl; [reflexivity|].
  destruct (String.eqb_spec k0 k) as [->|N0]; simpl.
  - destruct (String.eqb_spec k k'); [contradiction|exact IH].
  - now rewrite IH.
Qed.

Lemma get_None_keys k d : Dict.get k d = None <-> ~ In k (Dict.keys d).
Proof.
  induction d as [|[k0 v0] d IH]; simpl; [tauto|].
  destruct (String.eqb_spec k0 k) as [->|N].
  - split; [discriminate|intros H; exfalso; apply H; now left].
  - rewrite IH; split; [intros H [E|I]; auto|tauto].
Qed.

Lemma keys_set k v d :
  Dict.keys (Dict.set k v d) =
  if Dict.mem k d then Dict.keys d else (Dict.keys d ++ [k])%list.
Proof.
  unfold Dict.mem.
  induction d as [|[k0 v0] d IH]; simpl; [reflexivity|].
  destruct (String.eqb_spec k0 k) as [->|N]; simpl; [reflexivity|].
  rewrite IH. now destruct (Dict.get k d).
Qed.

(** The dictionary built by a run of assignments: the value of a key is
    the one assigned last. *)
Lemma get_fold_set (es : list (string * V)) d k :
  Dict.get k (fold_left (fun a e => Dict.set (fst e) (snd e) a) es d) =
  match Dict.get k (rev es) with
  | Some v => Some v
  | None => Dict.get k d
  end.
Proof.
  revert d; induction es as [|[k0 v0] es IH]; intros d; simpl;
    [reflexivity|].
  rewrite IH.
  assert (G : forall (l : Dict.t V) x,
             Dict.get k (l ++ [x])%list =
             match Dict.get k l with
             | Some v => Some v
             | None => if fst x =? k then Some (snd x) else None
             end).
  { induction l as [|[k1 v1] l IHl]; intros [kx vx]; simpl.
    - reflexivity.
    - destruct (k1 =? k); [reflexivity|apply IHl]. }
  rewrite G; simpl.
  destruct (Dict.get k (rev es)); [reflexivity|].
  destruct (String.eqb_spec k0 k) as [->|N].
  - apply get_set_eq.
  - now apply get_set_neq.
Qed.

Lemma filter_filter (A : Type) (p q : A -> bool) (l : list A) :
  filter p (filter q l) = filter (fun x => q x && p x) l.
Proof.
  induction l as [|a l IH]; simpl; [reflexivity|].
  destruct (q a); simpl; [destruct (p a)|]; now rewrite IH.
Qed.

(** The keys of the dictionary built by a run of assignments: the keys
    it had, then the new ones in the order of their first assignment. *)
Lemma keys_fold_set (es : list (string * V)) d :
  Dict.keys (fold_left (fun a e => Dict.set (fst e) (snd e) a) es d) =
  (Dict.keys d ++
   filter (fun k => negb (Dict.mem k d))
     (first_occurrences (map fst es)))%list.
Proof.
  revert d; induction es as [|[k0 v0] es IH]; intros d; simpl.
  - now rewrite app_nil_r.
  - rewrite IH, keys_set.
    destruct (Dict.mem k0 d) eqn:M; simpl.
    + f_equal. rewrite filter_filter. apply filter_ext.
      intros k. unfold Dict.mem.
      destruct (String.eqb_spec k0 k) as [->|N].
      * rewrite get_set_eq.
        unfold Dict.mem in M. destruct (Dict.get k d); [|discriminate].
        destruct (String.eqb_spec k k); [reflexivity|contradiction].
      * rewrite (get_set_neq _ _ N).
        destruct (String.eqb_spec k k0); [congruence|].
        now destruct (Dict.get k d).
    + rewrite <- app_assoc; simpl. do 2 f_equal.
      rewrite filter_filter. apply filter_ext.
      intros k. unfold Dict.mem.
      destruct (String.eqb_spec k0 k) as [->|N].
      * rewrite get_set_eq.
        now destruct (String.eqb_spec k k).
      * rewrite (get_set_neq _ _ N).
        destruct (String.eqb_spec k k0); [congruence|].
        now destruct (Dict.get k d).
Qed.

End DictFacts.

(** ** The rewriting of names *)

Lemma match_percentage (s : string) :
  Re.match_len Qcml.percentage_re s =
  if (s =? " percentage") || (s =? " percentage" ++ Str.nl)
  then Some 11 else None.
Proof.
  unfold Qcml.percentage_re; cbn [Re.match_len].
  unfold Re.lit_len, Re.at_end.
  destruct (Str.removeprefix " percentage" s) as [r|] eqn:P.
  - apply removeprefix_Some in P; subst s.
    change (" percentage" ++ r =? " percentage") with (r =? "").
    change (" percentage" ++ r =? " percentage" ++ Str.nl)
      with (r =? Str.nl).
    now destruct ((r =? "") || (r =? Str.nl)).
  - destruct (String.eqb_spec s " percentage") as [->|_];
      [discriminate|].
    destruct (String.eqb_spec s (" percentage" ++ Str.nl)) as [->|_];
      [discriminate|reflexivity].
Qed.

Lemma sub_percentage_unfold (s : string) :
  Re.sub Qcml.percentage_re " %" s =
  if s =? " percentage" then " %"
  else if s =? " percentage" ++ Str.nl then " %" ++ Str.nl
  else match s with
       | EmptyString => EmptyString
       | String c r => String c (Re.sub Qcml.percentage_re " %" r)
       end.
Proof.
  destruct (String.eqb_spec s " percentage") as [->|N1]; [reflexivity|].
  destruct (String.eqb_spec s (" percentage" ++ Str.nl)) as [->|N2];
    [reflexivity|].
  unfold Re.sub. destruct s as [|c r].
  - reflexivity.
  - unfold Re.sub_from at 1; fold Re.sub_from.
    rewrite match_percentage.
    destruct (String.eqb_spec (String c r) " percentage");
      [contradiction|].
    destruct (String.eqb_spec (String c r) (" percentage" ++ Str.nl));
      [contradiction|reflexivity].
Qed.

(** A name that ends in [" percentage"] ends in [" %"] instead. *)
Lemma sub_percentage_suffix (p : string) :
  Re.sub Qcml.percentage_re " %" (p ++ " percentage") = p ++ " %".
Proof.
  induction p as [|c p IH]; [reflexivity|].
  rewrite sub_percentage_unfold.
  change (String c p ++ " percentage")
    with (String c (p ++ " percentage")).
  destruct (String.eqb_spec (String c (p ++ " percentage")) " percentage")
    as [E|_].
  { apply (f_equal String.length) in E; simpl in E.
    rewrite length_append in E; simpl in E; lia. }
  destruct (String.eqb_spec (String c (p ++ " percentage"))
              (" percentage" ++ Str.nl)) as [E|_].
  { pose proof (f_equal String.length E) as L; simpl in L.
    rewrite length_append in L; simpl in L.
    destruct p; [discriminate E|simpl in L; lia]. }
  simpl. now rewrite IH.
Qed.

(** So does one where a line feed follows: [$] also holds just before the
    line feed that ends the string. *)
Lemma sub_percentage_suffix_nl (p : string) :
  Re.sub Qcml.percentage_re " %" (p ++ " percentage" ++ Str.nl) =
  p ++ " %" ++ Str.nl.
Proof.
  induction p as [|c p IH]; [reflexivity|].
  rewrite sub_percentage_unfold.
  change (String c p ++ " percentage" ++ Str.nl)
    with (String c (p ++ " percentage" ++ Str.nl)).
  destruct (String.eqb_spec (String c (p ++ " percentage" ++ Str.nl))
              " percentage") as [E|_].
  { apply (f_equal String.length) in E; simpl in E.
    rewrite length_append in E; simpl in E; lia. }
  destruct (String.eqb_spec (String c (p ++ " percentage" ++ Str.nl))
              (" percentage" ++ Str.nl)) as [E|_].
  { apply (f_equal String.length) in E; simpl in E.
    rewrite length_append in E; simpl in E; lia. }
  rewrite IH. reflexivity.
Qed.

(** Every other name is left as it is. *)
Lemma sub_percentage_other (s : string) :
  Str.endswith s " percentage" = false ->
  Str.endswith s (" percentage" ++ Str.nl) = false ->
  Re.sub Qcml.percentage_re " %" s = s.
Proof.
  induction s as [|c s IH]; intros E1 E2; [reflexivity|].
  rewrite sub_percentage_unfold.
  cbn [Str.endswith] in E1, E2.
  apply orb_false_iff in E1 as [E1 E1'].
  apply orb_false_iff in E2 as [E2 E2'].
  rewrite E1, E2. now rewrite IH.
Qed.

Lemma endswith_app (p s : string) : Str.endswith (p ++ s) s = true.
Proof.
  induction p as [|c p IH]; simpl.
  - destruct s; cbn [Str.endswith]; rewrite String.eqb_refl; reflexivity.
  - rewrite IH. apply orb_true_r.
Qed.

Lemma endswith_suffix (s t : string) :
  Str.endswith s t = true -> exists p, s = p ++ t.
Proof.
  induction s as [|c s IH]; cbn [Str.endswith]; intros H.
  - rewrite orb_false_r in H. apply String.eqb_eq in H.
    exists ""; now subst.
  - apply orb_true_iff in H as [H|H].
    + apply String.eqb_eq in H. exists ""; now subst.
    + destruct (IH H) as [p ->]. now exists (String c p).
Qed.

(** ** The loop of [parse_qcml] *)

Import Qcml.

Section ParseFacts.
Context {host : Host}.

Lemma set_qcml_same (st : state) : set_qcml (qcml st) st = st.
Proof. now destruct st. Qed.

Lemma parse_qp_classify (e : Element) (acc : metrics) (st : state) :
  parse_qp e acc st =
  match classify e with
  | Skip => (Ok acc, st)
  | Store k v entry =>
      (Ok (Dict.set k v acc), set_qcml (Dict.set k entry (qcml st)) st)
  | Fail x => (Raise x, st)
  end.
Proof.
  unfold parse_qp, classify, bind, lift, getitem, ret, modify.
  destruct (Dict.get "value" (attrib e)) as [v|]; [|reflexivity].
  destruct (Str.startswith v "n/a"); [reflexivity|].
  destruct (Dict.get "name" (attrib e)) as [n|]; [|reflexivity].
  destruct (Dict.get "description" (attrib e)) as [d|]; [|reflexivity].
  destruct (Dict.get "accession" (attrib e)) as [a|]; reflexivity.
Qed.

Lemma classify_Skip (e : Element) : classify e = Skip <-> is_na e = true.
Proof.
  unfold classify, is_na.
  destruct (Dict.get "value" (attrib e)) as [v|]; [|split; discriminate].
  destruct (Str.startswith v "n/a"); [tauto|].
  destruct (Dict.get "name" (attrib e)) as [n|]; [|split; discriminate].
  destruct (Dict.get "description" (attrib e)); [|split; discriminate].
  destruct (Dict.get "accession" (attrib e)); split; discriminate.
Qed.

Lemma classify_Store (e : Element) k v entry :
  classify e = Store k v entry ->
  is_na e = false /\ qp_key e = Some k /\
  exists s, Dict.get "value" (attrib e) = Some s /\ v = convert s /\
            Str.startswith s "n/a" = false.
Proof.
  unfold classify, is_na, qp_key.
  destruct (Dict.get "value" (attrib e)) as [s|]; [|discriminate].
  destruct (Str.startswith s "n/a") eqn:N; [discriminate|].
  destruct (Dict.get "name" (attrib e)) as [n|]; [|discriminate].
  destruct (Dict.get "description" (attrib e)); [|discriminate].
  destruct (Dict.get "accession" (attrib e)); [|discriminate].
  intros H; inversion H; subst. repeat split; eauto.
Qed.

(** The elements passed over leave no trace in a run of the loop. *)
Lemma for_each_kept (qps : list Element) (acc : metrics) (st : state) :
  for_each qps parse_qp acc st = for_each (kept qps) parse_qp acc st.
Proof.
  revert acc st; induction qps as [|e qps IH]; intros acc st;
    [reflexivity|].
  unfold kept in *; cbn [filter for_each].
  destruct (is_na e) eqn:N; cbn [negb for_each].
  - unfold bind at 1. rewrite parse_qp_classify.
    apply classify_Skip in N. rewrite N. apply IH.
  - unfold bind. destruct (parse_qp e acc st) as [[a|x] st1];
      [apply IH|reflexivity].
Qed.

(** A run of the loop that returns made the assignments of [entries],
    and no element failed. *)
Lemma for_each_Ok (qps : list Element) (acc d : metrics) (st st' : state) :
  for_each qps parse_qp acc st = (Ok d, st') ->
  d = fold_left (fun a e => Dict.set (fst e) (snd e) a) (entries qps) acc
  /\ Forall (fun e => forall x, classify e <> Fail x) qps.
Proof.
  revert acc st; induction qps as [|e qps IH]; intros acc st H.
  - inversion H; subst. split; [reflexivity|constructor].
  - cbn [for_each] in H. unfold bind in H.
    rewrite parse_qp_classify in H.
    unfold entries; cbn [flat_map]; fold (entries qps).
    destruct (classify e) as [|k v entry|x] eqn:C; [| |discriminate].
    + destruct (IH _ _ H) as [-> F]. split; [reflexivity|].
      constructor; [congruence|exact F].
    + destruct (IH _ _ H) as [-> F]. split; [reflexivity|].
      constructor; [congruence|exact F].
Qed.

(** A run of the loop over an element that fails raises a [KeyError]
    for one of the four attributes. *)
Lemma for_each_Fail (qps : list Element) (acc : metrics) (st : state)
    (e : Element) (x : exn) :
  In e qps -> classify e = Fail x ->
  exists a st',
    for_each qps parse_qp acc st = (Raise (KeyError a), st') /\
    In a ["value"; "name"; "description"; "accession"].
Proof.
  revert acc st; induction qps as [|e0 qps IH]; intros acc st I C;
    [destruct I|].
  cbn [for_each]; unfold bind. rewrite parse_qp_classify.
  destruct (classify e0) as [|k v entry|x0] eqn:C0.
  - destruct I as [->|I]; [congruence|now apply IH].
  - destruct I as [->|I]; [congruence|now apply IH].
  - clear - C0. unfold classify in C0.
    destruct (Dict.get "value" (attrib e0)) as [s|].
    2:{ inversion C0; subst. exists "value", st. simpl; auto. }
    destruct (Str.startswith s "n/a"); [discriminate|].
    destruct (Dict.get "name" (attrib e0)).
    2:{ inversion C0; subst. exists "name", st. simpl; auto. }
    destruct (Dict.get "description" (attrib e0)).
    2:{ inversion C0; subst. exists "description", st. simpl; auto. }
    destruct (Dict.get "accession" (attrib e0)); [discriminate|].
    inversion C0; subst. exists "accession", st. simpl; auto 6.
Qed.

(** In a run that returns, the assignments are those of the elements
    not passed over. *)
Lemma entries_kept (qps : list Element) :
  Forall (fun e => forall x, classify e <> Fail x) qps ->
  map fst (entries qps) = kept_keys qps /\
  entries qps =
    flat_map
      (fun e =>
         match qp_key e, Dict.get "value" (attrib e) with
         | Some k, Some s => [(k, convert s)]
         | _, _ => []
         end) (kept qps).
Proof.
  unfold entries, kept_keys, kept.
  induction 1 as [|e qps N F [IH1 IH2]]; [split; reflexivity|].
  cbn [flat_map filter].
  destruct (classify e) as [|k v entry|x] eqn:C.
  - apply classify_Skip in C. rewrite C. cbn [negb app]. now split.
  - destruct (classify_Store _ C) as (Na & K & s & V & -> & _).
    rewrite Na. cbn [negb flat_map]. rewrite K, V.
    cbn [app map fst]. now rewrite IH1, IH2.
  - now destruct (N x).
Qed.

End ParseFacts.

(** ** Properties of [parse_qcml] *)

Lemma get_In (V : Type) (k : string) (v : V) (d : Dict.t V) :
  Dict.get k d = Some v -> In (k, v) d.
Proof.
  induction d as [|[k0 v0] d IH]; simpl; [discriminate|].
  destruct (String.eqb_spec k0 k) as [->|N]; intros H.
  - inversion H; subst. now left.
  - right. now apply IH.
Qed.

Lemma get_not_In (V : Type) (k : string) (d : Dict.t V) :
  (forall v, ~ In (k, v) d) -> Dict.get k d = None.
Proof.
  intros H. destruct (Dict.get k d) as [v|] eqn:G; [|reflexivity].
  destruct (H v (get_In _ _ G)).
Qed.

Lemma In_first_occurrences (k : string) (l : list string) :
  In k (first_occurrences l) <-> In k l.
Proof.
  induction l as [|k0 l IH]; simpl; [tauto|].
  rewrite filter_In, IH.
  destruct (String.eqb_spec k k0) as [->|N]; simpl; [tauto|].
  split; [intros [E|[I _]]; auto|intros [E|I]; [congruence|auto]].
Qed.

Lemma first_occurrences_NoDup (l : list string) :
  NoDup l -> first_occurrences l = l.
Proof.
  induction 1 as [|k l N D IH]; simpl; [reflexivity|].
  rewrite IH. f_equal.
  clear - N. induction l as [|a l IH]; simpl; [reflexivity|].
  destruct (String.eqb_spec a k) as [->|_]; simpl.
  - exfalso; apply N; now left.
  - f_equal. apply IH. intros I; apply N; now right.
Qed.

Lemma rev_flat_map (A B : Type) (g : A -> list B) (l : list A) :
  (forall a, rev (g a) = g a) ->
  rev (flat_map g l) = flat_map g (rev l).
Proof.
  intros G; induction l as [|a l IH]; simpl; [reflexivity|].
  rewrite rev_app_distr, flat_map_app, IH, G; simpl.
  now rewrite app_nil_r.
Qed.

Section ParseQcml.
Context {host : Host}.

Lemma In_entries k v (qps : list Element) :
  In (k, v) (entries qps) ->
  exists e entry, In e qps /\ classify e = Store k v entry.
Proof.
  unfold entries. rewrite in_flat_map. intros (e & I & H).
  destruct (classify e) as [|k0 v0 entry|x] eqn:C;
    [destruct H| |destruct H].
  destruct H as [H|[]]. inversion H; subst. eauto.
Qed.

Lemma parse_qcml_Ok contents root st d st' :
  fromstring contents = Some root ->
  parse_qcml contents st = (Ok d, st') ->
  d = fold_left (fun a e => Dict.set (fst e) (snd e) a)
        (entries (visited root)) (Dict.empty _)
  /\ Forall (fun e => forall x, classify e <> Fail x) (visited root).
Proof.
  unfold parse_qcml; intros -> H. exact (for_each_Ok _ _ _ H).
Qed.

(** C1: a [qualityParameter] whose value begins with "n/a" contributes
    nothing to what [parse_qcml] returns: the call is the run of the loop
    over the other elements alone; no stored text begins with "n/a"; and
    a key whose elements all have such a value is missing. *)
Theorem parse_qcml_skips_na contents root st :
  fromstring contents = Some root ->
  parse_qcml contents st
    = for_each (kept (visited root)) parse_qp (Dict.empty _) st
  /\ forall d st',
       parse_qcml contents st = (Ok d, st') ->
       (forall k v,
          Dict.get k d = Some (VStr v) -> Str.startswith v "n/a" = false)
       /\ (forall k,
             (forall e, In e (visited root) ->
                        qp_key e = Some k -> is_na e = true) ->
             Dict.get k d = None).
Proof.
  intros R. split.
  - unfold parse_qcml; rewrite R. apply for_each_kept.
  - intros d st' H.
    destruct (parse_qcml_Ok _ _ R H) as [-> _]. split.
    + intros k v G. rewrite get_fold_set in G.
      destruct (Dict.get k (rev (entries (visited root)))) as [w|] eqn:E;
        [|discriminate].
      inversion G; subst w.
      apply get_In, in_rev, In_entries in E.
      destruct E as (e & entry & _ & C).
      destruct (classify_Store _ C) as (_ & _ & s & _ & V & N).
      unfold convert in V. destruct (float s); [discriminate|].
      now inversion V; subst.
    + intros k A. rewrite get_fold_set.
      rewrite get_not_In; [reflexivity|].
      intros v I. apply in_rev, In_entries in I.
      destruct I as (e & entry & I & C).
      destruct (classify_Store _ C) as (N & K & _).
      rewrite (A e I K) in N. discriminate.
Qed.

Lemma kept_stored (qps : list Element) :
  Forall (fun e => forall x, classify e <> Fail x) qps ->
  Forall (fun e => exists k s,
            qp_key e = Some k /\ Dict.get "value" (attrib e) = Some s)
    (rev (kept qps)).
Proof.
  intros F. apply Forall_forall. intros e I.
  apply in_rev in I. unfold kept in I. apply filter_In in I as [I N].
  rewrite Forall_forall in F. specialize (F e I).
  destruct (classify e) as [|k v entry|x] eqn:C.
  - apply classify_Skip in C. rewrite C in N. discriminate.
  - destruct (classify_Store _ C) as (_ & K & s & V & _). eauto.
  - now destruct (F x).
Qed.

Lemma get_stored (k : string) (l : list Element) :
  Forall (fun e => exists k s,
            qp_key e = Some k /\ Dict.get "value" (attrib e) = Some s) l ->
  Dict.get k
    (flat_map
       (fun e =>
          match qp_key e, Dict.get "value" (attrib e) with
          | Some k, Some s => [(k, convert s)]
          | _, _ => []
          end) l) =
  match find (has_key k) l with
  | None => None
  | Some e =>
      match Dict.get "value" (attrib e) with
      | None => None
      | Some v =>
          match float v with
          | Some x => Some (VFloat x)
          | None => Some (VStr v)
          end
      end
  end.
Proof.
  induction 1 as [|e l (k0 & s & K & V) F IH]; [reflexivity|].
  cbn [flat_map find]. unfold has_key at 1. rewrite K, V.
  cbn [app Dict.get].
  destruct (k0 =? k); [|exact IH].
  rewrite V. unfold convert. now destruct (float s).
Qed.

(** C2 (as amended): the keys of the returned mapping are the rewritten
    names of the elements that are not skipped; the rewriting puts " %"
    for a " percentage" that ends the name or that stands just before a
    line feed ending the name, and leaves every other name as it is. *)
Theorem parse_qcml_key_is_rewritten_name contents root st d st' :
  fromstring contents = Some root ->
  parse_qcml contents st = (Ok d, st') ->
  (forall k,
     In k (Dict.keys d) <->
     exists e n,
       In e (visited root) /\ is_na e = false /\
       Dict.get "name" (attrib e) = Some n /\
       k = Re.sub percentage_re " %" n)
  /\ (forall p,
        Re.sub percentage_re " %" (p ++ " percentage") = p ++ " %")
  /\ (forall p,
        Re.sub percentage_re " %" (p ++ " percentage" ++ Str.nl)
        = p ++ " %" ++ Str.nl)
  /\ (forall n,
        Str.endswith n " percentage" = false ->
        Str.endswith n (" percentage" ++ Str.nl) = false ->
        Re.sub percentage_re " %" n = n).
Proof.
  intros R H.
  destruct (parse_qcml_Ok _ _ R H) as [-> F].
  split; [|split; [|split]].
  - intros k. rewrite keys_fold_set. cbn [Dict.keys Dict.empty map app].
    rewrite filter_In, In_first_occurrences.
    rewrite (proj1 (entries_kept F)).
    unfold kept_keys, kept. rewrite in_flat_map. split.
    + intros [(e & I & K) _]. apply filter_In in I as [I N].
      unfold qp_key in K.
      destruct (Dict.get "name" (attrib e)) as [n|] eqn:G;
        [|destruct K].
      destruct K as [<-|[]]. exists e, n.
      repeat split; auto. now destruct (is_na e).
    + intros (e & n & I & N & G & ->). split; [|reflexivity].
      exists e. split; [apply filter_In; split; [exact I|now rewrite N]|].
      unfold qp_key. rewrite G. now left.
  - exact sub_percentage_suffix.
  - exact sub_percentage_suffix_nl.
  - exact sub_percentage_other.
Qed.

(** C3: the value stored under a key is that of the last element that
    is not skipped and has this key: its number where [float] reads the
    attribute, the attribute text where it does not; a key without such
    an element is missing.  The three results differ. *)
Theorem parse_qcml_value_conversion contents root st d st' :
  fromstring contents = Some root ->
  parse_qcml contents st = (Ok d, st') ->
  (forall k,
     Dict.get k d =
     match find (has_key k) (rev (kept (visited root))) with
     | None => None
     | Some e =>
         match Dict.get "value" (attrib e) with
         | None => None
         | Some v =>
             match float v with
             | Some x => Some (VFloat x)
             | None => Some (VStr v)
             end
         end
     end)
  /\ (forall (x : pyfloat) (s : string),
        Some (VFloat x) <> Some (VStr s)
        /\ Some (VFloat x) <> None
        /\ Some (@VStr pyfloat s) <> None).
Proof.
  intros R H.
  destruct (parse_qcml_Ok _ _ R H) as [-> F]. split.
  - intros k. rewrite get_fold_set.
    rewrite (proj2 (entries_kept F)).
    rewrite rev_flat_map.
    2:{ intros e. destruct (qp_key e); [|reflexivity].
        now destruct (Dict.get "value" (attrib e)). }
    rewrite (get_stored k (kept_stored F)).
    destruct (find (has_key k) (rev (kept (visited root)))) as [e|];
      [|reflexivity].
    destruct (Dict.get "value" (attrib e)) as [v|]; [|reflexivity].
    now destruct (float v).
  - intros x s. repeat split; discriminate.
Qed.

(** C9: the keys of the returned mapping stand in the document order of
    the elements that are not skipped, every key where it occurs first;
    where no key occurs twice, they are the keys of these elements as
    they follow one another in the document. *)
Theorem parse_qcml_keys_in_document_order contents root st d st' :
  fromstring contents = Some root ->
  parse_qcml contents st = (Ok d, st') ->
  Dict.keys d = first_occurrences (kept_keys (visited root))
  /\ (NoDup (kept_keys (visited root)) ->
      Dict.keys d = kept_keys (visited root)).
Proof.
  intros R H.
  destruct (parse_qcml_Ok _ _ R H) as [-> F].
  assert (K : Dict.keys
                (fold_left (fun a e => Dict.set (fst e) (snd e) a)
                   (entries (visited root)) (Dict.empty _))
              = first_occurrences (kept_keys (visited root))).
  { rewrite keys_fold_set. cbn [Dict.keys Dict.empty map app].
    rewrite (proj1 (entries_kept F)).
    rewrite <- (filter_ext (fun _ => true)) by reflexivity.
    clear. induction (first_occurrences _) as [|a l IH]; simpl;
      congruence. }
  split; [exact K|].
  intros N. rewrite K. now apply first_occurrences_NoDup.
Qed.

(** C6 (as amended): [parse_qcml] raises the parse error on malformed
    text, and raises a [KeyError] when an element has no value, or is
    not skipped and has no name, no description or no accession. *)
Theorem parse_qcml_raises contents st :
  (fromstring contents = None ->
   parse_qcml contents st = (Raise ParseError, st))
  /\ (forall root e a,
        fromstring contents = Some root ->
        In e (visited root) ->
        Dict.get a (attrib e) = None ->
        a = "value" \/
        (is_na e = false /\ In a ["name"; "description"; "accession"]) ->
        exists a' st',
          parse_qcml contents st = (Raise (KeyError a'), st') /\
          In a' ["value"; "name"; "description"; "accession"]).
Proof.
  split.
  - intros R. unfold parse_qcml. now rewrite R.
  - intros root e a R I G A. unfold parse_qcml. rewrite R.
    assert (C : exists x, classify e = Fail x).
    { unfold classify. destruct A as [->|[N A]].
      - rewrite G. eauto.
      - unfold is_na in N.
        destruct (Dict.get "value" (attrib e)) as [v|]; [|eauto].
        rewrite N.
        destruct (Dict.get "name" (attrib e)) eqn:Gn; [|eauto].
        destruct (Dict.get "description" (attrib e)) eqn:Gd; [|eauto].
        destruct (Dict.get "accession" (attrib e)) eqn:Ga; [|eauto].
        simpl in A. destruct A as [<-|[<-|[<-|[]]]]; congruence. }
    destruct C as [x C].
    now apply for_each_Fail with (e := e) (x := x).
Qed.

End ParseQcml.

(** ** The properties of [parse_qcml] on the example documents *)

(** The example of the specification: the n/a element of the document
    leaves no entry. *)
Lemma parse_qcml_skips_na_witness :
  @fromstring py example_text = Some example_doc
  /\ forall d st',
       @parse_qcml py example_text fresh = (Ok d, st') ->
       Dict.get "target region read depth" d = None.
Proof.
  split; [reflexivity|].
  intros d st' H.
  destruct (@parse_qcml_skips_na py example_text example_doc fresh
              eq_refl) as [_ P].
  destruct (P d st' H) as [_ Q].
  apply Q. intros e I K.
  vm_compute in I.
  repeat (destruct I as [<-|I];
          [try reflexivity; vm_compute in K; discriminate K|]).
  destruct I.
Defined.

(** The example of the specification: "mapped read percentage" is stored
    under "mapped read %". *)
Lemma parse_qcml_key_is_rewritten_name_witness :
  exists d st',
    @fromstring py example_text = Some example_doc
    /\ @parse_qcml py example_text fresh = (Ok d, st')
    /\ In "mapped read %" (Dict.keys d)
    /\ Re.sub percentage_re " %" "mapped read percentage" = "mapped read %".
Proof.
  eexists; eexists. split; [reflexivity|].
  split; [vm_compute; reflexivity|].
  match goal with
  | |- In _ (Dict.keys ?d) /\ _ =>
      destruct (@parse_qcml_key_is_rewritten_name py example_text
                  example_doc fresh d _ eq_refl
                  ltac:(vm_compute; reflexivity))
        as (K & S & _)
  end.
  split; [|exact (S "mapped read")].
  apply K. exists (qp "mapped read percentage" "97.3"),
    "mapped read percentage".
  repeat split. vm_compute. now left.
Defined.

(** C2 as stated fails: the name of the element ends in a line feed, not
    in " percentage", and the key is not the name. *)
Lemma line_feed_name_is_rewritten :
  map (fun e => Dict.get "name" (attrib e)) (visited newline_doc)
    = [Some ("gc content percentage" ++ Str.nl)]
  /\ Str.endswith ("gc content percentage" ++ Str.nl) " percentage" = false
  /\ fst (@parse_qcml py newline_text fresh)
     = Ok [("gc content %" ++ Str.nl,
            VFloat (S754_finite false 5798384520239514 (-47)))]
  /\ "gc content %" ++ Str.nl <> "gc content percentage" ++ Str.nl.
Proof.
  repeat split; try (vm_compute; reflexivity). discriminate.
Qed.

(** The example of the specification: a number, a text and a missing
    key. *)
Lemma parse_qcml_value_conversion_witness :
  exists d st',
    @fromstring py example_text = Some example_doc
    /\ @parse_qcml py example_text fresh = (Ok d, st')
    /\ Dict.get "insert size" d
       = Some (VFloat (S754_finite false 7388718138654720 (-45)))
    /\ Dict.get "sample note" d = Some (VStr "NA_TEXT")
    /\ Dict.get "target region read depth" d = None.
Proof.
  eexists; eexists. split; [reflexivity|].
  split; [vm_compute; reflexivity|].
  match goal with
  | |- Dict.get _ ?d = _ /\ _ =>
      destruct (@parse_qcml_value_conversion py example_text
                  example_doc fresh d _ eq_refl
                  ltac:(vm_compute; reflexivity))
        as (G & _)
  end.
  rewrite !G. repeat split; vm_compute; reflexivity.
Defined.

(** The keys of the example document, in its order. *)
Lemma parse_qcml_keys_in_document_order_witness :
  exists d st',
    @fromstring py example_text = Some example_doc
    /\ @parse_qcml py example_text fresh = (Ok d, st')
    /\ Dict.keys d = ["mapped read %"; "insert size"; "sample note"].
Proof.
  eexists; eexists. split; [reflexivity|].
  split; [vm_compute; reflexivity|].
  match goal with
  | |- Dict.keys ?d = _ =>
      destruct (@parse_qcml_keys_in_document_order py example_text
                  example_doc fresh d _ eq_refl
                  ltac:(vm_compute; reflexivity))
        as (K & _)
  end.
  rewrite K. vm_compute. reflexivity.
Defined.

(** Malformed text, and an element without value. *)
Lemma parse_qcml_raises_witness :
  (@fromstring py "<qcML" = None
   /\ @parse_qcml py "<qcML" fresh = (Raise ParseError, fresh))
  /\ (@fromstring py no_value_text = Some no_value_doc
      /\ exists a st',
           @parse_qcml py no_value_text fresh = (Raise (KeyError a), st')
           /\ In a ["value"; "name"; "description"; "accession"]).
Proof.
  split.
  - split; [reflexivity|].
    now apply (proj1 (@parse_qcml_raises py "<qcML" fresh)).
  - split; [reflexivity|].
    apply (proj2 (@parse_qcml_raises py no_value_text fresh)) with
      (root := no_value_doc)
      (e := Elem (ns "qualityParameter")
              [("ID", "qp"); ("name", "read count");
               ("description", "about read count");
               ("accession", "QC:0000000")] [])
      (a := "value").
    + reflexivity.
    + vm_compute. now left.
    + reflexivity.
    + now left.
Defined.

(** C6 as stated fails: the element has no name, no description and no
    accession, and [parse_qcml] returns the empty mapping. *)
Lemma bare_na_element_does_not_raise :
  map (fun e => (Dict.get "name" (attrib e),
                 Dict.get "description" (attrib e),
                 Dict.get "accession" (attrib e)))
      (visited bare_na_doc) = [(None, None, None)]
  /\ @fromstring py bare_na_text = Some bare_na_doc
  /\ @parse_qcml py bare_na_text fresh = (Ok [], fresh).
Proof.
  repeat split.
Qed.

(** ** The module drivers *)

Section Drivers.
Context {host : Host}.

Lemma same_output_refl (st : state) : same_output st st.
Proof. now repeat split. Qed.

Lemma same_output_trans (a b c : state) :
  same_output a b -> same_output b c -> same_output a c.
Proof.
  unfold same_output; intros (A1 & A2 & A3) (B1 & B2 & B3).
  repeat split; congruence.
Qed.

Lemma parse_loop_output (qps : list Element) acc st r st' :
  for_each qps parse_qp acc st = (r, st') -> same_output st st'.
Proof.
  revert acc st; induction qps as [|e qps IH]; intros acc st H.
  - inversion H; subst. apply same_output_refl.
  - cbn [for_each] in H. unfold bind in H.
    rewrite parse_qp_classify in H.
    destruct (classify e) as [|k v entry|x].
    + now apply IH with (acc := acc).
    + apply IH in H. eapply same_output_trans; [|exact H].
      now repeat split.
    + inversion H; subst. apply same_output_refl.
Qed.

Lemma parse_qcml_output contents st r st' :
  parse_qcml contents st = (r, st') -> same_output st st'.
Proof.
  unfold parse_qcml. destruct (fromstring contents) as [root|].
  - apply parse_loop_output.
  - intros H; inversion H; subst. apply same_output_refl.
Qed.

(** Parsing the log files hands nothing to the report. *)
Lemma parse_files_output (files : list LogFile) st r st' :
  parse_files files st = (r, st') -> same_output st st'.
Proof.
  unfold parse_files.
  generalize tt at 1. revert st.
  induction files as [|lf files IH]; intros st u H.
  - inversion H; subst. apply same_output_refl.
  - cbn [for_each] in H. unfold bind at 1 2 3 in H.
    unfold add_data_source, modify at 1 in H.
    destruct (parse_qcml (f lf) _) as [[d|x] st1] eqn:P.
    + apply parse_qcml_output in P. unfold modify in H.
      apply IH in H.
      eapply same_output_trans; [|exact H].
      eapply same_output_trans; [|eapply same_output_trans; [exact P|]];
        now repeat split.
    + apply parse_qcml_output in P. inversion H; subst.
      eapply same_output_trans; [|exact P]. now repeat split.
Qed.

Lemma no_output_fresh : no_output fresh.
Proof. now repeat split. Qed.

Lemma same_no_output (st st' : state) :
  same_output st st' -> no_output st -> no_output st'.
Proof.
  unfold same_output, no_output; intros (A1 & A2 & A3) (B1 & B2 & B3).
  repeat split; congruence.
Qed.

(** With no sample left, the filtering step raises [UserWarning]. *)
Lemma filter_samples_empty (st : state) :
  ignore_samples (qcdata st) = [] ->
  filter_samples st = (Raise UserWarning, set_qcdata [] st).
Proof.
  intros E. unfold filter_samples, bind, modify, gets.
  cbn [qcdata set_qcdata]. now rewrite E.
Qed.

Lemma filter_samples_nonempty (st : state) :
  ignore_samples (qcdata st) <> [] ->
  filter_samples st
    = (Ok tt, set_qcdata (ignore_samples (qcdata st)) st).
Proof.
  intros E. unfold filter_samples, bind, modify, gets.
  cbn [qcdata set_qcdata].
  now destruct (ignore_samples (qcdata st)).
Qed.

(** A loop over the samples raises when one of them is empty and the
    body raises on the empty mapping. *)
Lemma each_sample_empty (body : metrics -> result metrics)
    (P : exn -> Prop) (d : Dict.t metrics) (s : string) :
  (forall kv e, body kv = Raise e -> P e) ->
  (exists e, body (Dict.empty _) = Raise e) ->
  In (s, Dict.empty _) d ->
  exists e d', each_sample body d = (Some e, d') /\ P e.
Proof.
  intros B [e0 B0] I. induction d as [|[s1 kv] d IH]; [destruct I|].
  cbn [each_sample].
  destruct (body kv) as [kv'|e] eqn:Bk.
  - destruct I as [I|I]; [inversion I; subst; congruence|].
    destruct (IH I) as (e & d' & -> & Pe). eauto.
  - eauto.
Qed.

Lemma bases_sequenced_raises kv e :
  ReadQC.bases_sequenced kv = Raise e ->
  e = KeyError "bases sequenced (MB)" \/ e = TypeError.
Proof.
  unfold ReadQC.bases_sequenced, getitem, times_1e6.
  destruct (Dict.get _ kv) as [[x|t]|]; intros H; inversion H; auto.
Qed.

Lemma bases_usable_raises kv e :
  MappingQC.bases_usable kv = Raise e ->
  e = KeyError "bases usable (MB)" \/ e = TypeError.
Proof.
  unfold MappingQC.bases_usable, getitem, times_1e6.
  destruct (Dict.get _ kv) as [[x|t]|]; intros H; inversion H; auto.
Qed.

Lemma add_bases_sequenced_empty (st : state) (s : string) :
  In (s, Dict.empty _) (qcdata st) ->
  exists e st',
    ReadQC.add_bases_sequenced st = (Raise e, st')
    /\ (e = KeyError "bases sequenced (MB)" \/ e = TypeError)
    /\ same_output st st'.
Proof.
  intros I. unfold ReadQC.add_bases_sequenced.
  unfold bind, gets, lift, getitem, modify, for_samples.
  destruct (Dict.get "bases sequenced (MB)" (qcml st)) as [q|].
  - cbn [qcdata set_qcml].
    destruct (each_sample_empty ReadQC.bases_sequenced
                (fun e => e = KeyError "bases sequenced (MB)"
                          \/ e = TypeError) (qcdata st) s
                bases_sequenced_raises) as (e & d' & E & Pe);
      [now eexists|exact I|].
    rewrite E. exists e; eexists. split; [reflexivity|].
    split; [exact Pe|now repeat split].
  - exists (KeyError "bases sequenced (MB)"), st.
    split; [reflexivity|]. split; [now left|apply same_output_refl].
Qed.

Lemma add_bases_usable_empty (st : state) (s : string) :
  In (s, Dict.empty _) (qcdata st) ->
  exists e st',
    MappingQC.add_bases_usable st = (Raise e, st')
    /\ (e = KeyError "bases usable (MB)" \/ e = TypeError)
    /\ same_output st st'.
Proof.
  intros I. unfold MappingQC.add_bases_usable.
  unfold bind, gets, lift, getitem, modify, for_samples.
  destruct (Dict.get "bases usable (MB)" (qcml st)) as [q|].
  - cbn [qcdata set_qcml].
    destruct (each_sample_empty MappingQC.bases_usable
                (fun e => e = KeyError "bases usable (MB)"
                          \/ e = TypeError) (qcdata st) s
                bases_usable_raises) as (e & d' & E & Pe);
      [now eexists|exact I|].
    rewrite E. exists e; eexists. split; [reflexivity|].
    split; [exact Pe|now repeat split].
  - exists (KeyError "bases usable (MB)"), st.
    split; [reflexivity|]. split; [now left|apply same_output_refl].
Qed.

Lemma bases_sequenced_converted kv x :
  Dict.get "bases sequenced (MB)" kv = Some (VFloat x) ->
  exists kv',
    ReadQC.bases_sequenced kv = Ok kv'
    /\ converted "bases sequenced (MB)" "bases sequenced" kv kv'.
Proof.
  intros G. unfold ReadQC.bases_sequenced, getitem. rewrite G.
  cbn [times_1e6]. eexists; split; [reflexivity|].
  exists x. split; [exact G|]. split; [|split].
  - rewrite get_remove_neq by discriminate. apply get_set_eq.
  - apply get_remove_eq.
  - intros k N1 N2. rewrite get_remove_neq by congruence.
    apply get_set_neq; congruence.
Qed.

Lemma bases_usable_converted kv x :
  Dict.get "bases usable (MB)" kv = Some (VFloat x) ->
  exists kv',
    MappingQC.bases_usable kv = Ok kv'
    /\ converted "bases usable (MB)" "bases usable" kv kv'.
Proof.
  intros G. unfold MappingQC.bases_usable, getitem. rewrite G.
  cbn [times_1e6]. eexists; split; [reflexivity|].
  exists x. split; [exact G|]. split; [|split].
  - rewrite get_remove_neq by discriminate. apply get_set_eq.
  - apply get_remove_eq.
  - intros k N1 N2. rewrite get_remove_neq by congruence.
    apply get_set_neq; congruence.
Qed.

(** A loop over the samples whose body succeeds on every sample changes
    every sample as the body does, and keeps the samples in place. *)
Lemma each_sample_all (body : metrics -> result metrics)
    (Q : metrics -> Prop) (R : metrics -> metrics -> Prop)
    (d : Dict.t metrics) :
  (forall kv, Q kv -> exists kv', body kv = Ok kv' /\ R kv kv') ->
  (forall s kv, In (s, kv) d -> Q kv) ->
  exists d',
    each_sample body d = (None, d')
    /\ Forall2 (fun a b => fst a = fst b /\ R (snd a) (snd b)) d d'.
Proof.
  intros B. induction d as [|[s kv] d IH]; intros A.
  - exists []. split; [reflexivity|constructor].
  - destruct (B kv (A s kv (or_introl eq_refl))) as (kv' & E & Rk).
    destruct IH as (d' & E' & F).
    { intros s0 kv0 I. apply (A s0 kv0). now right. }
    exists ((s, kv') :: d'). cbn [each_sample]. rewrite E, E'.
    split; [reflexivity|]. constructor; [now split|exact F].
Qed.

(** C8: ReadQC puts, for every sample, the megabase count times [1e6]
    under 'bases sequenced' and removes 'bases sequenced (MB)' from the
    mapping of the sample and from the description table; MappingQC
    does so with 'bases usable (MB)' and 'bases usable'.  The step
    succeeds where the description table has the megabase key and
    every sample has a number under it. *)
Theorem megabases_replaced_by_bases (st : state) :
  (Dict.mem "bases sequenced (MB)" (qcml st) = true ->
   (forall s kv, In (s, kv) (qcdata st) ->
      exists x, Dict.get "bases sequenced (MB)" kv = Some (VFloat x)) ->
   exists st',
     ReadQC.add_bases_sequenced st = (Ok tt, st')
     /\ Dict.get "bases sequenced (MB)" (qcml st') = None
     /\ Forall2
          (fun a b =>
             fst a = fst b
             /\ converted "bases sequenced (MB)" "bases sequenced"
                  (snd a) (snd b))
          (qcdata st) (qcdata st'))
  /\ (Dict.mem "bases usable (MB)" (qcml st) = true ->
      (forall s kv, In (s, kv) (qcdata st) ->
         exists x, Dict.get "bases usable (MB)" kv = Some (VFloat x)) ->
      exists st',
        MappingQC.add_bases_usable st = (Ok tt, st')
        /\ Dict.get "bases usable (MB)" (qcml st') = None
        /\ Forall2
             (fun a b =>
                fst a = fst b
                /\ converted "bases usable (MB)" "bases usable"
                     (snd a) (snd b))
             (qcdata st) (qcdata st')).
Proof.
  split; intros M A.
  - unfold ReadQC.add_bases_sequenced.
    unfold bind, gets, lift, getitem, modify, for_samples.
    unfold Dict.mem in M.
    destruct (Dict.get "bases sequenced (MB)" (qcml st)) as [q|];
      [|discriminate].
    cbn [qcdata set_qcml].
    destruct (each_sample_all ReadQC.bases_sequenced
                (fun kv => exists x,
                   Dict.get "bases sequenced (MB)" kv = Some (VFloat x))
                (converted "bases sequenced (MB)" "bases sequenced")
                (qcdata st)) as (d' & E & F).
    { intros kv [x G]. exact (bases_sequenced_converted _ G). }
    { exact A. }
    rewrite E. eexists. split; [reflexivity|].
    unfold set_qcdata, set_qcml; cbn [qcml qcdata]. split; [|exact F].
    rewrite get_set_neq by discriminate. apply get_remove_eq.
  - unfold MappingQC.add_bases_usable.
    unfold bind, gets, lift, getitem, modify, for_samples.
    unfold Dict.mem in M.
    destruct (Dict.get "bases usable (MB)" (qcml st)) as [q|];
      [|discriminate].
    cbn [qcdata set_qcml].
    destruct (each_sample_all MappingQC.bases_usable
                (fun kv => exists x,
                   Dict.get "bases usable (MB)" kv = Some (VFloat x))
                (converted "bases usable (MB)" "bases usable")
                (qcdata st)) as (d' & E & F).
    { intros kv [x G]. exact (bases_usable_converted _ G). }
    { exact A. }
    rewrite E. eexists. split; [reflexivity|].
    unfold set_qcdata, set_qcml; cbn [qcml qcdata]. split; [|exact F].
    rewrite get_set_neq by discriminate. apply get_remove_eq.
Qed.

(** *** The variant rate of SomaticQC *)

Lemma plus_len_run (cls : ascii -> bool) (k : string -> option nat)
    (ds rest : string) (n : nat) :
  ds <> "" ->
  Str.all cls ds = true ->
  Re.plus_len cls k rest = None ->
  k rest = Some n ->
  Re.plus_len cls k (ds ++ rest) = Some (String.length ds + n).
Proof.
  intros N A P K. destruct ds as [|c ds]; [contradiction|]. clear N.
  revert c A. induction ds as [|c' ds IH]; intros c A.
  - cbn [Str.all] in A. apply andb_true_iff in A as [C _].
    cbn [append Re.plus_len]. rewrite C, P, K. reflexivity.
  - cbn [Str.all] in A. apply andb_true_iff in A as [C A].
    change (String c (String c' ds) ++ rest)
      with (String c (String c' ds ++ rest)).
    cbn [Re.plus_len]. rewrite C.
    change (Re.plus_len cls k (String c' (ds ++ rest)))
      with (Re.plus_len cls k (String c' ds ++ rest)).
    rewrite (IH c' A). reflexivity.
Qed.

Lemma sub_from_skip (p : Re.regex) (repl s : string) :
  Re.match_len p "" = None ->
  Re.sub_from p repl (String.length s) s = "".
Proof.
  intros E. induction s as [|c s IH]; [|exact IH].
  cbn [String.length Re.sub_from]. now rewrite E.
Qed.

(** A pattern that matches the whole of a string that is not empty, and
    does not match the empty string, is replaced once. *)
Lemma sub_whole (p : Re.regex) (repl s : string) :
  s <> "" ->
  Re.match_len p "" = None ->
  Re.match_len p s = Some (String.length s) ->
  Re.sub p repl s = repl.
Proof.
  intros N E M. destruct s as [|c s]; [contradiction|].
  unfold Re.sub. cbn [Re.sub_from]. rewrite M. cbn [String.length].
  rewrite (sub_from_skip _ _ s E).
  clear. induction repl as [|a r IH]; simpl; congruence.
Qed.

Lemma rate_re_matches (level digits : string) :
  In level ["low"; "moderate"; "high"] ->
  digits <> "" ->
  Str.all SomaticQC.digit_or_dot digits = true ->
  Re.match_len SomaticQC.rate_re (level ++ " (" ++ digits ++ " var/Mb)")
  = Some (String.length (level ++ " (" ++ digits ++ " var/Mb)")).
Proof.
  intros L N A.
  pose (k := Re.match_len
               [Re.Lit " ("; Re.Plus SomaticQC.digit_or_dot;
                Re.Lit " var/Mb)"]).
  assert (T : k (" (" ++ digits ++ " var/Mb)")
              = Some (2 + (String.length digits + 8))).
  { unfold k. cbn [Re.match_len]. unfold Re.lit_len at 1.
    rewrite removeprefix_app.
    rewrite (@plus_len_run _ _ digits " var/Mb)" 8 N A);
      reflexivity. }
  change (Re.match_len SomaticQC.rate_re)
    with (Re.alt_len ["low"; "moderate"; "high"] k).
  rewrite !length_append. clearbody k.
  destruct L as [<-|[<-|[<-|[]]]].
  - cbn [Re.alt_len]. unfold Re.lit_len at 1.
    rewrite removeprefix_app, T. reflexivity.
  - cbn [Re.alt_len]. unfold Re.lit_len at 1.
    change (Str.removeprefix "low" ("moderate" ++ _)) with (@None string).
    cbv iota. unfold Re.lit_len at 1.
    rewrite removeprefix_app, T. reflexivity.
  - cbn [Re.alt_len]. unfold Re.lit_len at 1.
    change (Str.removeprefix "low" ("high" ++ _)) with (@None string).
    cbv iota. unfold Re.lit_len at 1.
    change (Str.removeprefix "moderate" ("high" ++ _))
      with (@None string).
    cbv iota. unfold Re.lit_len at 1.
    rewrite removeprefix_app, T. reflexivity.
Qed.

(** The body of the loop on a 'somatic variant rate' of the form
    '(low|moderate|high) (N var/Mb)': the substitution yields the one
    character U+0002, and where [float] does not read it the key is
    removed. *)
Lemma annotated_rate_body (level digits : string) (kv : metrics) :
  In level ["low"; "moderate"; "high"] ->
  digits <> "" ->
  Str.all SomaticQC.digit_or_dot digits = true ->
  float SomaticQC.replacement = None ->
  Dict.get "somatic variant rate" kv
    = Some (VStr (level ++ " (" ++ digits ++ " var/Mb)")) ->
  Re.sub SomaticQC.rate_re SomaticQC.replacement
    (level ++ " (" ++ digits ++ " var/Mb)") = SomaticQC.replacement
  /\ SomaticQC.somatic_variant_rate kv
     = Ok (Dict.remove "somatic variant rate" kv)
  /\ Dict.get "somatic variant rate"
       (Dict.remove "somatic variant rate" kv) = None.
Proof.
  intros L N A F G.
  assert (S : Re.sub SomaticQC.rate_re SomaticQC.replacement
                (level ++ " (" ++ digits ++ " var/Mb)")
              = SomaticQC.replacement).
  { apply sub_whole; [|reflexivity|now apply rate_re_matches].
    destruct L as [<-|[<-|[<-|[]]]]; discriminate. }
  split; [exact S|]. split; [|apply get_remove_eq].
  unfold SomaticQC.somatic_variant_rate, getitem.
  rewrite G, S, F. reflexivity.
Qed.

End Drivers.

(** ** The module drivers on the example documents *)

(** The ReadQC report of the examples: 151.5 MB are 151500000 bases. *)
Lemma megabases_replaced_by_bases_witness :
  let st := snd (@parse_files py [log "A" readqc_text] fresh) in
  Dict.mem "bases sequenced (MB)" (qcml st) = true
  /\ (forall s kv, In (s, kv) (qcdata st) ->
        exists x, Dict.get "bases sequenced (MB)" kv = Some (VFloat x))
  /\ exists st',
       @ReadQC.add_bases_sequenced py st = (Ok tt, st')
       /\ Dict.get "bases sequenced (MB)" (qcml st') = None
       /\ Forall2
            (fun a b =>
               fst a = fst b
               /\ @converted py "bases sequenced (MB)" "bases sequenced"
                    (snd a) (snd b))
            (qcdata st) (qcdata st').
Proof.
  intros st.
  assert (M : Dict.mem "bases sequenced (MB)" (qcml st) = true)
    by (vm_compute; reflexivity).
  assert (A : forall s kv, In (s, kv) (qcdata st) ->
                exists x, Dict.get "bases sequenced (MB)" kv
                          = Some (VFloat x)).
  { intros s kv I. vm_compute in I. destruct I as [I|[]].
    inversion I; subst. eexists. vm_compute. reflexivity. }
  split; [exact M|]. split; [exact A|].
  exact (proj1 (@megabases_replaced_by_bases py st) M A).
Defined.

(** ** The optional parameters of MappingQC *)

(** [dict_ordered_subset] passes over a key that is missing. *)
Lemma dict_ordered_subset_missing (V : Type) (d : Dict.t V)
    (ks : list string) (k : string) :
  Dict.get k d = None -> Dict.get k (dict_ordered_subset d ks) = None.
Proof.
  intros G. unfold dict_ordered_subset.
  generalize (eq_refl : Dict.get k (Dict.empty V) = None).
  generalize (Dict.empty V).
  induction ks as [|k0 ks IH]; intros od E; cbn [fold_left]; [exact E|].
  apply IH. destruct (Dict.get k0 d) as [v|] eqn:G0; [|exact E].
  rewrite get_set_neq; [exact E|]. intros ->. congruence.
Qed.

(** Without the 10x coverage among the headers, the reporting part of
    [MappingQC.init] returns: the other optional keys are passed over. *)
Lemma report_without_coverage {host : Host} (headers : Dict.t header)
    (st : state) :
  Dict.mem "target region 10x %" headers = false ->
  exists st',
    bind (MappingQC.report_overview headers)
      (fun _ =>
         if Dict.mem "target region 10x %" headers
         then MappingQC.report_coverage headers
         else ret tt) st = (Ok tt, st').
Proof.
  intros M. rewrite M. eexists. reflexivity.
Qed.

(** A report that has none of the optional parameters gives the overview
    alone. *)
Lemma mappingqc_without_optional_parameters :
  fst (@MappingQC.run py [log "A" mappingqc_text]) = Ok tt
  /\ map (@sec_name Binary64.t)
       (sections (snd (@MappingQC.run py [log "A" mappingqc_text])))
     = ["Overview"].
Proof.
  split; vm_compute; reflexivity.
Qed.

(** C7, where the code departs from it: the report has the 10x coverage
    and no 'target region read depth'; the run adds the overview and the
    coverage table and then raises the [KeyError] of the missing key, in
    [make_description]. *)
Theorem coverage_without_read_depth_raises :
  kept_keys (visited coverage_doc)
    = ["trimmed base %"; "clipped base %"; "mapped read %";
       "on-target read %"; "bases usable (MB)"; "target region 10x %"]
  /\ fst (@MappingQC.run py [log "B" coverage_text])
     = Raise (KeyError "target region read depth")
  /\ map (@sec_name Binary64.t)
       (sections (snd (@MappingQC.run py [log "B" coverage_text])))
     = ["Overview"; "Coverage"].
Proof.
  repeat split; vm_compute; reflexivity.
Qed.

(* ------------------------------------------------------------------ *)
(** * Further properties of the modules *)

(** ** [dict_ordered_subset] *)

Lemma existsb_eqb_In (k : string) (l : list string) :
  existsb (String.eqb k) l = true <-> In k l.
Proof.
  rewrite existsb_exists. split.
  - intros (x & I & E). apply String.eqb_eq in E. now subst.
  - intros I. exists k. split; [exact I|apply String.eqb_refl].
Qed.

Lemma subset_as_assignments (V : Type) (d : Dict.t V) (ks : list string)
    (od : Dict.t V) :
  fold_left
    (fun od k =>
       match Dict.get k d with
       | Some v => Dict.set k v od
       | None => od
       end) ks od
  = fold_left (fun a e => Dict.set (fst e) (snd e) a)
      (flat_map
         (fun k => match Dict.get k d with
                   | Some v => [(k, v)]
                   | None => []
                   end) ks) od.
Proof.
  revert od; induction ks as [|k ks IH]; intros od; [reflexivity|].
  cbn [fold_left flat_map]. rewrite fold_left_app, IH.
  now destruct (Dict.get k d).
Qed.

Lemma get_of_copies (V : Type) (d l : Dict.t V) (k : string) :
  (forall k' v', In (k', v') l -> Dict.get k' d = Some v') ->
  Dict.get k l
  = if existsb (String.eqb k) (map fst l) then Dict.get k d else None.
Proof.
  intros H. induction l as [|[k0 v0] l IH]; [reflexivity|].
  cbn [Dict.get map fst existsb].
  rewrite (String.eqb_sym k k0).
  destruct (String.eqb_spec k0 k) as [->|N]; cbn [orb].
  - symmetry. apply H. now left.
  - apply IH. intros k' v' I. apply H. now right.
Qed.

Lemma dict_ordered_subset_facts (V : Type) (d : Dict.t V)
    (ks : list string) :
  (forall k,
     Dict.get k (dict_ordered_subset d ks)
     = if existsb (String.eqb k) ks then Dict.get k d else None)
  /\ Dict.keys (dict_ordered_subset d ks)
     = first_occurrences (filter (fun k => Dict.mem k d) ks).
Proof.
  unfold dict_ordered_subset. rewrite subset_as_assignments.
  set (es := flat_map _ ks).
  assert (C : forall k' v', In (k', v') es -> Dict.get k' d = Some v').
  { intros k' v' I. unfold es in I. apply in_flat_map in I as (k0 & _ & I).
    destruct (Dict.get k0 d) as [v0|] eqn:G; [|destruct I].
    destruct I as [I|[]]. now inversion I; subst. }
  assert (F : map fst es = filter (fun k => Dict.mem k d) ks).
  { unfold es, Dict.mem. clear. induction ks as [|k ks IH]; [reflexivity|].
    cbn [flat_map filter]. rewrite map_app, IH.
    now destruct (Dict.get k d). }
  split.
  - intros k. rewrite get_fold_set. cbn [Dict.get Dict.empty].
    rewrite (@get_of_copies V d (rev es) k).
    2:{ intros k' v' I. apply C. now apply in_rev. }
    destruct (Dict.get k d) as [v|] eqn:G.
    2:{ now destruct (existsb _ _), (existsb _ _). }
    assert (E : existsb (String.eqb k) (map fst (rev es))
                = existsb (String.eqb k) ks).
    { apply eq_true_iff_eq. rewrite !existsb_eqb_In.
      rewrite map_rev, <- in_rev, F, filter_In. unfold Dict.mem.
      rewrite G. tauto. }
    rewrite E. now destruct (existsb _ ks).
  - rewrite keys_fold_set. cbn [Dict.keys Dict.empty map app].
    rewrite F. rewrite <- (filter_ext (fun _ => true)) by reflexivity.
    induction (first_occurrences _) as [|a l IH]; simpl; congruence.
Qed.

(** X1: [dict_ordered_subset d ks] has, of the keys [ks], those that [d]
    has, with the values of [d], in the order of [ks] (a key listed
    twice stands where it is listed first); the other keys of [d] and the
    keys [d] does not have are left out. *)
Theorem dict_ordered_subset_spec (V : Type) (d : Dict.t V)
    (ks : list string) :
  (forall k,
     Dict.get k (dict_ordered_subset d ks)
     = if existsb (String.eqb k) ks then Dict.get k d else None)
  /\ Dict.keys (dict_ordered_subset d ks)
     = first_occurrences (filter (fun k => Dict.mem k d) ks).
Proof. exact (dict_ordered_subset_facts d ks). Qed.

(** ** [make_description] *)

Unset Implicit Arguments.

Section Descriptions.
Context {host : Host}.

Lemma describe_spec (key : string) (st : state) :
  describe key st =
  match Dict.get key (qcml st) with
  | None => (Raise (KeyError key), st)
  | Some e =>
      match Dict.get "description" e with
      | None => (Raise (KeyError "description"), st)
      | Some d =>
          match Dict.get "accession" e with
          | None => (Raise (KeyError "accession"), st)
          | Some _ => (Ok d, st)
          end
      end
  end.
Proof.
  unfold describe, bind, gets, lift, getitem, ret.
  destruct (Dict.get key (qcml st)) as [e|]; [|reflexivity].
  destruct (Dict.get "description" e); [|reflexivity].
  now destruct (Dict.get "accession" e).
Qed.

Lemma describe_complete (k d : string) (st : state) :
  (exists e, Dict.get k (qcml st) = Some e
             /\ Dict.get "description" e = Some d
             /\ exists a, Dict.get "accession" e = Some a) ->
  describe k st = (Ok d, st).
Proof.
  intros (e & G & D & a & A). now rewrite describe_spec, G, D, A.
Qed.

Lemma describe_incomplete (k : string) (st : state) :
  (Dict.get k (qcml st) = None
   \/ exists e, Dict.get k (qcml st) = Some e /\ ~ complete_entry e) ->
  exists a, describe k st = (Raise (KeyError a), st).
Proof.
  rewrite describe_spec. intros [G|(e & G & N)]; rewrite G; [eauto|].
  destruct (Dict.get "description" e) as [d|] eqn:D; [|eauto].
  destruct (Dict.get "accession" e) as [a|] eqn:A; [|eauto].
  destruct N. split; eauto.
Qed.

Lemma describe_cases (k : string) (st : state) :
  (exists d, describe k st = (Ok d, st))
  \/ (exists a, describe k st = (Raise (KeyError a), st)).
Proof.
  rewrite describe_spec.
  destruct (Dict.get k (qcml st)) as [e|]; [|eauto].
  destruct (Dict.get "description" e); [|eauto].
  destruct (Dict.get "accession" e); eauto.
Qed.

Lemma items_complete (ks ds : list string) (acc : list string)
    (st : state) :
  Forall2
    (fun k d =>
       exists e, Dict.get k (qcml st) = Some e
                 /\ Dict.get "description" e = Some d
                 /\ exists a, Dict.get "accession" e = Some a) ks ds ->
  for_each ks
    (fun key acc =>
       bind (describe key)
         (fun d => ret (acc ++ [("<li>" ++ d ++ "</li>")%string])%list))
    acc st
  = (Ok (acc ++ map item ds)%list, st).
Proof.
  intros F. revert acc. induction F as [|k d ks ds H F IH]; intros acc.
  - cbn [for_each map]. now rewrite app_nil_r.
  - cbn [for_each map]. unfold bind at 1. unfold bind at 1.
    rewrite (describe_complete _ _ _ H). unfold ret at 1.
    rewrite IH, <- app_assoc. reflexivity.
Qed.

Lemma items_incomplete (ks : list string) (k : string)
    (acc : list string) (st : state) :
  In k ks ->
  (Dict.get k (qcml st) = None
   \/ exists e, Dict.get k (qcml st) = Some e /\ ~ complete_entry e) ->
  exists a,
    for_each ks
      (fun key acc =>
         bind (describe key)
           (fun d => ret (acc ++ [("<li>" ++ d ++ "</li>")%string])%list))
      acc st
    = (Raise (KeyError a), st).
Proof.
  intros I B. revert acc. induction ks as [|k0 ks IH]; intros acc;
    [destruct I|].
  cbn [for_each]. unfold bind at 1. unfold bind at 1.
  destruct (describe_cases k0 st) as [[d E]|[a E]]; rewrite E.
  - destruct I as [->|I].
    + destruct (describe_incomplete _ _ B) as [a E']. congruence.
    + unfold ret at 1. now apply IH.
  - eauto.
Qed.

(** X2: [make_description] leaves the module as it is.  Where every key
    has an entry with a description and an accession, it returns the
    description of a single key, and for any other number of keys the
    descriptions as the items of one list; where a key has no entry, or
    an entry that lacks one of the two (as the entry the modules add for a
    derived key, which has a description only), it raises a
    [KeyError]. *)
Theorem make_description_spec (keynames : list string) (st : state) :
  (forall ds,
     Forall2
       (fun k d =>
          exists e, Dict.get k (qcml st) = Some e
                    /\ Dict.get "description" e = Some d
                    /\ exists a, Dict.get "accession" e = Some a)
       keynames ds ->
     make_description keynames st
     = (Ok match ds with
           | [d] => d
           | _ => "<ul>" ++ String.concat "" (map item ds) ++ "</ul>"
           end, st))
  /\ (forall k,
        In k keynames ->
        Dict.get k (qcml st) = None
        \/ (exists e, Dict.get k (qcml st) = Some e /\ ~ complete_entry e) ->
        exists a, make_description keynames st = (Raise (KeyError a), st))
  /\ (forall k d,
        Dict.get k (qcml st) = Some [("description", d)] ->
        make_description [k] st = (Raise (KeyError "accession"), st)).
Proof.
  split; [|split].
  - intros ds F. unfold make_description.
    destruct F as [|k d ks ds H F].
    + reflexivity.
    + destruct F as [|k1 d1 ks ds H1 F].
      * exact (describe_complete _ _ _ H).
      * unfold bind at 1.
        rewrite (items_complete (k :: k1 :: ks) (d :: d1 :: ds) [] st).
        -- reflexivity.
        -- constructor; [exact H|]. constructor; [exact H1|exact F].
  - intros k I B. unfold make_description.
    destruct keynames as [|k0 [|k1 ks]].
    + destruct I.
    + destruct I as [->|[]]. exact (describe_incomplete _ _ B).
    + destruct (items_incomplete (k0 :: k1 :: ks) k [] st I B) as [a E].
      exists a. unfold bind at 1. now rewrite E.
  - intros k d G. unfold make_description.
    rewrite describe_spec, G. reflexivity.
Qed.

End Descriptions.

(** ** The description table written by [parse_qcml] *)

Lemma In_set (V : Type) (k k' : string) (v v' : V) (d : Dict.t V) :
  In (k', v') (Dict.set k v d) -> (k', v') = (k, v) \/ In (k', v') d.
Proof.
  induction d as [|[k0 v0] d IH]; simpl.
  - intros [E|[]]. now left.
  - destruct (k0 =? k); simpl.
    + intros [E|I]; [now left|right; now right].
    + intros [E|I]; [right; now left|].
      destruct (IH I) as [E|I']; [now left|right; now right].
Qed.

Lemma NoDup_keys_set (V : Type) (k : string) (v : V) (d : Dict.t V) :
  NoDup (Dict.keys d) -> NoDup (Dict.keys (Dict.set k v d)).
Proof.
  intros N. rewrite keys_set. unfold Dict.mem.
  destruct (Dict.get k d) eqn:G; [exact N|].
  apply get_None_keys in G.
  apply NoDup_app; [exact N|constructor; [intros []|constructor]|].
  intros x I [<-|[]]. contradiction.
Qed.

Lemma NoDup_keys_remove (V : Type) (k : string) (d : Dict.t V) :
  NoDup (Dict.keys d) -> NoDup (Dict.keys (Dict.remove k d)).
Proof.
  unfold Dict.remove, Dict.keys.
  induction d as [|[k0 v0] d IH]; intros N; [constructor|].
  inversion N as [|? ? N0 N1]; subst. cbn [filter fst].
  destruct (negb (k0 =? k)); [|now apply IH].
  cbn [map fst]. constructor; [|now apply IH].
  intros I. apply N0. apply in_map_iff in I as ([k1 v1] & E & I).
  apply filter_In in I as [I _]. apply in_map_iff. now exists (k1, v1).
Qed.

Section DescriptionTable.
Context {host : Host}.

Lemma set_qcml_twice (q1 q2 : Dict.t (Dict.t string)) (st : state) :
  set_qcml q2 (set_qcml q1 st) = set_qcml q2 st.
Proof. reflexivity. Qed.

Lemma classify_Store_entry (e : Element) k v entry :
  classify e = Store k v entry ->
  exists ds a,
    Dict.get "description" (attrib e) = Some ds
    /\ Dict.get "accession" (attrib e) = Some a
    /\ entry = [("description", ds); ("accession", a)].
Proof.
  unfold classify.
  destruct (Dict.get "value" (attrib e)) as [s|]; [|discriminate].
  destruct (Str.startswith s "n/a"); [discriminate|].
  destruct (Dict.get "name" (attrib e)) as [n|]; [|discriminate].
  destruct (Dict.get "description" (attrib e)) as [ds|]; [|discriminate].
  destruct (Dict.get "accession" (attrib e)) as [a|]; [|discriminate].
  intros H; inversion H; subst. eauto.
Qed.

(** A run of the loop changes the description table by the assignments
    of the elements stored, and nothing else of the module. *)
Lemma for_each_table (qps : list Element) (acc d : metrics)
    (st st' : state) :
  for_each qps parse_qp acc st = (Ok d, st') ->
  st' = set_qcml
          (fold_left (fun a e => Dict.set (fst e) (snd e) a)
             (flat_map
                (fun e => match classify e with
                          | Store k _ entry => [(k, entry)]
                          | _ => []
                          end) qps)
             (qcml st)) st.
Proof.
  revert acc st; induction qps as [|e qps IH]; intros acc st H.
  - inversion H; subst. cbn [flat_map fold_left].
    symmetry. apply set_qcml_same.
  - cbn [for_each] in H. unfold bind in H.
    rewrite parse_qp_classify in H. cbn [flat_map].
    destruct (classify e) as [|k v entry|x] eqn:C; [| |discriminate].
    + exact (IH _ _ H).
    + rewrite (IH _ _ H). reflexivity.
  Qed.

Lemma table_entries_kept (qps : list Element) :
  Forall (fun e => forall x, classify e <> Fail x) qps ->
  flat_map
    (fun e => match classify e with
              | Store k _ entry => [(k, entry)]
              | _ => []
              end) qps
  = flat_map
      (fun e =>
         match qp_key e, Dict.get "description" (attrib e),
               Dict.get "accession" (attrib e) with
         | Some k, Some ds, Some a =>
             [(k, [("description", ds); ("accession", a)])]
         | _, _, _ => []
         end) (kept qps)
  /\ Forall
       (fun e => exists k ds a,
          qp_key e = Some k
          /\ Dict.get "description" (attrib e) = Some ds
          /\ Dict.get "accession" (attrib e) = Some a)
       (kept qps).
Proof.
  unfold kept.
  induction 1 as [|e qps N F [IH1 IH2]]; [split; [reflexivity|constructor]|].
  cbn [flat_map filter].
  destruct (classify e) as [|k v entry|x] eqn:C.
  - apply classify_Skip in C. rewrite C. cbn [negb app]. now split.
  - destruct (classify_Store _ C) as (Na & K & _).
    destruct (classify_Store_entry _ _ _ _ C) as (ds & a & D & A & ->).
    rewrite Na. cbn [negb flat_map]. rewrite K, D, A.
    cbn [app]. rewrite IH1. split; [reflexivity|].
    constructor; [eauto 6|exact IH2].
  - now destruct (N x).
Qed.

Lemma get_table (k : string) (l : list Element) :
  Forall
    (fun e => exists k ds a,
       qp_key e = Some k
       /\ Dict.get "description" (attrib e) = Some ds
       /\ Dict.get "accession" (attrib e) = Some a) l ->
  Dict.get k
    (flat_map
       (fun e =>
          match qp_key e, Dict.get "description" (attrib e),
                Dict.get "accession" (attrib e) with
          | Some k, Some ds, Some a =>
              [(k, [("description", ds); ("accession", a)])]
          | _, _, _ => []
          end) l)
  = match find (has_key k) l with
    | Some e =>
        match Dict.get "description" (attrib e),
              Dict.get "accession" (attrib e) with
        | Some ds, Some a => Some [("description", ds); ("accession", a)]
        | _, _ => None
        end
    | None => None
    end.
Proof.
  induction 1 as [|e l (k0 & ds & a & K & D & A) F IH]; [reflexivity|].
  cbn [flat_map find]. unfold has_key at 1. rewrite K, D, A.
  cbn [app Dict.get].
  destruct (k0 =? k); [|exact IH]. now rewrite D, A.
Qed.

(** X3: after a call of [parse_qcml] that returns, the description table
    has under a key the description and the accession of the last element
    that is not skipped and has this key, and what it had before under
    the keys of no such element; every key of the returned mapping has an
    entry with both. *)
Theorem parse_qcml_description_table contents root st d st' :
  fromstring contents = Some root ->
  parse_qcml contents st = (Ok d, st') ->
  (forall k,
     Dict.get k (qcml st')
     = match find (has_key k) (rev (kept (visited root))) with
       | Some e =>
           match Dict.get "description" (attrib e),
                 Dict.get "accession" (attrib e) with
           | Some ds, Some a =>
               Some [("description", ds); ("accession", a)]
           | _, _ => None
           end
       | None => Dict.get k (qcml st)
       end)
  /\ (forall k,
        In k (Dict.keys d) ->
        exists e, Dict.get k (qcml st') = Some e /\ complete_entry e).
Proof.
  intros R H.
  destruct (parse_qcml_Ok _ _ R H) as [Hd F].
  unfold parse_qcml in H. rewrite R in H.
  apply for_each_table in H. fold (visited root) in H.
  destruct (table_entries_kept _ F) as [T K].
  assert (G : forall k,
     Dict.get k (qcml st')
     = match find (has_key k) (rev (kept (visited root))) with
       | Some e =>
           match Dict.get "description" (attrib e),
                 Dict.get "accession" (attrib e) with
           | Some ds, Some a =>
               Some [("description", ds); ("accession", a)]
           | _, _ => None
           end
       | None => Dict.get k (qcml st)
       end).
  { intros k. rewrite H. unfold set_qcml; cbn [qcml].
    rewrite get_fold_set, T, rev_flat_map.
    2:{ intros e. destruct (qp_key e); [|reflexivity].
        destruct (Dict.get "description" (attrib e)); [|reflexivity].
        now destruct (Dict.get "accession" (attrib e)). }
    rewrite get_table.
    2:{ apply Forall_forall. intros e I. apply in_rev in I.
        rewrite Forall_forall in K. now apply K. }
    destruct (find (has_key k) (rev (kept (visited root)))) as [e|] eqn:Fd;
      [|reflexivity].
    apply find_some in Fd as [I _]. apply in_rev in I.
    rewrite Forall_forall in K.
    destruct (K e I) as (k0 & ds & a & _ & D & A). now rewrite D, A. }
  split; [exact G|].
  intros k I. rewrite G.
  rewrite Hd, keys_fold_set in I. cbn [Dict.keys Dict.empty map app] in I.
  apply filter_In in I as [I _]. rewrite In_first_occurrences in I.
  rewrite (proj1 (entries_kept F)) in I.
  unfold kept_keys in I. apply in_flat_map in I as (e & Ie & Ik).
  destruct (find (has_key k) (rev (kept (visited root)))) as [e'|] eqn:Fd.
  - apply find_some in Fd as [I' _]. apply in_rev in I'.
    rewrite Forall_forall in K.
    destruct (K e' I') as (k0 & ds & a & _ & D & A). rewrite D, A.
    eexists. split; [reflexivity|]. split; eexists; reflexivity.
  - exfalso. assert (Ir : In e (rev (kept (visited root))))
      by now apply -> in_rev.
    pose proof (find_none _ _ Fd e Ir) as Hk.
    unfold has_key in Hk. destruct (qp_key e) as [k0|]; [|destruct Ik].
    destruct Ik as [<-|[]]. rewrite String.eqb_refl in Hk. discriminate.
Qed.

Lemma parse_loop_frame (qps : list Element) acc st r st' :
  for_each qps parse_qp acc st = (r, st') ->
  qcdata st' = qcdata st /\ data_sources st' = data_sources st.
Proof.
  revert acc st; induction qps as [|e qps IH]; intros acc st H.
  - inversion H; subst. now split.
  - cbn [for_each] in H. unfold bind in H.
    rewrite parse_qp_classify in H.
    destruct (classify e) as [|k v entry|x].
    + exact (IH _ _ H).
    + exact (IH _ _ H).
    + inversion H; subst. now split.
Qed.

Lemma parse_loop_result (qps : list Element) acc st1 st2 :
  fst (for_each qps parse_qp acc st1) = fst (for_each qps parse_qp acc st2).
Proof.
  revert acc st1 st2; induction qps as [|e qps IH]; intros acc st1 st2;
    [reflexivity|].
  cbn [for_each]. unfold bind. rewrite !parse_qp_classify.
  destruct (classify e) as [|k v entry|x]; [apply IH|apply IH|reflexivity].
Qed.

(** X4: what [parse_qcml] returns or raises depends on the text alone,
    not on the module; and a call, also one that raises, changes nothing
    of the module but the description table: the data of the samples,
    the data sources and what was handed to the report stay. *)
Theorem parse_qcml_frame contents st1 st2 :
  fst (parse_qcml contents st1) = fst (parse_qcml contents st2)
  /\ qcdata (snd (parse_qcml contents st1)) = qcdata st1
  /\ data_sources (snd (parse_qcml contents st1)) = data_sources st1
  /\ same_output st1 (snd (parse_qcml contents st1)).
Proof.
  unfold parse_qcml. destruct (fromstring contents) as [root|].
  - split; [apply parse_loop_result|].
    destruct (for_each _ parse_qp _ st1) as [r st'] eqn:E. cbn [snd].
    destruct (parse_loop_frame _ _ _ _ _ E) as [Q S].
    repeat split; try assumption; apply (parse_loop_output _ _ _ E).
  - repeat split.
Qed.

End DescriptionTable.

(** ** The loop over the log files *)

Lemma get_flat_singletons (A V : Type) (key : A -> string)
    (val : A -> option V) (l : list A) (k : string) :
  Dict.get k
    (flat_map
       (fun a => match val a with
                 | Some v => [(key a, v)]
                 | None => []
                 end) l)
  = match find (fun a => match val a with
                         | Some _ => key a =? k
                         | None => false
                         end) l with
    | Some a => val a
    | None => None
    end.
Proof.
  induction l as [|a l IH]; [reflexivity|].
  cbn [flat_map find]. destruct (val a) as [v|] eqn:E; [|exact IH].
  cbn [app Dict.get]. destruct (key a =? k); [now rewrite E|exact IH].
Qed.

Lemma set_absent (V : Type) (k : string) (v : V) (d : Dict.t V) :
  Dict.get k d = None -> Dict.set k v d = (d ++ [(k, v)])%list.
Proof.
  induction d as [|[k0 v0] d IH]; [reflexivity|].
  cbn [Dict.get Dict.set app].
  destruct (k0 =? k); [discriminate|]. intros G. now rewrite IH.
Qed.

(** Assignments to keys that are new and differ from one another append
    to the dictionary. *)
Lemma fold_set_fresh (V : Type) (l d : Dict.t V) :
  NoDup (Dict.keys d ++ Dict.keys l) ->
  fold_left (fun a e => Dict.set (fst e) (snd e) a) l d = (d ++ l)%list.
Proof.
  revert d; induction l as [|[k v] l IH]; intros d N.
  - now rewrite app_nil_r.
  - cbn [fold_left fst snd]. rewrite set_absent.
    + rewrite IH.
      * now rewrite <- app_assoc.
      * unfold Dict.keys in *. rewrite map_app, <- app_assoc. exact N.
    + apply get_None_keys. intros I.
      apply NoDup_remove_2 in N. apply N. apply in_or_app. now left.
Qed.

Section LogFiles.
Context {host : Host}.

Lemma parse_qcml_fst contents st1 st2 :
  fst (parse_qcml contents st1) = fst (parse_qcml contents st2).
Proof.
  unfold parse_qcml. destruct (fromstring contents);
    [apply parse_loop_result|reflexivity].
Qed.

Lemma parse_qcml_keeps contents st r st' :
  parse_qcml contents st = (r, st') ->
  qcdata st' = qcdata st /\ data_sources st' = data_sources st.
Proof.
  unfold parse_qcml. destruct (fromstring contents).
  - apply parse_loop_frame.
  - intros H; inversion H; subst. now split.
Qed.

Lemma parse_qcml_errors contents st e st' :
  parse_qcml contents st = (Raise e, st') ->
  e = ParseError \/ exists a, e = KeyError a.
Proof.
  unfold parse_qcml. destruct (fromstring contents) as [root|].
  2:{ intros H; inversion H. now left. }
  generalize (Dict.empty (value pyfloat)).
  generalize (findall_descendants qualityParameter root).
  intros qps. revert st. induction qps as [|x qps IH]; intros st acc H.
  - discriminate.
  - cbn [for_each] in H. unfold bind in H. rewrite parse_qp_classify in H.
    destruct (classify x) as [|k v entry|y] eqn:C;
      [exact (IH _ _ H)|exact (IH _ _ H)|].
    inversion H; subst. right. unfold classify in C.
    destruct (Dict.get "value" (attrib x)) as [s|];
      [|inversion C; eauto].
    destruct (Str.startswith s "n/a"); [discriminate|].
    destruct (Dict.get "name" (attrib x)); [|inversion C; eauto].
    destruct (Dict.get "description" (attrib x)); [|inversion C; eauto].
    destruct (Dict.get "accession" (attrib x)); [discriminate|].
    inversion C; eauto.
Qed.

(** One turn of the loop over the log files. *)
Lemma parse_file_step (name : LogFile -> string) (lf : LogFile)
    (st : state) :
  let st0 := snd (add_data_source lf st) in
  bind (add_data_source lf)
    (fun _ =>
       bind (parse_qcml (f lf))
         (fun d =>
            modify (fun st => set_qcdata (Dict.set (name lf) d (qcdata st)) st)))
    st
  = match parse_qcml (f lf) st0 with
    | (Ok d, st1) =>
        (Ok tt, set_qcdata (Dict.set (name lf) d (qcdata st1)) st1)
    | (Raise e, st1) => (Raise e, st1)
    end.
Proof.
  cbv zeta. unfold bind at 1. unfold add_data_source, modify at 1.
  cbn [snd]. unfold bind. now destruct (parse_qcml (f lf) _) as [[d|e] st1].
Qed.

Lemma parse_files_named_Ok (name : LogFile -> string)
    (files : list LogFile) (st st' : state) :
  parse_files_named name files st = (Ok tt, st') ->
  data_sources st' = (data_sources st ++ files)%list
  /\ qcdata st'
     = fold_left (fun a e => Dict.set (fst e) (snd e) a)
         (flat_map
            (fun lf => match parsed lf with
                       | Some d => [(name lf, d)]
                       | None => []
                       end) files)
         (qcdata st)
  /\ Forall (fun lf => parsed lf <> None) files.
Proof.
  unfold parse_files_named. generalize tt at 1.
  revert st; induction files as [|lf files IH]; intros st u H.
  - inversion H; subst. rewrite app_nil_r. repeat split. constructor.
  - cbn [for_each] in H. unfold bind at 1 in H.
    rewrite (parse_file_step name lf st) in H. cbv zeta in H.
    destruct (parse_qcml (f lf) _) as [[d|e] st1] eqn:P; [|discriminate].
    destruct (parse_qcml_keeps _ _ _ _ P) as [Q S].
    assert (Pd : parsed lf = Some d).
    { unfold parsed.
      rewrite (parse_qcml_fst (f lf) fresh (snd (add_data_source lf st))).
      now rewrite P. }
    destruct (IH _ _ H) as (D & Qd & F).
    unfold set_qcdata in D, Qd; cbn [data_sources qcdata] in D, Qd.
    rewrite S in D. rewrite Q in Qd. cbn [add_data_source modify snd] in D, Qd.
    unfold add_data_source, modify in D, Qd. cbn in D, Qd.
    split; [|split].
    + rewrite D, <- app_assoc. reflexivity.
    + cbn [flat_map]. rewrite Pd. cbn [app fold_left fst snd]. exact Qd.
    + constructor; [congruence|exact F].
Qed.

Lemma parse_files_named_output (name : LogFile -> string)
    (files : list LogFile) st r st' :
  parse_files_named name files st = (r, st') -> same_output st st'.
Proof.
  unfold parse_files_named. generalize tt at 1.
  revert st; induction files as [|lf files IH]; intros st u H.
  - inversion H; subst. apply same_output_refl.
  - cbn [for_each] in H. unfold bind at 1 in H.
    rewrite (parse_file_step name lf st) in H. cbv zeta in H.
    destruct (parse_qcml (f lf) _) as [[d|e] st1] eqn:P.
    + apply parse_qcml_output in P. apply IH in H.
      eapply same_output_trans; [|exact H].
      eapply same_output_trans; [|eapply same_output_trans; [exact P|]];
        now repeat split.
    + apply parse_qcml_output in P. inversion H; subst.
      eapply same_output_trans; [|exact P]. now repeat split.
Qed.

(** A file whose text is malformed makes the loop raise. *)
Lemma parse_files_named_malformed (name : LogFile -> string)
    (files : list LogFile) (lf : LogFile) (st : state) :
  In lf files -> fromstring (f lf) = None ->
  exists e st',
    parse_files_named name files st = (Raise e, st')
    /\ (e = ParseError \/ exists a, e = KeyError a).
Proof.
  intros I M. unfold parse_files_named. generalize tt at 1.
  revert st; induction files as [|lf0 files IH]; intros st u; [destruct I|].
  cbn [for_each]. unfold bind at 1.
  rewrite (parse_file_step name lf0 st). cbv zeta.
  destruct (parse_qcml (f lf0) _) as [[d|e] st1] eqn:P.
  - destruct I as [->|I].
    + unfold parse_qcml in P. rewrite M in P. discriminate.
    + now apply IH.
  - exists e, st1. split; [reflexivity|].
    exact (parse_qcml_errors _ _ _ _ P).
Qed.

(** X5: when the loop over the log files returns, the data sources are
    the files in their order, the samples stand in the order in which
    their names occur first, and the data of a sample are the mapping of
    the last file with its name: a later file replaces an earlier one of
    the same sample.  The name is the cleaned name in ReadQC, MappingQC
    and VariantQC, and its part before the first dash of a pair name in
    SomaticQC. *)
Theorem parse_files_samples (files : list LogFile) (st : state) :
  (Qcml.parse_files files fresh = (Ok tt, st) ->
   data_sources st = files
   /\ Dict.keys (qcdata st) = first_occurrences (map cleaned files)
   /\ forall s,
        Dict.get s (qcdata st)
        = match find (fun lf => cleaned lf =? s) (rev files) with
          | Some lf => parsed lf
          | None => None
          end)
  /\ (SomaticQC.parse_files files fresh = (Ok tt, st) ->
      data_sources st = files
      /\ Dict.keys (qcdata st)
         = first_occurrences (map SomaticQC.sample_name files)
      /\ forall s,
           Dict.get s (qcdata st)
           = match find (fun lf => SomaticQC.sample_name lf =? s)
                     (rev files) with
             | Some lf => parsed lf
             | None => None
             end).
Proof.
  assert (G : forall name,
    parse_files_named name files fresh = (Ok tt, st) ->
    data_sources st = files
    /\ Dict.keys (qcdata st) = first_occurrences (map name files)
    /\ forall s,
         Dict.get s (qcdata st)
         = match find (fun lf => name lf =? s) (rev files) with
           | Some lf => parsed lf
           | None => None
           end).
  { intros name H.
    destruct (parse_files_named_Ok name files fresh st H) as (D & Q & F).
    split; [exact D|]. cbn [qcdata fresh] in Q.
    assert (E : flat_map
                  (fun lf => match parsed lf with
                             | Some d => [(name lf, d)]
                             | None => []
                             end) (rev files)
                = rev (flat_map
                         (fun lf => match parsed lf with
                                    | Some d => [(name lf, d)]
                                    | None => []
                                    end) files)).
    { symmetry. apply rev_flat_map. intros lf. now destruct (parsed lf). }
    split.
    - rewrite Q, keys_fold_set. cbn [Dict.keys Dict.empty map app].
      rewrite <- (filter_ext (fun _ => true)) by reflexivity.
      assert (K : map fst
                    (flat_map
                       (fun lf => match parsed lf with
                                  | Some d => [(name lf, d)]
                                  | None => []
                                  end) files) = map name files).
      { clear - F. induction F as [|lf files N F IH]; [reflexivity|].
        cbn [flat_map map]. destruct (parsed lf); [|contradiction].
        cbn [app map fst]. now rewrite IH. }
      rewrite K. induction (first_occurrences _) as [|a l IH]; simpl;
        congruence.
    - intros s. rewrite Q, get_fold_set, <- E. cbn [Dict.get Dict.empty].
      rewrite get_flat_singletons.
      assert (Fr : Forall (fun lf => parsed lf <> None) (rev files)).
      { apply Forall_forall. intros lf I. apply in_rev in I.
        rewrite Forall_forall in F. now apply F. }
      clear - Fr. induction Fr as [|lf l N Fr IH]; [reflexivity|].
      cbn [find]. destruct (parsed lf) eqn:P; [|contradiction].
      destruct (name lf =? s); [now rewrite P|].
      rewrite <- IH. now destruct (find _ l). }
  split; [exact (G cleaned)|exact (G SomaticQC.sample_name)].
Qed.

End LogFiles.

(** ** A malformed file *)

Section Malformed.
Context {host : Host}.

(** X6: one log file with malformed text among the files makes the whole
    run of each of the four modules raise, with the parse error or with
    the [KeyError] of an earlier file, before anything is handed to the
    report. *)
Theorem malformed_file_aborts (files : list LogFile) (lf : LogFile) :
  In lf files ->
  fromstring (f lf) = None ->
  Forall
    (fun run : list LogFile -> result unit * state =>
       exists e st',
         run files = (Raise e, st')
         /\ (e = ParseError \/ exists a, e = KeyError a)
         /\ no_output st')
    [ReadQC.run; MappingQC.run; SomaticQC.run; VariantQC.run].
Proof.
  intros I M.
  assert (G : forall name,
            exists e st',
              parse_files_named name files fresh = (Raise e, st')
              /\ (e = ParseError \/ exists a, e = KeyError a)
              /\ no_output st').
  { intros name.
    destruct (parse_files_named_malformed name files lf fresh I M)
      as (e & st' & E & C).
    exists e, st'. split; [exact E|]. split; [exact C|].
    apply (same_no_output (parse_files_named_output _ _ _ _ _ E)).
    apply no_output_fresh. }
  destruct (G cleaned) as (e & st' & E & C & N).
  destruct (G SomaticQC.sample_name) as (e2 & st2 & E2 & C2 & N2).
  change (parse_files_named cleaned files) with (parse_files files) in E.
  change (parse_files_named SomaticQC.sample_name files)
    with (SomaticQC.parse_files files) in E2.
  repeat constructor.
  - exists e, st'. unfold ReadQC.run, ReadQC.init, bind at 1.
    rewrite E. auto.
  - exists e, st'. unfold MappingQC.run, MappingQC.init, bind at 1.
    rewrite E. auto.
  - exists e2, st2. unfold SomaticQC.run, SomaticQC.init, bind at 1.
    rewrite E2. auto.
  - exists e, st'. unfold VariantQC.run, VariantQC.init, bind at 1.
    rewrite E. auto.
Qed.

End Malformed.

(** ** The headers *)

Section Headers.
Context {host : Host}.

Lemma parse_loop_table_wf (qps : list Element) acc st r st' :
  for_each qps parse_qp acc st = (r, st') ->
  table_wf (qcml st) -> table_wf (qcml st').
Proof.
  revert acc st; induction qps as [|e qps IH]; intros acc st H W.
  - now inversion H; subst.
  - cbn [for_each] in H. unfold bind in H. rewrite parse_qp_classify in H.
    destruct (classify e) as [|k v entry|x] eqn:C.
    + exact (IH _ _ H W).
    + apply (IH _ _ H). unfold set_qcml; cbn [qcml].
      destruct W as [N A]. split; [now apply NoDup_keys_set|].
      intros k' e' I. apply In_set in I as [E|I]; [|exact (A _ _ I)].
      inversion E; subst.
      destruct (classify_Store_entry _ _ _ _ C) as (ds & a & _ & _ & ->).
      split; eexists; reflexivity.
    + now inversion H; subst.
Qed.

Lemma parse_qcml_table_wf contents st r st' :
  parse_qcml contents st = (r, st') ->
  table_wf (qcml st) -> table_wf (qcml st').
Proof.
  unfold parse_qcml. destruct (fromstring contents).
  - apply parse_loop_table_wf.
  - intros H; now inversion H; subst.
Qed.

Lemma parse_files_named_table_wf (name : LogFile -> string)
    (files : list LogFile) st r st' :
  parse_files_named name files st = (r, st') ->
  table_wf (qcml st) -> table_wf (qcml st').
Proof.
  unfold parse_files_named. generalize tt at 1.
  revert st; induction files as [|lf files IH]; intros st u H W.
  - now inversion H; subst.
  - cbn [for_each] in H. unfold bind at 1 in H.
    rewrite (parse_file_step name lf st) in H. cbv zeta in H.
    destruct (parse_qcml (f lf) _) as [[d|e] st1] eqn:P.
    + apply parse_qcml_table_wf in P; [|exact W].
      exact (IH _ _ H P).
    + apply parse_qcml_table_wf in P; [|exact W]. now inversion H; subst.
Qed.

Lemma table_wf_fresh : table_wf (qcml fresh).
Proof. split; [constructor|intros k e []]. Qed.

Lemma prepare_loop (namespace : string) (q : Dict.t (Dict.t string))
    (acc : Dict.t header) (st : state) :
  (forall k e, In (k, e) q -> exists d, Dict.get "description" e = Some d) ->
  for_each q
    (fun kv headers =>
       bind (lift (getitem (snd kv) "description"))
         (fun d =>
            ret (Dict.set (fst kv)
                   [("namespace", HStr namespace); ("title", HStr (fst kv));
                    ("description", HStr d)] headers)))
    acc st
  = (Ok (fold_left (fun a e => Dict.set (fst e) (snd e) a)
           (map (fun ke => (fst ke, header_of namespace (fst ke) (snd ke))) q)
           acc), st).
Proof.
  revert acc; induction q as [|[k e] q IH]; intros acc A; [reflexivity|].
  cbn [for_each map fold_left fst snd]. unfold bind at 1. unfold bind at 1.
  unfold lift, getitem, header_of.
  destruct (A k e (or_introl eq_refl)) as [d D]. rewrite D.
  unfold ret at 1. apply IH. intros k' e' I. apply (A k' e'). now right.
Qed.

Lemma prepare_loop_fail (namespace : string) (q : Dict.t (Dict.t string))
    (acc : Dict.t header) (st : state) :
  (exists k e, In (k, e) q /\ Dict.get "description" e = None) ->
  for_each q
    (fun kv headers =>
       bind (lift (getitem (snd kv) "description"))
         (fun d =>
            ret (Dict.set (fst kv)
                   [("namespace", HStr namespace); ("title", HStr (fst kv));
                    ("description", HStr d)] headers)))
    acc st
  = (Raise (KeyError "description"), st).
Proof.
  intros (k & e & I & D). revert acc.
  induction q as [|[k0 e0] q IH]; intros acc; [destruct I|].
  cbn [for_each fst snd]. unfold bind at 1. unfold bind at 1.
  unfold lift, getitem.
  destruct (Dict.get "description" e0) as [d|] eqn:D0; [|reflexivity].
  unfold ret at 1. apply IH.
  destruct I as [E|I]; [inversion E; subst; congruence|exact I].
Qed.

(** X7: on a description table without a repeated key whose entries all
    have a description, [prepare_headers] returns one header for every
    entry, in the order of the table, with the namespace, the key as the
    title and the description of the entry, and leaves the module as it
    is; an entry without a description makes it raise
    [KeyError('description')]. *)
Theorem prepare_headers_spec (namespace : string) (st : state) :
  (NoDup (Dict.keys (qcml st)) ->
   (forall k e, In (k, e) (qcml st) ->
      exists d, Dict.get "description" e = Some d) ->
   prepare_headers namespace st
   = (Ok (map (fun ke => (fst ke, header_of namespace (fst ke) (snd ke)))
            (qcml st)), st))
  /\ ((exists k e, In (k, e) (qcml st) /\ Dict.get "description" e = None) ->
      prepare_headers namespace st = (Raise (KeyError "description"), st)).
Proof.
  split.
  - intros N A. unfold prepare_headers. unfold bind at 1, gets at 1.
    etransitivity;
      [exact (prepare_loop namespace (qcml st) (Dict.empty _) st A)|].
    rewrite fold_set_fresh; [reflexivity|].
    cbn [Dict.keys Dict.empty map app]. unfold Dict.keys in *.
    rewrite map_map. cbn [fst]. exact N.
  - intros B. unfold prepare_headers. unfold bind at 1, gets at 1.
    exact (prepare_loop_fail namespace (qcml st) (Dict.empty _) st B).
Qed.

Lemma prepare_headers_wf (namespace : string) (st : state) :
  NoDup (Dict.keys (qcml st)) ->
  (forall k e, In (k, e) (qcml st) ->
     exists d, Dict.get "description" e = Some d) ->
  prepare_headers namespace st
  = (Ok (map (fun ke => (fst ke, header_of namespace (fst ke) (snd ke)))
           (qcml st)), st).
Proof.
  intros N A. unfold prepare_headers. unfold bind at 1, gets at 1.
  etransitivity;
    [exact (prepare_loop namespace (qcml st) (Dict.empty _) st A)|].
  rewrite fold_set_fresh; [reflexivity|].
  cbn [Dict.keys Dict.empty map app]. unfold Dict.keys in *.
  rewrite map_map. cbn [fst]. exact N.
Qed.

Lemma must_update_spec (k : string) (u : header) (h : Dict.t header)
    (st : state) :
  must_update k u h st =
  match Dict.get k h with
  | Some hd => (Ok (Dict.set k (Dict.update u hd) h), st)
  | None => (Raise (KeyError k), st)
  end.
Proof.
  unfold must_update, update_header. now destruct (Dict.get k h).
Qed.

Lemma mem_set_present (V : Type) (k k' : string) (v : V) (d : Dict.t V) :
  Dict.mem k d = true -> Dict.mem k' (Dict.set k v d) = Dict.mem k' d.
Proof.
  unfold Dict.mem. intros M.
  destruct (String.eqb_spec k k') as [<-|N].
  - rewrite get_set_eq. now destruct (Dict.get k d).
  - now rewrite get_set_neq.
Qed.

Lemma keys_set_present (V : Type) (k : string) (v : V) (d : Dict.t V) :
  Dict.mem k d = true -> Dict.keys (Dict.set k v d) = Dict.keys d.
Proof. intros M. now rewrite keys_set, M. Qed.

Lemma find_same (A : Type) (p q : A -> bool) (l : list A) :
  (forall a, p a = q a) -> find p l = find q l.
Proof.
  intros E. induction l as [|a l IH]; [reflexivity|].
  cbn [find]. now rewrite E, IH.
Qed.

Lemma update_all_spec (us : list (string * header)) (h : Dict.t header)
    (st : state) :
  match first_missing (map fst us) h with
  | Some k => update_all us h st = (Raise (KeyError k), st)
  | None =>
      exists h',
        update_all us h st = (Ok h', st)
        /\ Dict.keys h' = Dict.keys h
        /\ (forall k, Dict.mem k h' = Dict.mem k h)
        /\ (forall k, ~ In k (map fst us) -> Dict.get k h' = Dict.get k h)
  end.
Proof.
  unfold update_all, first_missing.
  revert h; induction us as [|[k u] us IH]; intros h.
  - cbn [map find for_each]. exists h. now repeat split.
  - cbn [map find fst]. unfold Dict.mem at 1.
    destruct (Dict.get k h) as [hd|] eqn:G; cbn [negb].
    2:{ cbn [for_each fst snd]. unfold bind.
        now rewrite must_update_spec, G. }
    assert (S : for_each ((k, u) :: us)
                  (fun ku h => must_update (fst ku) (snd ku) h) h st
                = for_each us
                    (fun ku h => must_update (fst ku) (snd ku) h)
                    (Dict.set k (Dict.update u hd) h) st).
    { cbn [for_each fst snd]. unfold bind at 1.
      now rewrite must_update_spec, G. }
    rewrite S. clear S.
    assert (M : Dict.mem k h = true) by (unfold Dict.mem; now rewrite G).
    specialize (IH (Dict.set k (Dict.update u hd) h)).
    rewrite (find_same _ _ (fun k0 => negb (Dict.mem k0 h))) in IH
      by (intros k0; now rewrite (mem_set_present _ _ k0 _ _ M)).
    destruct (find _ (map fst us)) as [k1|]; [exact IH|].
    destruct IH as (h' & E & K & Mm & O). exists h'.
    split; [exact E|]. split; [|split].
    + now rewrite K, keys_set_present.
    + intros k0. now rewrite Mm, (mem_set_present _ _ k0 _ _ M).
    + intros k0 N. rewrite O by (intros I; apply N; now right).
      apply get_set_neq. intros ->. apply N. now left.
Qed.

Lemma bind_ret (A : Type) (c : M A) (st : state) : bind c ret st = c st.
Proof. unfold bind, ret. now destruct (c st) as [[a|e] st']. Qed.

Ltac updates :=
  cbn [for_each fst snd]; unfold bind, ret;
  repeat match goal with
         | |- context [must_update ?k ?u ?h ?st] =>
             destruct (must_update k u h st) as [[? | ?] ?]
         end;
  reflexivity.

Lemma readqc_format_as_updates (h : Dict.t header) (st : state) :
  ReadQC.format_headers h st =
  update_all
    [("Q20 read %", ReadQC.percent [("max", HInt 100)]);
     ("Q30 base %", ReadQC.percent [("max", HInt 100)]);
     ("gc content %", ReadQC.percent [("max", HInt 100)]);
     ("no base call %", ReadQC.percent [("floor", HInt 1)]);
     ("bases sequenced",
      [("suffix", HConfig "base_count_prefix"); ("format", HStr "{:,.2f}");
       ("modify", HTimesConfig "base_count_multiplier")]);
     ("read count",
      [("suffix", HConfig "read_count_prefix"); ("format", HStr "{:,.2f}");
       ("modify", HTimesConfig "read_count_multiplier")]);
     ("read length", [("suffix", HStr "bp"); ("format", HStr "{:,.0f}")])]
    h st.
Proof. unfold ReadQC.format_headers, update_all. updates. Qed.

Lemma mappingqc_format_as_updates (h : Dict.t header) (st : state) :
  MappingQC.format_required h st =
  update_all
    [("trimmed base %",
      MappingQC.percent [("floor", HInt 1); ("scale", HStr "PuBu")]);
     ("clipped base %",
      MappingQC.percent [("floor", HInt 1); ("scale", HStr "PuRd")]);
     ("mapped read %",
      MappingQC.percent [("max", HInt 100); ("scale", HStr "Reds")]);
     ("bases usable",
      [("suffix", HConfig "base_count_prefix"); ("format", HStr "{:,.2f}");
       ("modify", HTimesConfig "base_count_multiplier");
       ("scale", HStr "Greens")]);
     ("on-target read %",
      MappingQC.percent [("max", HInt 100); ("scale", HStr "Purples")])]
    h st.
Proof. unfold MappingQC.format_required, update_all. updates. Qed.

Lemma somaticqc_format_as_updates (h : Dict.t header) (st : state) :
  SomaticQC.format_required h st =
  update_all
    [("sample correlation", [("format", HStr "{:,.2f}"); ("max", HInt 1)]);
     ("variant count",
      [("format", HStr "{:,.0f}"); ("title", HStr "variant count")]);
     ("somatic variant count", [("format", HStr "{:,.0f}")]);
     ("known somatic variants %",
      [("suffix", HStr "%"); ("format", HStr "{:,.2f}"); ("max", HInt 100)]);
     ("somatic indel %",
      [("suffix", HStr "%"); ("format", HStr "{:,.2f}");
       ("minRange", HInt 20); ("ceiling", HInt 20)]);
     ("somatic variant rate",
      [("suffix", HStr "Variants/Mb"); ("format", HStr "{:,.2f}");
       ("min", HInt 0); ("minRange", HInt 10); ("ceiling", HInt 10)])]
    h st.
Proof. unfold SomaticQC.format_required, update_all. updates. Qed.

Lemma variantqc_format_as_updates (h : Dict.t header) (st : state) :
  VariantQC.format_headers h st =
  update_all
    [("variant count", [("format", HStr "{:,.0f}"); ("scale", HStr "Blues")]);
     ("known variants %",
      [("suffix", HStr "%"); ("format", HStr "{:,.2f}"); ("max", HInt 100);
       ("scale", HStr "YlGnBu")]);
     ("high-impact variants %",
      [("suffix", HStr "%"); ("format", HStr "{:,.2f}"); ("min", HInt 0);
       ("minRange", HInt 10); ("ceiling", HInt 10); ("scale", HStr "Reds")]);
     ("homozygous variants %",
      [("suffix", HStr "%"); ("format", HStr "{:,.2f}"); ("max", HInt 100);
       ("scale", HStr "Purples")]);
     ("indel variants %",
      [("suffix", HStr "%"); ("format", HStr "{:,.2f}");
       ("minRange", HInt 20); ("ceiling", HInt 20); ("scale", HStr "PuRd")]);
     ("transition/transversion ratio",
      [("format", HStr "{:,.2f}"); ("minRange", HInt 5); ("ceiling", HInt 5);
       ("scale", HStr "RdBu")])]
    h st.
Proof. unfold VariantQC.format_headers, update_all. updates. Qed.

Lemma required_of_updates (us : list (string * header))
    (h : Dict.t header) (st : state) :
  match first_missing (map fst us) h with
  | Some k => update_all us h st = (Raise (KeyError k), st)
  | None =>
      exists h',
        update_all us h st = (Ok h', st)
        /\ Dict.keys h' = Dict.keys h
        /\ (forall k, ~ In k (map fst us) -> Dict.get k h' = Dict.get k h)
  end.
Proof.
  pose proof (update_all_spec us h st) as S.
  destruct (first_missing (map fst us) h); [exact S|].
  destruct S as (h' & E & K & _ & O). eauto.
Qed.

Ltac headers_by_updates :=
  match goal with
  | |- context [update_all ?us ?h ?st] =>
      exact (required_of_updates us h st)
  end.

(** X8: each module needs the headers of the keys it updates outside of
    a [try].  Where the prepared headers lack one of them, the updating
    raises the [KeyError] of the first one that is missing, in the order
    of the calls; where they have them all, it returns headers with the
    same keys in the same order, and leaves the headers of the other keys
    as they were. *)
Theorem required_headers (h : Dict.t header) (st : state) :
  match first_missing readqc_required h with
  | Some k => ReadQC.format_headers h st = (Raise (KeyError k), st)
  | None =>
      exists h',
        ReadQC.format_headers h st = (Ok h', st)
        /\ Dict.keys h' = Dict.keys h
        /\ (forall k, ~ In k readqc_required ->
              Dict.get k h' = Dict.get k h)
  end
  /\ match first_missing mappingqc_required h with
     | Some k => MappingQC.format_required h st = (Raise (KeyError k), st)
     | None =>
         exists h',
           MappingQC.format_required h st = (Ok h', st)
           /\ Dict.keys h' = Dict.keys h
           /\ (forall k, ~ In k mappingqc_required ->
                 Dict.get k h' = Dict.get k h)
     end
  /\ match first_missing somaticqc_required h with
     | Some k => SomaticQC.format_required h st = (Raise (KeyError k), st)
     | None =>
         exists h',
           SomaticQC.format_required h st = (Ok h', st)
           /\ Dict.keys h' = Dict.keys h
           /\ (forall k, ~ In k somaticqc_required ->
                 Dict.get k h' = Dict.get k h)
     end
  /\ match first_missing variantqc_required h with
     | Some k => VariantQC.format_headers h st = (Raise (KeyError k), st)
     | None =>
         exists h',
           VariantQC.format_headers h st = (Ok h', st)
           /\ Dict.keys h' = Dict.keys h
           /\ (forall k, ~ In k variantqc_required ->
                 Dict.get k h' = Dict.get k h)
     end.
Proof.
  split; [|split; [|split]].
  - rewrite readqc_format_as_updates. headers_by_updates.
  - rewrite mappingqc_format_as_updates. headers_by_updates.
  - rewrite somaticqc_format_as_updates. headers_by_updates.
  - rewrite variantqc_format_as_updates. headers_by_updates.
Qed.

End Headers.

(** ** The optional headers *)

Lemma try_update_get (k k' : string) (u : header) (h : Dict.t header) :
  Dict.get k'
    match Qcml.update_header k u h with
    | Some h' => h'
    | None => h
    end
  = if k =? k' then option_map (Dict.update u) (Dict.get k h)
    else Dict.get k' h.
Proof.
  unfold Qcml.update_header.
  destruct (String.eqb_spec k k') as [<-|N].
  - destruct (Dict.get k h) as [hd|] eqn:G; cbn [option_map];
      [apply get_set_eq|exact G].
  - destruct (Dict.get k h) as [hd|]; [now apply get_set_neq|reflexivity].
Qed.

Lemma try_update_keys (k : string) (u : header) (h : Dict.t header) :
  Dict.keys
    match Qcml.update_header k u h with
    | Some h' => h'
    | None => h
    end
  = Dict.keys h.
Proof.
  unfold Qcml.update_header.
  destruct (Dict.get k h) as [hd|] eqn:G; [|reflexivity].
  apply keys_set_present. unfold Dict.mem. now rewrite G.
Qed.

Lemma update_header_try (k : string) (u : header) (h h' : Dict.t header) :
  Qcml.update_header k u h = Some h' ->
  h' = match Qcml.update_header k u h with
       | Some h' => h'
       | None => h
       end.
Proof. intros E. now rewrite E. Qed.

Lemma update_header_None (k : string) (u : header) (h : Dict.t header) :
  Qcml.update_header k u h = None <-> Dict.mem k h = false.
Proof.
  unfold Qcml.update_header, Dict.mem.
  destruct (Dict.get k h); split; congruence.
Qed.

Lemma update_coverage_keys (xs : list nat) (h : Dict.t header) :
  Dict.keys (MappingQC.update_coverage xs h) = Dict.keys h.
Proof.
  revert h; induction xs as [|x xs IH]; intros h; [reflexivity|].
  cbn [MappingQC.update_coverage].
  destruct (Qcml.update_header _ _ h) as [h'|] eqn:E; [|reflexivity].
  rewrite IH, (update_header_try _ _ _ _ E). apply try_update_keys.
Qed.

Lemma update_coverage_get (xs : list nat) (h : Dict.t header) (k : string) :
  ~ In k (map MappingQC.coverage_key xs) ->
  Dict.get k (MappingQC.update_coverage xs h) = Dict.get k h.
Proof.
  revert h; induction xs as [|x xs IH]; intros h N; [reflexivity|].
  cbn [MappingQC.update_coverage].
  destruct (Qcml.update_header _ _ h) as [h'|] eqn:E; [|reflexivity].
  rewrite IH by (intros I; apply N; now right).
  rewrite (update_header_try _ _ _ _ E), try_update_get.
  destruct (String.eqb_spec (MappingQC.coverage_key x) k) as [<-|_];
    [|reflexivity].
  exfalso. apply N. now left.
Qed.

(** X9: the [try] blocks of MappingQC never add or drop a header.  A
    block is left at its first missing key: a 'duplicate read %' header
    that is there gets its formatting, but without a
    'properly-paired read %' header the 'insert size' header stays as
    prepared, and without a 'target region read depth' header so do the
    headers of all coverage keys. *)
Theorem mappingqc_optional_headers (h : Dict.t header) :
  Dict.keys (MappingQC.format_optional h) = Dict.keys h
  /\ Dict.get "duplicate read %" (MappingQC.format_optional h)
     = option_map
         (Dict.update
            (MappingQC.percent [("max", HInt 100); ("scale", HStr "YlOrRd")]))
         (Dict.get "duplicate read %" h)
  /\ (Dict.mem "properly-paired read %" h = false ->
      Dict.get "insert size" (MappingQC.format_optional h)
      = Dict.get "insert size" h)
  /\ (Dict.mem "target region read depth" h = false ->
      forall x, In x MappingQC.coverage_values ->
        Dict.get (MappingQC.coverage_key x) (MappingQC.format_optional h)
        = Dict.get (MappingQC.coverage_key x) h).
Proof.
  unfold MappingQC.format_optional. cbv zeta.
  set (h1 := match Qcml.update_header "duplicate read %" _ h with
             | Some h' => h' | None => h end).
  set (h2 := match Qcml.update_header "properly-paired read %" _ h1 with
             | Some h' =>
                 match Qcml.update_header "insert size" _ h' with
                 | Some h'' => h'' | None => h' end
             | None => h1 end).
  set (h3 := match Qcml.update_header "SNV allele frequency deviation" _ h2
             with Some h' => h' | None => h2 end).
  assert (G1 : forall k, Dict.get k h1
                 = if "duplicate read %" =? k
                   then option_map
                          (Dict.update
                             (MappingQC.percent
                                [("max", HInt 100); ("scale", HStr "YlOrRd")]))
                          (Dict.get "duplicate read %" h)
                   else Dict.get k h)
    by (intros k; apply try_update_get).
  assert (K1 : Dict.keys h1 = Dict.keys h) by apply try_update_keys.
  assert (K2 : Dict.keys h2 = Dict.keys h1).
  { unfold h2.
    destruct (Qcml.update_header "properly-paired read %" _ h1) as [h'|] eqn:E;
      [|reflexivity].
    rewrite try_update_keys, (update_header_try _ _ _ _ E).
    apply try_update_keys. }
  assert (G2 : forall k, k <> "properly-paired read %" -> k <> "insert size" ->
                 Dict.get k h2 = Dict.get k h1).
  { intros k N1 N2. unfold h2.
    destruct (Qcml.update_header "properly-paired read %" _ h1) as [h'|] eqn:E;
      [|reflexivity].
    rewrite try_update_get.
    destruct (String.eqb_spec "insert size" k); [congruence|].
    rewrite (update_header_try _ _ _ _ E), try_update_get.
    destruct (String.eqb_spec "properly-paired read %" k);
      [congruence|reflexivity]. }
  assert (K3 : Dict.keys h3 = Dict.keys h2) by apply try_update_keys.
  assert (G3 : forall k, k <> "SNV allele frequency deviation" ->
                 Dict.get k h3 = Dict.get k h2).
  { intros k N. unfold h3. rewrite try_update_get.
    destruct (String.eqb_spec "SNV allele frequency deviation" k);
      [congruence|reflexivity]. }
  assert (NC : forall k,
             In k ["duplicate read %"; "insert size";
                   "properly-paired read %";
                   "SNV allele frequency deviation";
                   "target region read depth"] ->
             ~ In k (map MappingQC.coverage_key MappingQC.coverage_values)).
  { intros k I C. vm_compute in C.
    repeat (destruct I as [<-|I];
            [repeat (destruct C as [C|C]; [discriminate C|]); destruct C|]).
    destruct I. }
  split; [|split; [|split]].
  - destruct (Qcml.update_header "target region read depth" _ h3)
      as [h'|] eqn:E.
    + rewrite update_coverage_keys, (update_header_try _ _ _ _ E),
        try_update_keys. congruence.
    + congruence.
  - assert (D : Dict.get "duplicate read %" h3
                = option_map
                    (Dict.update
                       (MappingQC.percent
                          [("max", HInt 100); ("scale", HStr "YlOrRd")]))
                    (Dict.get "duplicate read %" h)).
    { rewrite G3, G2, G1 by discriminate. reflexivity. }
    destruct (Qcml.update_header "target region read depth" _ h3)
      as [h'|] eqn:E; [|exact D].
    rewrite update_coverage_get by (apply NC; simpl; auto).
    rewrite (update_header_try _ _ _ _ E), try_update_get. exact D.
  - intros M.
    assert (M1 : Qcml.update_header "properly-paired read %"
                   (MappingQC.percent
                      [("max", HInt 100); ("scale", HStr "GnBu")]) h1 = None).
    { apply update_header_None. unfold Dict.mem in *. rewrite G1.
      exact M. }
    assert (D : Dict.get "insert size" h3 = Dict.get "insert size" h).
    { rewrite G3 by discriminate. unfold h2. rewrite M1.
      now rewrite G1. }
    destruct (Qcml.update_header "target region read depth" _ h3)
      as [h'|] eqn:E; [|exact D].
    rewrite update_coverage_get by (apply NC; simpl; auto).
    rewrite (update_header_try _ _ _ _ E), try_update_get. exact D.
  - intros M x I.
    assert (C : In (MappingQC.coverage_key x)
                  (map MappingQC.coverage_key MappingQC.coverage_values))
      by now apply in_map.
    assert (N : forall k,
              In k ["duplicate read %"; "insert size";
                    "properly-paired read %";
                    "SNV allele frequency deviation";
                    "target region read depth"] ->
              MappingQC.coverage_key x <> k).
    { intros k Ik E. apply (NC k Ik). now rewrite <- E. }
    assert (D : Dict.get (MappingQC.coverage_key x) h3
                = Dict.get (MappingQC.coverage_key x) h).
    { rewrite G3, G2, G1 by (apply N; simpl; auto).
      destruct (String.eqb_spec "duplicate read %" (MappingQC.coverage_key x))
        as [E|_]; [|reflexivity].
      exfalso. apply (N "duplicate read %"); [simpl; auto|now symmetry]. }
    assert (M3 : Qcml.update_header "target region read depth"
                   [("suffix", HStr "x"); ("format", HStr "{:,.2f}")] h3
                 = None).
    { apply update_header_None. unfold Dict.mem in *.
      rewrite G3, G2, G1 by discriminate. exact M. }
    rewrite M3. exact D.
Qed.

(** ** The coverage sections of MappingQC *)

Section Coverage.
Context {host : Host}.

Lemma bind_gets (A B : Type) (proj : state -> A) (k : A -> M B)
    (st : state) :
  bind (gets proj) k st = k (proj st) st.
Proof. reflexivity. Qed.

Lemma bind_modify (B : Type) (upd : state -> state) (k : unit -> M B)
    (st : state) :
  bind (modify upd) k st = k tt (upd st).
Proof. reflexivity. Qed.

Lemma bind_Ok (A B : Type) (c : M A) (k : A -> M B) (st st' : state)
    (a : A) :
  c st = (Ok a, st') -> bind c k st = k a st'.
Proof. intros E. unfold bind. now rewrite E. Qed.

Lemma bind_Raise (A B : Type) (c : M A) (k : A -> M B) (st st' : state)
    (e : exn) :
  c st = (Raise e, st') -> bind c k st = (Raise e, st').
Proof. intros E. unfold bind. now rewrite E. Qed.

(** [describe] reads the description table only. *)
Lemma describe_same (k : string) (st s : state) (r : result string) :
  qcml s = qcml st -> describe k st = (r, st) -> describe k s = (r, s).
Proof.
  intros Q. rewrite !describe_spec, Q.
  destruct (Dict.get k (qcml st)) as [e|]; [|intros H; now inversion H].
  destruct (Dict.get "description" e); [|intros H; now inversion H].
  destruct (Dict.get "accession" e); intros H; now inversion H.
Qed.

Lemma cats_loop (headers : Dict.t header) (ks : list string)
    (acc : list (Dict.t header)) (st : state) :
  for_each ks
    (fun s acc =>
       bind (lift (getitem headers s))
         (fun h => ret (acc ++ [[(s, h)]])%list)) acc st
  = match first_missing ks headers with
    | Some k => (Raise (KeyError k), st)
    | None =>
        (Ok (acc ++ flat_map
                      (fun s => match Dict.get s headers with
                                | Some h => [[(s, h)]]
                                | None => []
                                end) ks)%list, st)
    end.
Proof.
  unfold first_missing. revert acc.
  induction ks as [|k ks IH]; intros acc.
  - cbn [for_each find flat_map]. now rewrite app_nil_r.
  - cbn [for_each find flat_map]. unfold bind at 1. unfold bind at 1.
    unfold lift, getitem, Dict.mem.
    destruct (Dict.get k headers) as [h|]; cbn [negb]; [|reflexivity].
    unfold ret at 1. rewrite IH.
    destruct (find _ ks); [reflexivity|]. now rewrite <- app_assoc.
Qed.

(** X10: the coverage part of the MappingQC report adds the coverage
    table first.  It then needs a complete entry of
    'target region read depth' in the description table, without which it
    raises a [KeyError] with the coverage table added; and then the
    headers of all seven coverage keys, without which it raises the
    [KeyError] of the first one that is missing with two sections added.
    With all of them it adds the three sections 'Coverage',
    'Sequencing Depth' and 'Target Coverage'. *)
Theorem report_coverage_spec (headers : Dict.t header) (st : state) :
  ((Dict.get "target region read depth" (qcml st) = None
    \/ exists e, Dict.get "target region read depth" (qcml st) = Some e
                 /\ ~ complete_entry e) ->
   exists a st',
     MappingQC.report_coverage headers st = (Raise (KeyError a), st')
     /\ map (@sec_name pyfloat) (sections st')
        = (map (@sec_name pyfloat) (sections st) ++ ["Coverage"])%list)
  /\ ((exists e, Dict.get "target region read depth" (qcml st) = Some e
                 /\ complete_entry e) ->
      match first_missing
              (map MappingQC.coverage_key MappingQC.coverage_values)
              headers with
      | Some k =>
          exists st',
            MappingQC.report_coverage headers st = (Raise (KeyError k), st')
            /\ map (@sec_name pyfloat) (sections st')
               = (map (@sec_name pyfloat) (sections st)
                  ++ ["Coverage"; "Sequencing Depth"])%list
      | None =>
          exists st',
            MappingQC.report_coverage headers st = (Ok tt, st')
            /\ map (@sec_name pyfloat) (sections st')
               = (map (@sec_name pyfloat) (sections st)
                  ++ ["Coverage"; "Sequencing Depth"; "Target Coverage"])%list
            /\ qcml st' = qcml st /\ qcdata st' = qcdata st
      end).
Proof.
  split.
  - intros B.
    destruct (describe_incomplete "target region read depth" st B) as [a E].
    exists a. eexists. split.
    + unfold MappingQC.report_coverage, add_section.
      rewrite bind_gets, bind_modify. unfold make_description.
      erewrite bind_Raise by (apply (describe_same _ st); [reflexivity|exact E]).
      reflexivity.
    + cbn [sections]. now rewrite map_app.
  - intros (e & G & (d & D) & (a & A)).
    assert (E : describe "target region read depth" st = (Ok d, st)).
    { apply describe_complete. eauto. }
    destruct (first_missing _ headers) as [k|] eqn:FM.
    + eexists. split.
      * unfold MappingQC.report_coverage, add_section.
        rewrite bind_gets, bind_modify. unfold make_description.
        erewrite bind_Ok
          by (apply (describe_same _ st); [reflexivity|exact E]).
        rewrite bind_gets, bind_modify, bind_gets.
        erewrite bind_Raise by (rewrite cats_loop, FM; reflexivity).
        reflexivity.
      * cbn [sections]. rewrite !map_app, <- app_assoc. reflexivity.
    + eexists. split.
      * unfold MappingQC.report_coverage, add_section.
        rewrite bind_gets, bind_modify. unfold make_description.
        erewrite bind_Ok
          by (apply (describe_same _ st); [reflexivity|exact E]).
        rewrite bind_gets, bind_modify, bind_gets.
        erewrite bind_Ok by (rewrite cats_loop, FM; reflexivity).
        reflexivity.
      * cbn [sections qcml qcdata].
        rewrite !map_app, <- !app_assoc. now repeat split.
Qed.

End Coverage.

(** ** The sample names of SomaticQC *)

Lemma substring_prefix (p r : string) :
  substring 0 (String.length p) (p ++ r) = p.
Proof.
  induction p as [|c p IH]; [now destruct r|].
  cbn [String.length append substring]. now rewrite IH.
Qed.

Lemma all_app (cls : ascii -> bool) (s r : string) :
  Str.all cls (s ++ r) = Str.all cls s && Str.all cls r.
Proof.
  induction s as [|c s IH]; [reflexivity|].
  cbn [append Str.all]. now rewrite IH, andb_assoc.
Qed.

Lemma plus_group_run (cls : ascii -> bool) (k : string -> option nat)
    (p rest : string) (n : nat) :
  p <> "" ->
  Str.all cls p = true ->
  Re.plus_group cls k rest = None ->
  k rest = Some n ->
  Re.plus_group cls k (p ++ rest) = Some (String.length p, n).
Proof.
  intros N A P K. destruct p as [|c p]; [contradiction|]. clear N.
  revert c A. induction p as [|c' p IH]; intros c A.
  - cbn [Str.all] in A. apply andb_true_iff in A as [C _].
    cbn [append Re.plus_group]. now rewrite C, P, K.
  - cbn [Str.all] in A. apply andb_true_iff in A as [C A].
    change (String c (String c' p) ++ rest)
      with (String c (String c' p ++ rest)).
    cbn [Re.plus_group]. rewrite C.
    change (Re.plus_group cls k (String c' (p ++ rest)))
      with (Re.plus_group cls k (String c' p ++ rest)).
    now rewrite (IH c' A).
Qed.

Lemma plus_group_inv (cls : ascii -> bool) (k : string -> option nat)
    (s : string) (g n : nat) :
  Re.plus_group cls k s = Some (g, n) ->
  exists p rest,
    s = p ++ rest /\ String.length p = g /\ p <> ""
    /\ Str.all cls p = true /\ k rest = Some n.
Proof.
  revert g; induction s as [|c s IH]; intros g H; [discriminate|].
  cbn [Re.plus_group] in H. destruct (cls c) eqn:C; [|discriminate].
  destruct (Re.plus_group cls k s) as [[g' n']|] eqn:E.
  - inversion H; subst.
    destruct (IH g' eq_refl) as (p & rest & -> & L & _ & A & K).
    exists (String c p), rest. cbn [String.length Str.all append].
    rewrite C, A, L. repeat split; [discriminate|exact K].
  - destruct (k s) as [n'|] eqn:K; [|discriminate].
    inversion H; subst. exists (String c ""), s.
    cbn [Str.all]. rewrite C. repeat split; [discriminate|exact K].
Qed.

(** X11: the name of a SomaticQC sample.  A name that starts with a
    part without dash, a dash and a further character that is not a dash
    is cut to that first part; every other name (without a dash, starting
    with a dash, or with nothing or a dash after its first dash) is kept
    whole. *)
Theorem pair_name_spec :
  (forall p c r,
     p <> "" ->
     Str.all SomaticQC.not_dash p = true ->
     SomaticQC.not_dash c = true ->
     SomaticQC.pair_name (p ++ "-" ++ String c r) = Some p)
  /\ (forall s g,
        SomaticQC.pair_name s = Some g ->
        exists c r,
          s = g ++ "-" ++ String c r /\ g <> ""
          /\ Str.all SomaticQC.not_dash g = true
          /\ SomaticQC.not_dash c = true).
Proof.
  split.
  - intros p c r N A C. unfold SomaticQC.pair_name.
    assert (K : exists n,
              Re.match_len [Re.Lit "-"; Re.Plus SomaticQC.not_dash]
                ("-" ++ String c r) = Some n).
    { cbn [Re.match_len]. unfold Re.lit_len. rewrite removeprefix_app.
      cbn [Re.plus_len]. rewrite C.
      destruct (Re.plus_len _ _ r); eexists; reflexivity. }
    destruct K as [n K].
    rewrite (plus_group_run _ _ p ("-" ++ String c r) n N A eq_refl K).
    now rewrite substring_prefix.
  - intros s g H. unfold SomaticQC.pair_name in H.
    destruct (Re.plus_group _ _ s) as [[gl n]|] eqn:E; [|discriminate].
    inversion H; subst g.
    destruct (plus_group_inv _ _ _ _ _ E) as (p & rest & -> & <- & N & A & K).
    rewrite substring_prefix.
    cbn [Re.match_len] in K. unfold Re.lit_len in K.
    destruct (Str.removeprefix "-" rest) as [r'|] eqn:R; [|discriminate].
    apply removeprefix_Some in R. subst rest.
    destruct r' as [|c r]; [discriminate|].
    cbn [Re.plus_len] in K.
    destruct (SomaticQC.not_dash c) eqn:C; [|discriminate].
    exists c, r. now repeat split.
Qed.

(** ** The steps of SomaticQC on the samples *)

Lemma sub_keeps_or_marks (p : Re.regex) (c : ascii) (s : string) :
  Re.sub p (String c "") s = s
  \/ contains c (Re.sub p (String c "") s) = true.
Proof.
  unfold Re.sub. induction s as [|a s IH]; cbn [Re.sub_from].
  - destruct (Re.match_len p "") as [[|n]|]; [right|right|now left];
      cbn [append contains]; now rewrite Ascii.eqb_refl.
  - destruct (Re.match_len p (String a s)) as [[|n]|].
    + right. cbn [append contains]. now rewrite Ascii.eqb_refl.
    + right. cbn [append contains]. now rewrite Ascii.eqb_refl.
    + destruct IH as [E|E]; [left; now rewrite E|right].
      cbn [contains]. rewrite E. apply orb_true_r.
Qed.

Lemma each_sample_raises {host : Host}
    (body : metrics -> result metrics) (P : exn -> Prop)
    (d : Dict.t metrics) (s : string) (kv : metrics) :
  (forall kv e, body kv = Raise e -> P e) ->
  In (s, kv) d ->
  (exists e, body kv = Raise e) ->
  exists e d', each_sample body d = (Some e, d') /\ P e.
Proof.
  intros B I [e0 B0]. induction d as [|[s1 kv1] d IH]; [destruct I|].
  cbn [each_sample].
  destruct (body kv1) as [kv'|e] eqn:Bk.
  - destruct I as [I|I]; [inversion I; subst; congruence|].
    destruct (IH I) as (e & d' & -> & Pe). eauto.
  - eauto.
Qed.

Lemma each_sample_app_None {host : Host}
    (body : metrics -> result metrics) (d1 d1' d2 : Dict.t metrics) :
  each_sample body d1 = (None, d1') ->
  each_sample body (d1 ++ d2)%list
  = (fst (each_sample body d2), (d1' ++ snd (each_sample body d2))%list).
Proof.
  revert d1'. induction d1 as [|[s kv] d1 IH]; intros d1' E;
    cbn [each_sample app] in *.
  - inversion E. now destruct (each_sample body d2).
  - destruct (body kv) as [kv'|e]; [|discriminate].
    destruct (each_sample body d1) as [o r'] eqn:E1.
    inversion E; subst. now rewrite (IH _ eq_refl).
Qed.

Lemma each_sample_app_Some {host : Host}
    (body : metrics -> result metrics) (d1 d1' d2 : Dict.t metrics)
    (e : exn) :
  each_sample body d1 = (Some e, d1') ->
  each_sample body (d1 ++ d2)%list = (Some e, (d1' ++ d2)%list).
Proof.
  revert d1'. induction d1 as [|[s kv] d1 IH]; intros d1' E;
    cbn [each_sample app] in *; [discriminate|].
  destruct (body kv) as [kv'|e0].
  - destruct (each_sample body d1) as [o r'] eqn:E1.
    inversion E; subst. now rewrite (IH _ eq_refl).
  - now inversion E; subst.
Qed.

(** The loop keeps the samples and their order. *)
Lemma each_sample_names {host : Host}
    (body : metrics -> result metrics) (d : Dict.t metrics) :
  map fst (snd (each_sample body d)) = map fst d.
Proof.
  induction d as [|[s kv] d IH]; [reflexivity|]. cbn [each_sample].
  destruct (body kv) as [kv'|e]; [|reflexivity].
  destruct (each_sample body d) as [o r']. cbn [snd map fst] in *.
  now rewrite IH.
Qed.

Section SomaticSteps.
Context {host : Host}.

(** The body of the loop of the "parse somatic variant rate value" step,
    for a [float] that reads no text with the character U+0002. *)
Lemma somatic_variant_rate_cases (kv : metrics) :
  (forall s, contains (ascii_of_nat 2) s = true -> float s = None) ->
  (forall v,
     Dict.get "somatic variant rate" kv = Some (VStr v) ->
     float v = None ->
     SomaticQC.somatic_variant_rate kv
     = Ok (Dict.remove "somatic variant rate" kv))
  /\ (forall x,
        Dict.get "somatic variant rate" kv = Some (VFloat x) ->
        SomaticQC.somatic_variant_rate kv = Raise TypeError)
  /\ (Dict.get "somatic variant rate" kv = None ->
      SomaticQC.somatic_variant_rate kv
      = Raise (KeyError "somatic variant rate")).
Proof.
  intros F. split; [|split].
  - intros v G Fv. unfold SomaticQC.somatic_variant_rate, getitem.
    rewrite G. unfold SomaticQC.replacement.
    destruct (sub_keeps_or_marks SomaticQC.rate_re (ascii_of_nat 2) v)
      as [E|E].
    + now rewrite E, Fv.
    + now rewrite (F _ E).
  - intros x G. unfold SomaticQC.somatic_variant_rate, getitem.
    now rewrite G.
  - intros G. unfold SomaticQC.somatic_variant_rate, getitem.
    now rewrite G.
Qed.

(** The body returns on every text, whatever [float] reads. *)
Lemma somatic_variant_rate_on_text (kv : metrics) (v : string) :
  Dict.get "somatic variant rate" kv = Some (VStr v) ->
  exists kv', SomaticQC.somatic_variant_rate kv = Ok kv'.
Proof.
  intros G. unfold SomaticQC.somatic_variant_rate, getitem. rewrite G.
  destruct (float _); eauto.
Qed.

Lemma somatic_variant_rate_fails (kv : metrics) :
  Dict.get "somatic variant rate" kv = None
  \/ (exists x, Dict.get "somatic variant rate" kv = Some (VFloat x)) ->
  SomaticQC.somatic_variant_rate kv
  = Raise match Dict.get "somatic variant rate" kv with
          | None => KeyError "somatic variant rate"
          | Some _ => TypeError
          end.
Proof.
  unfold SomaticQC.somatic_variant_rate, getitem.
  intros [G|[x G]]; now rewrite G.
Qed.

Lemma somatic_variant_rate_error (kv : metrics) (e : exn) :
  SomaticQC.somatic_variant_rate kv = Raise e ->
  e = TypeError \/ e = KeyError "somatic variant rate".
Proof.
  unfold SomaticQC.somatic_variant_rate, getitem.
  destruct (Dict.get _ kv) as [[x|s]|]; intros H.
  - inversion H. now left.
  - destruct (float _); discriminate.
  - inversion H. now right.
Qed.

(** The loop on samples that all have a text which [float] does not
    read. *)
Lemma each_sample_text (d : Dict.t metrics) :
  (forall s, contains (ascii_of_nat 2) s = true -> float s = None) ->
  (forall s kv, In (s, kv) d ->
     exists v, Dict.get "somatic variant rate" kv = Some (VStr v)
               /\ float v = None) ->
  each_sample SomaticQC.somatic_variant_rate d
  = (None,
     map (fun skv => (fst skv, Dict.remove "somatic variant rate" (snd skv)))
       d).
Proof.
  intros F. induction d as [|[s kv] d IH]; intros A; [reflexivity|].
  cbn [each_sample map fst snd].
  destruct (A s kv (or_introl eq_refl)) as (v & G & Fv).
  rewrite (proj1 (somatic_variant_rate_cases kv F) v G Fv).
  rewrite IH; [reflexivity|]. intros s0 kv0 I. apply (A s0 kv0). now right.
Qed.

(** X12: the "parse somatic variant rate value" step never stores a
    number.  On samples whose texts under 'somatic variant rate' are as
    [parse_qcml] stored them ([float] does not read them), and for a
    [float] that reads no text with the character U+0002: where every
    sample has a text under the key, the step returns and has removed
    the key from every sample, whatever the text; otherwise it ends at
    the first sample without such a text, with [TypeError] where this
    sample has a number and [KeyError] where it has no rate, the samples
    before it have lost the key, and this sample and the ones after it
    are as they were. *)
Theorem somatic_variant_rate_never_a_number (st : state) :
  (forall s, contains (ascii_of_nat 2) s = true -> float s = None) ->
  (forall s kv v,
     In (s, kv) (qcdata st) ->
     Dict.get "somatic variant rate" kv = Some (VStr v) ->
     float v = None) ->
  ((forall s kv, In (s, kv) (qcdata st) ->
      exists v, Dict.get "somatic variant rate" kv = Some (VStr v)) ->
   SomaticQC.parse_somatic_variant_rate st
   = (Ok tt,
      set_qcdata
        (map (fun skv =>
                (fst skv, Dict.remove "somatic variant rate" (snd skv)))
           (qcdata st)) st))
  /\ (forall before s kv after,
        qcdata st = (before ++ (s, kv) :: after)%list ->
        (forall s0 kv0, In (s0, kv0) before ->
           exists v, Dict.get "somatic variant rate" kv0 = Some (VStr v)) ->
        Dict.get "somatic variant rate" kv = None
        \/ (exists x, Dict.get "somatic variant rate" kv = Some (VFloat x)) ->
        SomaticQC.parse_somatic_variant_rate st
        = (Raise match Dict.get "somatic variant rate" kv with
                 | None => KeyError "somatic variant rate"
                 | Some _ => TypeError
                 end,
           set_qcdata
             (map (fun skv =>
                     (fst skv,
                      Dict.remove "somatic variant rate" (snd skv)))
                before ++ (s, kv) :: after)%list st)).
Proof.
  intros F T. split.
  - intros A. unfold SomaticQC.parse_somatic_variant_rate, for_samples.
    rewrite (each_sample_text (qcdata st) F); [reflexivity|].
    intros s kv I. destruct (A s kv I) as [v G].
    exists v. split; [exact G|exact (T s kv v I G)].
  - intros before s kv after Q A B.
    unfold SomaticQC.parse_somatic_variant_rate, for_samples. rewrite Q.
    assert (E : each_sample SomaticQC.somatic_variant_rate before
                = (None,
                   map (fun skv =>
                          (fst skv,
                           Dict.remove "somatic variant rate" (snd skv)))
                     before)).
    { apply (each_sample_text before F). intros s0 kv0 I.
      destruct (A s0 kv0 I) as [v G]. exists v. split; [exact G|].
      apply (T s0 kv0 v); [|exact G]. rewrite Q. apply in_or_app. now left. }
    pose proof (each_sample_app_None SomaticQC.somatic_variant_rate before
                  _ ((s, kv) :: after) E) as K.
    unfold metrics in K. rewrite K. clear K.
    cbn [each_sample]. rewrite (somatic_variant_rate_fails kv B).
    reflexivity.
Qed.

(** C10 (as amended): the "parse somatic variant rate value" step on a
    sample whose 'somatic variant rate' is a text of the form
    '(low|moderate|high) (N var/Mb)', for a [float] that does not read
    the character U+0002.  Where every sample before it has a text under
    the key, the step (whether or not a later sample makes it raise) has
    removed the key from the mapping of the sample instead of storing
    the number, and has kept the samples in place.  Where a sample
    before it has a number or nothing under the key, the step raises
    [TypeError] or [KeyError], and the sample and the ones after it are
    as they were: the annotated rate stays. *)
Theorem annotated_variant_rate_is_removed (st : state)
    (before after : Dict.t metrics) (s : string) (kv : metrics)
    (level digits : string) :
  In level ["low"; "moderate"; "high"] ->
  digits <> "" ->
  Str.all SomaticQC.digit_or_dot digits = true ->
  float SomaticQC.replacement = None ->
  qcdata st = (before ++ (s, kv) :: after)%list ->
  Dict.get "somatic variant rate" kv
    = Some (VStr (level ++ " (" ++ digits ++ " var/Mb)")) ->
  ((forall s0 kv0, In (s0, kv0) before ->
      exists v, Dict.get "somatic variant rate" kv0 = Some (VStr v)) ->
   exists r before' after',
     SomaticQC.parse_somatic_variant_rate st
     = (r,
        set_qcdata
          (before'
           ++ (s, Dict.remove "somatic variant rate" kv) :: after')%list st)
     /\ map fst before' = map fst before
     /\ map fst after' = map fst after
     /\ Dict.get "somatic variant rate"
          (Dict.remove "somatic variant rate" kv) = None)
  /\ ((exists s0 kv0,
         In (s0, kv0) before
         /\ (Dict.get "somatic variant rate" kv0 = None
             \/ exists x,
                  Dict.get "somatic variant rate" kv0 = Some (VFloat x))) ->
      exists e before',
        SomaticQC.parse_somatic_variant_rate st
        = (Raise e, set_qcdata (before' ++ (s, kv) :: after)%list st)
        /\ (e = TypeError \/ e = KeyError "somatic variant rate")
        /\ map fst before' = map fst before).
Proof.
  intros L N A F Q G. split.
  - intros B.
    destruct (each_sample_all SomaticQC.somatic_variant_rate
                (fun kv0 => exists v,
                   Dict.get "somatic variant rate" kv0 = Some (VStr v))
                (fun _ _ => True) before) as (before' & E & F2).
    { intros kv0 [v G0].
      destruct (somatic_variant_rate_on_text kv0 v G0) as [kv' E].
      eauto. }
    { exact B. }
    destruct (each_sample SomaticQC.somatic_variant_rate after)
      as [o after'] eqn:Ea.
    exists (match o with Some e => Raise e | None => Ok tt end),
      before', after'.
    split; [|split; [|split]].
    + unfold SomaticQC.parse_somatic_variant_rate, for_samples. rewrite Q.
      pose proof (each_sample_app_None SomaticQC.somatic_variant_rate before
                    before' ((s, kv) :: after) E) as K.
      rewrite K. clear K.
      cbn [each_sample].
      rewrite (proj1 (proj2 (@annotated_rate_body host level digits kv
                               L N A F G))).
      rewrite Ea. cbn [fst snd]. now destruct o.
    + pose proof (each_sample_names SomaticQC.somatic_variant_rate before)
        as K. now rewrite E in K.
    + pose proof (each_sample_names SomaticQC.somatic_variant_rate after)
        as K. now rewrite Ea in K.
    + apply get_remove_eq.
  - intros (s0 & kv0 & I & B).
    destruct (each_sample_raises SomaticQC.somatic_variant_rate
                (fun e => e = TypeError
                          \/ e = KeyError "somatic variant rate")
                before s0 kv0 somatic_variant_rate_error I)
      as (e & before' & E & Pe).
    { rewrite (somatic_variant_rate_fails kv0 B). eauto. }
    exists e, before'. split; [|split; [exact Pe|]].
    + unfold SomaticQC.parse_somatic_variant_rate, for_samples. rewrite Q.
      pose proof (each_sample_app_Some SomaticQC.somatic_variant_rate
                    before before' ((s, kv) :: after) e E) as K.
      now rewrite K.
    + pose proof (each_sample_names SomaticQC.somatic_variant_rate before)
        as K. now rewrite E in K.
Qed.

Lemma rename_key_present (V : Type) (old new : string) (d : Dict.t V)
    (v : V) :
  old <> new ->
  Dict.get old d = Some v ->
  exists d',
    SomaticQC.rename_key old new d = Ok d'
    /\ Dict.get new d' = Some v
    /\ Dict.get old d' = None
    /\ forall k, k <> old -> k <> new -> Dict.get k d' = Dict.get k d.
Proof.
  intros N G. unfold SomaticQC.rename_key, getitem. rewrite G.
  eexists. split; [reflexivity|]. split; [apply get_set_eq|]. split.
  - rewrite get_set_neq by congruence. apply get_remove_eq.
  - intros k N1 N2. rewrite get_set_neq by congruence.
    apply get_remove_neq. congruence.
Qed.

Lemma rename_key_raises (V : Type) (old new : string) (d : Dict.t V)
    (e : exn) :
  SomaticQC.rename_key old new d = Raise e -> e = KeyError old.
Proof.
  unfold SomaticQC.rename_key, getitem.
  destruct (Dict.get old d); intros H; now inversion H.
Qed.

(** X13: the renaming of 'variant count' in SomaticQC.  Without a
    'variant count' header it raises [KeyError('variant count')] and
    leaves the module as it is.  With the header, and every sample having
    a 'variant count', every sample keeps its place and has the count
    under 'variant count somaticqc', no 'variant count' any more, and its
    other keys as before, and so have the headers returned; a sample
    without a 'variant count' makes it raise
    [KeyError('variant count')]. *)
Theorem rename_variant_count_spec (headers : Dict.t header) (st : state) :
  (Dict.get "variant count" headers = None ->
   SomaticQC.rename_variant_count headers st
   = (Raise (KeyError "variant count"), st))
  /\ (forall hd,
        Dict.get "variant count" headers = Some hd ->
        (forall s kv, In (s, kv) (qcdata st) ->
           exists v, Dict.get "variant count" kv = Some v) ->
        exists h' st',
          SomaticQC.rename_variant_count headers st = (Ok h', st')
          /\ Dict.get "variant count somaticqc" h' = Some hd
          /\ Dict.get "variant count" h' = None
          /\ qcml st' = qcml st
          /\ Forall2
               (fun a b =>
                  fst a = fst b
                  /\ exists v,
                       Dict.get "variant count" (snd a) = Some v
                       /\ Dict.get "variant count somaticqc" (snd b) = Some v
                       /\ Dict.get "variant count" (snd b) = None
                       /\ forall k, k <> "variant count" ->
                            k <> "variant count somaticqc" ->
                            Dict.get k (snd b) = Dict.get k (snd a))
               (qcdata st) (qcdata st'))
  /\ (forall hd s kv,
        Dict.get "variant count" headers = Some hd ->
        In (s, kv) (qcdata st) ->
        Dict.get "variant count" kv = None ->
        exists st',
          SomaticQC.rename_variant_count headers st
          = (Raise (KeyError "variant count"), st')).
Proof.
  split; [|split].
  - intros G. unfold SomaticQC.rename_variant_count.
    unfold bind at 1, lift, SomaticQC.rename_key, getitem. now rewrite G.
  - intros hd G A. unfold SomaticQC.rename_variant_count.
    destruct (rename_key_present _ "variant count" "variant count somaticqc"
                headers hd ltac:(discriminate) G) as (h' & E & G1 & G2 & _).
    unfold bind at 1, lift. rewrite E.
    unfold bind at 1, for_samples.
    destruct (each_sample_all
                (SomaticQC.rename_key "variant count"
                   "variant count somaticqc")
                (fun kv => exists v, Dict.get "variant count" kv = Some v)
                (fun kv kv' =>
                   exists v,
                     Dict.get "variant count" kv = Some v
                     /\ Dict.get "variant count somaticqc" kv' = Some v
                     /\ Dict.get "variant count" kv' = None
                     /\ forall k, k <> "variant count" ->
                          k <> "variant count somaticqc" ->
                          Dict.get k kv' = Dict.get k kv)
                (qcdata st)) as (d' & Ed & F).
    { intros kv [v Gv].
      destruct (rename_key_present _ "variant count"
                  "variant count somaticqc" kv v ltac:(discriminate) Gv)
        as (kv' & Ek & K1 & K2 & K3).
      exists kv'. split; [exact Ek|]. exists v. now repeat split. }
    { exact A. }
    rewrite Ed. exists h'. eexists. split; [reflexivity|].
    repeat split; try assumption.
  - intros hd s kv G I Gk. unfold SomaticQC.rename_variant_count.
    destruct (rename_key_present _ "variant count" "variant count somaticqc"
                headers hd ltac:(discriminate) G) as (h' & E & _).
    unfold bind at 1, lift. rewrite E.
    unfold bind at 1, for_samples.
    destruct (each_sample_raises
                (SomaticQC.rename_key "variant count"
                   "variant count somaticqc")
                (fun e => e = KeyError "variant count")
                (qcdata st) s kv) as (e & d' & Ed & ->).
    { intros kv0 e0. apply rename_key_raises. }
    { exact I. }
    { unfold SomaticQC.rename_key, getitem. rewrite Gk. eauto. }
    rewrite Ed. eexists. reflexivity.
Qed.

End SomaticSteps.

(** ** Whole runs *)

Lemma first_missing_None (V : Type) (ks : list string) (d : Dict.t V) :
  first_missing ks d = None -> forall k, In k ks -> Dict.mem k d = true.
Proof.
  intros F k I. pose proof (find_none _ _ F k I) as H. cbv beta in H.
  now destruct (Dict.mem k d).
Qed.

Lemma first_missing_Some (V : Type) (ks : list string) (d : Dict.t V)
    (k : string) :
  first_missing ks d = Some k -> In k ks /\ Dict.mem k d = false.
Proof.
  intros F. apply find_some in F as [I H]. split; [exact I|].
  cbv beta in H. now destruct (Dict.mem k d).
Qed.

Lemma get_prepared (V W : Type) (g : string -> V -> W) (q : Dict.t V)
    (k : string) :
  Dict.get k (map (fun ke => (fst ke, g (fst ke) (snd ke))) q)
  = option_map (g k) (Dict.get k q).
Proof.
  induction q as [|[k0 v0] q IH]; [reflexivity|].
  cbn [map Dict.get fst snd].
  destruct (String.eqb_spec k0 k) as [->|_]; [reflexivity|exact IH].
Qed.

Lemma mem_prepared (V W : Type) (g : string -> V -> W) (q : Dict.t V)
    (k : string) :
  Dict.mem k (map (fun ke => (fst ke, g (fst ke) (snd ke))) q)
  = Dict.mem k q.
Proof.
  unfold Dict.mem. rewrite get_prepared. now destruct (Dict.get k q).
Qed.

Lemma subset_keys_present (V : Type) (d : Dict.t V) (ks : list string) :
  NoDup ks ->
  (forall k, In k ks -> Dict.mem k d = true) ->
  Dict.keys (dict_ordered_subset d ks) = ks.
Proof.
  intros N A. rewrite (proj2 (dict_ordered_subset_facts d ks)).
  rewrite first_occurrences_NoDup.
  - clear N. induction ks as [|k ks IH]; [reflexivity|].
    cbn [filter]. rewrite (A k (or_introl eq_refl)).
    f_equal. apply IH. intros k' I. apply A. now right.
  - assert (E : filter (fun k => Dict.mem k d) ks = ks).
    { clear N. induction ks as [|k ks IH]; [reflexivity|].
      cbn [filter]. rewrite (A k (or_introl eq_refl)).
      f_equal. apply IH. intros k' I. apply A. now right. }
    now rewrite E.
Qed.

Section Runs.
Context {host : Host}.

Lemma table_entry (q : Dict.t (Dict.t string)) (k : string) :
  table_wf q -> Dict.mem k q = true ->
  exists e, Dict.get k q = Some e /\ complete_entry e.
Proof.
  intros [_ A] M. unfold Dict.mem in M.
  destruct (Dict.get k q) as [e|] eqn:G; [|discriminate].
  exists e. split; [reflexivity|]. exact (A k e (get_In _ _ G)).
Qed.

(** The run of VariantQC after the parsing and the filtering: it does
    not look into the samples. *)
Lemma variantqc_run_outcome (files : list LogFile) (st1 : state) :
  parse_files files fresh = (Ok tt, st1) ->
  ignore_samples (qcdata st1) <> [] ->
  match first_missing variantqc_required (qcml st1) with
  | Some k =>
      exists st',
        VariantQC.run files = (Raise (KeyError k), st') /\ no_output st'
  | None =>
      exists st',
        VariantQC.run files = (Ok tt, st')
        /\ qcdata st' = ignore_samples (qcdata st1)
        /\ map (fun g => Dict.keys (snd g)) (general_stats st')
           = [["variant count"; "known variants %"]]
        /\ map snd (data_files st') = ["multiqc_variantqc"]
        /\ map (@sec_name pyfloat) (sections st')
           = ["Overview"; "Variant Count"]
  end.
Proof.
  intros P NE.
  assert (W : table_wf (qcml st1)).
  { exact (parse_files_named_table_wf cleaned files fresh (Ok tt) st1 P
             table_wf_fresh). }
  assert (O : no_output st1).
  { exact (same_no_output (parse_files_output _ _ P) no_output_fresh). }
  destruct O as (O1 & O2 & O3).
  pose (st2 := set_qcdata (ignore_samples (qcdata st1)) st1).
  pose (h0 := map (fun ke => (fst ke, header_of "VariantQC" (fst ke) (snd ke)))
                (qcml st1)).
  assert (PH : prepare_headers "VariantQC" st2 = (Ok h0, st2)).
  { apply prepare_headers_wf; [exact (proj1 W)|].
    intros k e I. exact (proj1 (proj2 W k e I)). }
  assert (FM : first_missing variantqc_required h0
               = first_missing variantqc_required (qcml st1)).
  { unfold first_missing. apply find_same. intros k. unfold h0.
    now rewrite mem_prepared. }
  assert (R : VariantQC.run files
              = bind (VariantQC.format_headers h0) VariantQC.report st2).
  { unfold VariantQC.run, VariantQC.init.
    erewrite bind_Ok by exact P.
    erewrite bind_Ok by exact (filter_samples_nonempty _ NE).
    erewrite bind_Ok by exact PH. reflexivity. }
  rewrite R. clear R.
  pose proof (update_all_spec
                [("variant count",
                  [("format", HStr "{:,.0f}"); ("scale", HStr "Blues")]);
                 ("known variants %",
                  [("suffix", HStr "%"); ("format", HStr "{:,.2f}");
                   ("max", HInt 100); ("scale", HStr "YlGnBu")]);
                 ("high-impact variants %",
                  [("suffix", HStr "%"); ("format", HStr "{:,.2f}");
                   ("min", HInt 0); ("minRange", HInt 10);
                   ("ceiling", HInt 10); ("scale", HStr "Reds")]);
                 ("homozygous variants %",
                  [("suffix", HStr "%"); ("format", HStr "{:,.2f}");
                   ("max", HInt 100); ("scale", HStr "Purples")]);
                 ("indel variants %",
                  [("suffix", HStr "%"); ("format", HStr "{:,.2f}");
                   ("minRange", HInt 20); ("ceiling", HInt 20);
                   ("scale", HStr "PuRd")]);
                 ("transition/transversion ratio",
                  [("format", HStr "{:,.2f}"); ("minRange", HInt 5);
                   ("ceiling", HInt 5); ("scale", HStr "RdBu")])]
                h0 st2) as U.
  rewrite <- variantqc_format_as_updates in U.
  change (first_missing (map fst _) h0)
    with (first_missing variantqc_required h0) in U.
  rewrite FM in U.
  destruct (first_missing variantqc_required (qcml st1)) as [k|] eqn:F1.
  - exists st2. split; [now erewrite bind_Raise by exact U|].
    now repeat split.
  - destruct U as (h' & U & _ & Mh & _).
    assert (Mq : forall k, In k variantqc_required -> Dict.mem k h' = true).
    { intros k I. rewrite Mh. unfold h0. rewrite mem_prepared.
      exact (first_missing_None _ _ _ F1 k I). }
    destruct (table_entry (qcml st1) "variant count" W
                (first_missing_None _ _ _ F1 _ (or_introl eq_refl)))
      as (e & G & (d & D) & (a & A)).
    assert (E : describe "variant count" st1 = (Ok d, st1)).
    { apply describe_complete. eauto. }
    eexists. split.
    + erewrite bind_Ok by exact U.
      unfold VariantQC.report, general_stats_addcols, write_data_file,
        add_section.
      rewrite !bind_modify, bind_gets, bind_modify.
      unfold make_description.
      erewrite bind_Ok
        by (apply (describe_same _ st1); [reflexivity|exact E]).
      rewrite bind_gets. reflexivity.
    + cbn [qcdata general_stats data_files sections modify snd].
      unfold st2, set_qcdata; cbn [qcdata general_stats data_files sections].
      rewrite O1, O2, O3. cbn [app map snd sec_name].
      rewrite subset_keys_present.
      * now repeat split.
      * repeat constructor; simpl; intuition discriminate.
      * intros k I. apply Mq. simpl in *. intuition.
Qed.

(** X14: a run of VariantQC whose files were parsed and left a sample
    after the filtering does not look into the samples.  Where the
    description table lacks one of the six keys of VariantQC, the run
    raises the [KeyError] of the first of them and hands nothing to the
    report.  Where it has them, the run returns, whatever the samples
    hold (also for a sample without any parameter): the data are the
    filtered samples, the general statistics get the columns
    'variant count' and 'known variants %', the data file is
    'multiqc_variantqc', and the sections are 'Overview' and
    'Variant Count'. *)
Theorem variantqc_run (files : list LogFile) (st1 : state) :
  parse_files files fresh = (Ok tt, st1) ->
  ignore_samples (qcdata st1) <> [] ->
  match first_missing variantqc_required (qcml st1) with
  | Some k =>
      exists st',
        VariantQC.run files = (Raise (KeyError k), st') /\ no_output st'
  | None =>
      exists st',
        VariantQC.run files = (Ok tt, st')
        /\ qcdata st' = ignore_samples (qcdata st1)
        /\ map (fun g => Dict.keys (snd g)) (general_stats st')
           = [["variant count"; "known variants %"]]
        /\ map snd (data_files st') = ["multiqc_variantqc"]
        /\ map (@sec_name pyfloat) (sections st')
           = ["Overview"; "Variant Count"]
  end.
Proof. exact (variantqc_run_outcome files st1). Qed.

Lemma add_bases_sequenced_run (st : state) :
  Dict.mem "bases sequenced (MB)" (qcml st) = true ->
  (forall s kv, In (s, kv) (qcdata st) ->
     exists x, Dict.get "bases sequenced (MB)" kv = Some (VFloat x)) ->
  exists d',
    ReadQC.add_bases_sequenced st
    = (Ok tt,
       set_qcdata d'
         (set_qcml
            (Dict.set "bases sequenced"
               [("description", "Bases sequenced in total.")]
               (Dict.remove "bases sequenced (MB)" (qcml st))) st))
    /\ Forall2
         (fun a b =>
            fst a = fst b
            /\ converted "bases sequenced (MB)" "bases sequenced"
                 (snd a) (snd b))
         (qcdata st) d'.
Proof.
  intros M A. unfold ReadQC.add_bases_sequenced.
  unfold bind, gets, lift, getitem, modify, for_samples.
  unfold Dict.mem in M.
  destruct (Dict.get "bases sequenced (MB)" (qcml st)) as [q|];
    [|discriminate].
  cbn [qcdata set_qcml].
  destruct (each_sample_all ReadQC.bases_sequenced
              (fun kv => exists x,
                 Dict.get "bases sequenced (MB)" kv = Some (VFloat x))
              (converted "bases sequenced (MB)" "bases sequenced")
              (qcdata st)) as (d' & E & F).
  { intros kv [x G]. exact (bases_sequenced_converted _ G). }
  { exact A. }
  rewrite E. exists d'. split; [reflexivity|exact F].
Qed.

Lemma mem_set (V : Type) (k k' : string) (v : V) (d : Dict.t V) :
  Dict.mem k' (Dict.set k v d) = (k =? k') || Dict.mem k' d.
Proof.
  unfold Dict.mem. destruct (String.eqb_spec k k') as [<-|N].
  - now rewrite get_set_eq.
  - now rewrite get_set_neq.
Qed.

Lemma mem_remove (V : Type) (k k' : string) (d : Dict.t V) :
  Dict.mem k' (Dict.remove k d) = negb (k =? k') && Dict.mem k' d.
Proof.
  unfold Dict.mem. destruct (String.eqb_spec k k') as [<-|N].
  - now rewrite get_remove_eq.
  - now rewrite get_remove_neq.
Qed.

Lemma In_remove (V : Type) (k k' : string) (v : V) (d : Dict.t V) :
  In (k', v) (Dict.remove k d) -> In (k', v) d.
Proof. unfold Dict.remove. intros I. now apply filter_In in I. Qed.

(** X15: a run of ReadQC whose files were parsed, which left a sample
    after the filtering, and in which the description table and every
    sample left have the megabase count as a number.  Where the
    description table lacks one of the six other keys of ReadQC, the run
    raises the [KeyError] of the first of them and hands nothing to the
    report.  Where it has them, the run returns: the data are the
    filtered samples with the base count derived, the general statistics
    get the columns 'read count', 'bases sequenced' and 'gc content %',
    the data file is 'multiqc_readqc', and the one section is
    'Overview'. *)
Theorem readqc_run (files : list LogFile) (st1 : state) :
  parse_files files fresh = (Ok tt, st1) ->
  ignore_samples (qcdata st1) <> [] ->
  Dict.mem "bases sequenced (MB)" (qcml st1) = true ->
  (forall s kv, In (s, kv) (ignore_samples (qcdata st1)) ->
     exists x, Dict.get "bases sequenced (MB)" kv = Some (VFloat x)) ->
  match first_missing
          ["Q20 read %"; "Q30 base %"; "gc content %"; "no base call %";
           "read count"; "read length"] (qcml st1) with
  | Some k =>
      exists st',
        ReadQC.run files = (Raise (KeyError k), st') /\ no_output st'
  | None =>
      exists st',
        ReadQC.run files = (Ok tt, st')
        /\ Forall2
             (fun a b =>
                fst a = fst b
                /\ converted "bases sequenced (MB)" "bases sequenced"
                     (snd a) (snd b))
             (ignore_samples (qcdata st1)) (qcdata st')
        /\ map (fun g => Dict.keys (snd g)) (general_stats st')
           = [["read count"; "bases sequenced"; "gc content %"]]
        /\ map snd (data_files st') = ["multiqc_readqc"]
        /\ map (@sec_name pyfloat) (sections st') = ["Overview"]
  end.
Proof.
  intros P NE MB A.
  assert (W : table_wf (qcml st1)).
  { exact (parse_files_named_table_wf cleaned files fresh (Ok tt) st1 P
             table_wf_fresh). }
  assert (O : no_output st1).
  { exact (same_no_output (parse_files_output _ _ P) no_output_fresh). }
  destruct O as (O1 & O2 & O3).
  pose (st2 := set_qcdata (ignore_samples (qcdata st1)) st1).
  destruct (add_bases_sequenced_run st2 MB A) as (d' & AB & F).
  pose (q3 := Dict.set "bases sequenced"
                [("description", "Bases sequenced in total.")]
                (Dict.remove "bases sequenced (MB)" (qcml st1))).
  pose (st3 := set_qcdata d' (set_qcml q3 st2)).
  change (ReadQC.add_bases_sequenced st2 = (Ok tt, st3)) in AB.
  pose (h0 := map (fun ke => (fst ke, header_of "ReadQC" (fst ke) (snd ke)))
                q3).
  assert (PH : prepare_headers "ReadQC" st3 = (Ok h0, st3)).
  { apply prepare_headers_wf.
    - apply NoDup_keys_set, NoDup_keys_remove. exact (proj1 W).
    - intros k e I. apply In_set in I as [E|I].
      + inversion E; subst. eexists. reflexivity.
      + apply In_remove in I. exact (proj1 (proj2 W k e I)). }
  assert (Mh : forall k, k <> "bases sequenced (MB)" ->
                 Dict.mem k h0
                 = ("bases sequenced" =? k) || Dict.mem k (qcml st1)).
  { intros k N. unfold h0, q3. rewrite mem_prepared, mem_set, mem_remove.
    destruct (String.eqb_spec "bases sequenced (MB)" k); [congruence|].
    reflexivity. }
  assert (FM : first_missing readqc_required h0
               = first_missing
                   ["Q20 read %"; "Q30 base %"; "gc content %";
                    "no base call %"; "read count"; "read length"]
                   (qcml st1)).
  { unfold first_missing, readqc_required. cbn [find].
    rewrite !Mh by discriminate.
    change ("bases sequenced" =? "Q20 read %") with false.
    change ("bases sequenced" =? "Q30 base %") with false.
    change ("bases sequenced" =? "gc content %") with false.
    change ("bases sequenced" =? "no base call %") with false.
    change ("bases sequenced" =? "bases sequenced") with true.
    change ("bases sequenced" =? "read count") with false.
    change ("bases sequenced" =? "read length") with false.
    cbn [orb negb]. reflexivity. }
  assert (R : ReadQC.run files
              = bind (ReadQC.format_headers h0) ReadQC.report st3).
  { unfold ReadQC.run, ReadQC.init.
    erewrite bind_Ok by exact P.
    erewrite bind_Ok by exact (filter_samples_nonempty _ NE).
    erewrite bind_Ok by exact AB.
    erewrite bind_Ok by exact PH. reflexivity. }
  rewrite R. clear R.
  pose proof (update_all_spec
    [("Q20 read %", ReadQC.percent [("max", HInt 100)]);
     ("Q30 base %", ReadQC.percent [("max", HInt 100)]);
     ("gc content %", ReadQC.percent [("max", HInt 100)]);
     ("no base call %", ReadQC.percent [("floor", HInt 1)]);
     ("bases sequenced",
      [("suffix", HConfig "base_count_prefix"); ("format", HStr "{:,.2f}");
       ("modify", HTimesConfig "base_count_multiplier")]);
     ("read count",
      [("suffix", HConfig "read_count_prefix"); ("format", HStr "{:,.2f}");
       ("modify", HTimesConfig "read_count_multiplier")]);
     ("read length", [("suffix", HStr "bp"); ("format", HStr "{:,.0f}")])]
    h0 st3) as U.
  rewrite <- readqc_format_as_updates in U.
  change (first_missing (map fst _) h0)
    with (first_missing readqc_required h0) in U.
  rewrite FM in U.
  destruct (first_missing _ (qcml st1)) as [k|] eqn:F1.
  - exists st3. split; [now erewrite bind_Raise by exact U|].
    now repeat split.
  - destruct U as (h' & U & _ & Mm & _).
    eexists. split.
    + erewrite bind_Ok by exact U.
      unfold ReadQC.report, general_stats_addcols, write_data_file,
        add_section.
      rewrite !bind_modify, bind_gets. reflexivity.
    + cbn [qcdata general_stats data_files sections modify snd].
      unfold st3, st2, set_qcdata, set_qcml;
        cbn [qcdata general_stats data_files sections].
      rewrite O1, O2, O3. cbn [app map snd sec_name].
      rewrite subset_keys_present.
      * now repeat split.
      * repeat constructor; simpl; intuition discriminate.
      * intros k I. rewrite Mm.
        assert (Nk : k <> "bases sequenced (MB)")
          by (simpl in I; intuition (subst; discriminate)).
        rewrite (Mh k Nk).
        destruct I as [<-|[<-|[<-|[]]]].
        -- rewrite (first_missing_None _ _ _ F1 "read count")
             by (simpl; auto 10). apply orb_true_r.
        -- reflexivity.
        -- rewrite (first_missing_None _ _ _ F1 "gc content %")
             by (simpl; auto 10). apply orb_true_r.
Qed.

Lemma Forall2_In_r (A B : Type) (R : A -> B -> Prop) (la : list A)
    (lb : list B) (b : B) :
  Forall2 R la lb -> In b lb -> exists a, In a la /\ R a b.
Proof.
  induction 1 as [|a b' la lb Rab F IH]; intros I; [destruct I|].
  destruct I as [<-|I].
  - exists a. split; [now left|exact Rab].
  - destruct (IH I) as (a' & Ia & Ra). exists a'. split; [now right|exact Ra].
Qed.

Lemma Forall2_compose (A B C : Type) (R : A -> B -> Prop)
    (S : B -> C -> Prop) (T : A -> C -> Prop) (la : list A) (lb : list B)
    (lc : list C) :
  (forall a b c, R a b -> S b c -> T a c) ->
  Forall2 R la lb -> Forall2 S lb lc -> Forall2 T la lc.
Proof.
  intros H F. revert lc.
  induction F as [|a b la lb Rab F IH]; intros lc G; inversion G; subst;
    constructor; eauto.
Qed.

Lemma try_update_mem (k k' : string) (u : header) (h : Dict.t header) :
  Dict.mem k'
    match update_header k u h with
    | Some h' => h'
    | None => h
    end
  = Dict.mem k' h.
Proof.
  unfold Dict.mem. rewrite try_update_get.
  destruct (String.eqb_spec k k') as [<-|_]; [|reflexivity].
  now destruct (Dict.get k h).
Qed.

Lemma somatic_variant_rate_raises (kv : metrics) (e : exn) :
  SomaticQC.somatic_variant_rate kv = Raise e ->
  e = TypeError \/ e = KeyError "somatic variant rate".
Proof.
  unfold SomaticQC.somatic_variant_rate, getitem.
  destruct (Dict.get _ kv) as [[x|s]|]; intros H.
  - inversion H. now left.
  - destruct (float _); discriminate.
  - inversion H. now right.
Qed.

Lemma somatic_variant_rate_text (kv : metrics) (v : string) :
  (forall s, contains (ascii_of_nat 2) s = true -> float s = None) ->
  Dict.get "somatic variant rate" kv = Some (VStr v) ->
  float v = None ->
  SomaticQC.somatic_variant_rate kv
  = Ok (Dict.remove "somatic variant rate" kv).
Proof.
  intros F G Fv. unfold SomaticQC.somatic_variant_rate, getitem. rewrite G.
  unfold SomaticQC.replacement.
  destruct (sub_keeps_or_marks SomaticQC.rate_re (ascii_of_nat 2) v)
    as [E|E].
  - now rewrite E, Fv.
  - now rewrite (F _ E).
Qed.

(** X16: a SomaticQC report whose 'somatic variant rate' is a plain
    number ends the run.  When the files were parsed and a sample left
    after the filtering has the rate stored as a number, the run raises
    [TypeError] (or the [KeyError] of an earlier sample without the key)
    and hands nothing to the report. *)
Theorem somaticqc_numeric_rate (files : list LogFile) (st1 : state)
    (s : string) (kv : metrics) (x : pyfloat) :
  SomaticQC.parse_files files fresh = (Ok tt, st1) ->
  In (s, kv) (ignore_samples (qcdata st1)) ->
  Dict.get "somatic variant rate" kv = Some (VFloat x) ->
  exists e st',
    SomaticQC.run files = (Raise e, st')
    /\ (e = TypeError \/ e = KeyError "somatic variant rate")
    /\ no_output st'.
Proof.
  intros P I G.
  assert (NE : ignore_samples (qcdata st1) <> []).
  { intros E. rewrite E in I. destruct I. }
  assert (O : no_output st1).
  { exact (same_no_output
             (parse_files_named_output SomaticQC.sample_name files fresh
                (Ok tt) st1 P) no_output_fresh). }
  pose (st2 := set_qcdata (ignore_samples (qcdata st1)) st1).
  destruct (each_sample_raises SomaticQC.somatic_variant_rate
              (fun e => e = TypeError \/ e = KeyError "somatic variant rate")
              (qcdata st2) s kv somatic_variant_rate_raises I)
    as (e & d' & E & Pe).
  { exists TypeError. unfold SomaticQC.somatic_variant_rate, getitem.
    now rewrite G. }
  exists e. eexists. split; [|split; [exact Pe|]].
  - unfold SomaticQC.run, SomaticQC.init.
    erewrite bind_Ok by exact P.
    erewrite bind_Ok by exact (filter_samples_nonempty _ NE).
    erewrite bind_Raise; [reflexivity|].
    unfold SomaticQC.parse_somatic_variant_rate, for_samples.
    fold st2. rewrite E. reflexivity.
  - destruct O as (O1 & O2 & O3). now repeat split.
Qed.

(** X17: a run of SomaticQC whose files were parsed, which left a sample
    after the filtering, and in which every sample left has a
    'variant count' and has the 'somatic variant rate' as a text (one
    that [float] does not read, as [parse_qcml] stores it), for a
    [float] that reads no text with the character U+0002.  Where the
    description table lacks one of the six keys of SomaticQC, the run
    raises the [KeyError] of the first of them and hands nothing to the
    report.  Where it has them, the run returns: no sample has a
    'somatic variant rate' any more, whatever its text was, the
    'variant count' stands under 'variant count somaticqc' and the other
    values are as parsed; the general statistics get the columns
    'sample correlation', 'somatic variant count' and
    'known somatic variants %', the data file is 'multiqc_somaticqc',
    and the sections are 'Overview' and 'Somatic Variant Count'. *)
Theorem somaticqc_run (files : list LogFile) (st1 : state) :
  (forall s, contains (ascii_of_nat 2) s = true -> float s = None) ->
  SomaticQC.parse_files files fresh = (Ok tt, st1) ->
  ignore_samples (qcdata st1) <> [] ->
  (forall s kv, In (s, kv) (ignore_samples (qcdata st1)) ->
     (exists v, Dict.get "somatic variant rate" kv = Some (VStr v)
                /\ float v = None)
     /\ exists c, Dict.get "variant count" kv = Some c) ->
  match first_missing somaticqc_required (qcml st1) with
  | Some k =>
      exists st',
        SomaticQC.run files = (Raise (KeyError k), st') /\ no_output st'
  | None =>
      exists st',
        SomaticQC.run files = (Ok tt, st')
        /\ Forall2
             (fun a b =>
                fst a = fst b
                /\ Dict.get "somatic variant rate" (snd b) = None
                /\ Dict.get "variant count" (snd b) = None
                /\ Dict.get "variant count somaticqc" (snd b)
                   = Dict.get "variant count" (snd a)
                /\ forall k,
                     k <> "somatic variant rate" -> k <> "variant count" ->
                     k <> "variant count somaticqc" ->
                     Dict.get k (snd b) = Dict.get k (snd a))
             (ignore_samples (qcdata st1)) (qcdata st')
        /\ map (fun g => Dict.keys (snd g)) (general_stats st')
           = [["sample correlation"; "somatic variant count";
               "known somatic variants %"]]
        /\ map snd (data_files st') = ["multiqc_somaticqc"]
        /\ map (@sec_name pyfloat) (sections st')
           = ["Overview"; "Somatic Variant Count"]
  end.
Proof.
  intros F P NE A.
  assert (W : table_wf (qcml st1)).
  { exact (parse_files_named_table_wf SomaticQC.sample_name files fresh
             (Ok tt) st1 P table_wf_fresh). }
  assert (O : no_output st1).
  { exact (same_no_output
             (parse_files_named_output SomaticQC.sample_name files fresh
                (Ok tt) st1 P) no_output_fresh). }
  destruct O as (O1 & O2 & O3).
  pose (st2 := set_qcdata (ignore_samples (qcdata st1)) st1).
  destruct (each_sample_all SomaticQC.somatic_variant_rate
              (fun kv =>
                 (exists v, Dict.get "somatic variant rate" kv = Some (VStr v)
                            /\ float v = None)
                 /\ exists c, Dict.get "variant count" kv = Some c)
              (fun kv kv' =>
                 kv' = Dict.remove "somatic variant rate" kv
                 /\ exists c, Dict.get "variant count" kv = Some c)
              (qcdata st2)) as (d1 & E1 & F1).
  { intros kv [(v & G & Fv) C]. eexists.
    split; [exact (somatic_variant_rate_text kv v F G Fv)|].
    split; [reflexivity|exact C]. }
  { exact A. }
  pose (st3 := set_qcdata d1 st2).
  assert (S1 : SomaticQC.parse_somatic_variant_rate st2 = (Ok tt, st3)).
  { unfold SomaticQC.parse_somatic_variant_rate, for_samples.
    now rewrite E1. }
  pose (h0 := map (fun ke => (fst ke, header_of "SomaticQC" (fst ke) (snd ke)))
                (qcml st1)).
  assert (PH : prepare_headers "SomaticQC" st3 = (Ok h0, st3)).
  { apply prepare_headers_wf; [exact (proj1 W)|].
    intros k e I. exact (proj1 (proj2 W k e I)). }
  assert (FM : first_missing somaticqc_required h0
               = first_missing somaticqc_required (qcml st1)).
  { unfold first_missing. apply find_same. intros k. unfold h0.
    now rewrite mem_prepared. }
  assert (R : SomaticQC.run files
              = bind (SomaticQC.format_required h0)
                  (fun headers =>
                     bind (SomaticQC.rename_variant_count
                             (SomaticQC.format_optional headers))
                       SomaticQC.report) st3).
  { unfold SomaticQC.run, SomaticQC.init.
    erewrite bind_Ok by exact P.
    erewrite bind_Ok by exact (filter_samples_nonempty _ NE).
    erewrite bind_Ok by exact S1.
    erewrite bind_Ok by exact PH. reflexivity. }
  rewrite R. clear R.
  pose proof (update_all_spec
    [("sample correlation", [("format", HStr "{:,.2f}"); ("max", HInt 1)]);
     ("variant count",
      [("format", HStr "{:,.0f}"); ("title", HStr "variant count")]);
     ("somatic variant count", [("format", HStr "{:,.0f}")]);
     ("known somatic variants %",
      [("suffix", HStr "%"); ("format", HStr "{:,.2f}"); ("max", HInt 100)]);
     ("somatic indel %",
      [("suffix", HStr "%"); ("format", HStr "{:,.2f}");
       ("minRange", HInt 20); ("ceiling", HInt 20)]);
     ("somatic variant rate",
      [("suffix", HStr "Variants/Mb"); ("format", HStr "{:,.2f}");
       ("min", HInt 0); ("minRange", HInt 10); ("ceiling", HInt 10)])]
    h0 st3) as U.
  rewrite <- somaticqc_format_as_updates in U.
  change (first_missing (map fst _) h0)
    with (first_missing somaticqc_required h0) in U.
  rewrite FM in U.
  destruct (first_missing somaticqc_required (qcml st1)) as [k|] eqn:FQ.
  - exists st3. split; [now erewrite bind_Raise by exact U|].
    now repeat split.
  - destruct U as (h' & U & _ & Mh & _).
    erewrite bind_Ok by exact U.
    set (h2 := SomaticQC.format_optional h').
    assert (M2 : forall k, Dict.mem k h2 = Dict.mem k (qcml st1)).
    { intros k. unfold h2, SomaticQC.format_optional. cbv zeta.
      rewrite !try_update_mem, Mh. unfold h0. apply mem_prepared. }
    assert (Mvc : Dict.mem "variant count" h2 = true).
    { rewrite M2.
      apply (first_missing_None _ _ _ FQ). simpl. auto. }
    unfold Dict.mem in Mvc.
    destruct (Dict.get "variant count" h2) as [hd|] eqn:Gh; [|discriminate].
    clear Mvc.
    destruct (rename_key_present _ "variant count" "variant count somaticqc"
                h2 hd ltac:(discriminate) Gh) as (h3 & E3 & _ & _ & K3).
    destruct (each_sample_all
                (SomaticQC.rename_key "variant count"
                   "variant count somaticqc")
                (fun kv => exists v, Dict.get "variant count" kv = Some v)
                (fun kv kv' =>
                   exists v,
                     Dict.get "variant count" kv = Some v
                     /\ Dict.get "variant count somaticqc" kv' = Some v
                     /\ Dict.get "variant count" kv' = None
                     /\ forall k, k <> "variant count" ->
                          k <> "variant count somaticqc" ->
                          Dict.get k kv' = Dict.get k kv)
                d1) as (d2 & E2 & F2).
    { intros kv [v Gv].
      destruct (rename_key_present _ "variant count"
                  "variant count somaticqc" kv v ltac:(discriminate) Gv)
        as (kv' & Ek & K1 & K2 & K4).
      exists kv'. split; [exact Ek|]. exists v. now repeat split. }
    { intros s kv' I.
      destruct (Forall2_In_r _ _ _ _ _ _ F1 I) as ([s0 kv] & _ & _ & Rr).
      cbn [snd] in Rr. destruct Rr as [-> (c & C)].
      exists c. rewrite get_remove_neq by discriminate. exact C. }
    pose (st4 := set_qcdata d2 st3).
    assert (RV : SomaticQC.rename_variant_count h2 st3 = (Ok h3, st4)).
    { unfold SomaticQC.rename_variant_count.
      unfold bind at 1, lift. rewrite E3.
      unfold bind at 1, for_samples.
      change (qcdata st3) with d1. rewrite E2. reflexivity. }
    erewrite bind_Ok by exact RV.
    destruct (table_entry (qcml st1) "somatic variant count" W)
      as (e & G & (d & D) & (a & Aa)).
    { apply (first_missing_None _ _ _ FQ). simpl. auto. }
    assert (E : describe "somatic variant count" st1 = (Ok d, st1)).
    { apply describe_complete. eauto. }
    eexists. split.
    + unfold SomaticQC.report, general_stats_addcols, write_data_file,
        add_section.
      rewrite !bind_modify, bind_gets, bind_modify.
      unfold make_description.
      erewrite bind_Ok
        by (apply (describe_same _ st1); [reflexivity|exact E]).
      rewrite bind_gets. reflexivity.
    + cbn [qcdata general_stats data_files sections modify snd].
      unfold st4, st3, st2, set_qcdata;
        cbn [qcdata general_stats data_files sections].
      rewrite O1, O2, O3. cbn [app map snd sec_name].
      rewrite subset_keys_present.
      * split; [|now repeat split].
        eapply Forall2_compose; [|exact F1|exact F2].
        intros [sa a0] [sb b0] [sc c0] (Ea & -> & c & C)
          (Eb & v & V1 & V2 & V3 & V4).
        cbn [fst snd] in *.
        split; [congruence|]. split; [|split; [exact V3|split]].
        -- rewrite V4 by discriminate. apply get_remove_eq.
        -- rewrite V2, <- V1. apply get_remove_neq. discriminate.
        -- intros k N1 N2 N3. rewrite V4 by assumption.
           apply get_remove_neq. congruence.
      * repeat constructor; simpl; intuition discriminate.
      * intros k I.
        assert (Nk : k <> "variant count" /\ k <> "variant count somaticqc")
          by (simpl in I; split; intuition (subst; discriminate)).
        unfold Dict.mem. rewrite (K3 k (proj1 Nk) (proj2 Nk)).
        fold (Dict.mem k h2). rewrite M2.
        apply (first_missing_None _ _ _ FQ). simpl in *. intuition.
Qed.

Lemma add_bases_usable_run (st : state) :
  Dict.mem "bases usable (MB)" (qcml st) = true ->
  (forall s kv, In (s, kv) (qcdata st) ->
     exists x, Dict.get "bases usable (MB)" kv = Some (VFloat x)) ->
  exists d',
    MappingQC.add_bases_usable st
    = (Ok tt,
       set_qcdata d'
         (set_qcml
            (Dict.set "bases usable"
               [("description", "Bases sequenced in total.")]
               (Dict.remove "bases usable (MB)" (qcml st))) st))
    /\ Forall2
         (fun a b =>
            fst a = fst b
            /\ converted "bases usable (MB)" "bases usable"
                 (snd a) (snd b))
         (qcdata st) d'.
Proof.
  intros M A. unfold MappingQC.add_bases_usable.
  unfold bind, gets, lift, getitem, modify, for_samples.
  unfold Dict.mem in M.
  destruct (Dict.get "bases usable (MB)" (qcml st)) as [q|];
    [|discriminate].
  cbn [qcdata set_qcml].
  destruct (each_sample_all MappingQC.bases_usable
              (fun kv => exists x,
                 Dict.get "bases usable (MB)" kv = Some (VFloat x))
              (converted "bases usable (MB)" "bases usable")
              (qcdata st)) as (d' & E & F).
  { intros kv [x G]. exact (bases_usable_converted _ G). }
  { exact A. }
  rewrite E. exists d'. split; [reflexivity|exact F].
Qed.

Lemma mem_of_keys (V W : Type) (d : Dict.t V) (d' : Dict.t W)
    (k : string) :
  Dict.keys d = Dict.keys d' -> Dict.mem k d = Dict.mem k d'.
Proof.
  unfold Dict.mem, Dict.keys. revert d'.
  induction d as [|[k0 v] d IH]; intros [|[k1 w] d'] E; try discriminate;
    [reflexivity|].
  cbn [map fst] in E. inversion E; subst. cbn [Dict.get].
  destruct (k1 =? k); [reflexivity|]. now apply IH.
Qed.

Lemma find_same_in (A : Type) (p q : A -> bool) (l : list A) :
  (forall a, In a l -> p a = q a) -> find p l = find q l.
Proof.
  intros E. induction l as [|a l IH]; [reflexivity|].
  cbn [find]. rewrite (E a (or_introl eq_refl)), IH; [reflexivity|].
  intros b I. apply E. now right.
Qed.

Lemma mappingqc_format_optional_keys (h : Dict.t header) :
  Dict.keys (MappingQC.format_optional h) = Dict.keys h.
Proof.
  unfold MappingQC.format_optional. cbv zeta.
  set (h1 := match update_header "duplicate read %" _ h with
             | Some h' => h' | None => h end).
  set (h2 := match update_header "properly-paired read %" _ h1 with
             | Some h' =>
                 match update_header "insert size" _ h' with
                 | Some h'' => h'' | None => h' end
             | None => h1 end).
  set (h3 := match update_header "SNV allele frequency deviation" _ h2
             with Some h' => h' | None => h2 end).
  assert (K1 : Dict.keys h1 = Dict.keys h) by apply try_update_keys.
  assert (K2 : Dict.keys h2 = Dict.keys h1).
  { unfold h2.
    destruct (update_header "properly-paired read %" _ h1) as [h'|] eqn:E;
      [|reflexivity].
    rewrite try_update_keys, (update_header_try _ _ _ _ E).
    apply try_update_keys. }
  assert (K3 : Dict.keys h3 = Dict.keys h2) by apply try_update_keys.
  destruct (update_header "target region read depth" _ h3) as [h'|] eqn:E.
  - rewrite update_coverage_keys, (update_header_try _ _ _ _ E),
      try_update_keys. congruence.
  - congruence.
Qed.

(** The coverage part on a description table whose entry of the read
    depth is as [parse_qcml] writes it. *)
Lemma report_coverage_outcome (headers : Dict.t header) (st : state) :
  (forall e, Dict.get "target region read depth" (qcml st) = Some e ->
     complete_entry e) ->
  exists st',
    MappingQC.report_coverage headers st
    = (if Dict.mem "target region read depth" (qcml st)
       then match first_missing
                    (map MappingQC.coverage_key MappingQC.coverage_values)
                    headers with
            | Some k => Raise (KeyError k)
            | None => Ok tt
            end
       else Raise (KeyError "target region read depth"), st')
    /\ map (@sec_name pyfloat) (sections st')
       = (map (@sec_name pyfloat) (sections st)
          ++ "Coverage"
             :: (if Dict.mem "target region read depth" (qcml st)
                 then "Sequencing Depth"
                      :: match first_missing
                                 (map MappingQC.coverage_key
                                    MappingQC.coverage_values) headers with
                         | Some _ => []
                         | None => ["Target Coverage"]
                         end
                 else []))%list
    /\ general_stats st' = general_stats st
    /\ data_files st' = data_files st
    /\ qcdata st' = qcdata st.
Proof.
  intros W. destruct (Dict.mem "target region read depth" (qcml st)) eqn:Mr.
  - unfold Dict.mem in Mr.
    destruct (Dict.get "target region read depth" (qcml st)) as [e|] eqn:G;
      [|discriminate].
    destruct (W e eq_refl) as ((d & D) & (a & A)).
    assert (E : describe "target region read depth" st = (Ok d, st)).
    { apply describe_complete. eauto. }
    destruct (first_missing _ headers) as [k|] eqn:FM.
    + eexists. split.
      * unfold MappingQC.report_coverage, add_section.
        rewrite bind_gets, bind_modify. unfold make_description.
        erewrite bind_Ok
          by (apply (describe_same _ st); [reflexivity|exact E]).
        rewrite bind_gets, bind_modify, bind_gets.
        erewrite bind_Raise by (rewrite cats_loop, FM; reflexivity).
        reflexivity.
      * cbn [sections general_stats data_files qcdata].
        rewrite !map_app, <- app_assoc. now repeat split.
    + eexists. split.
      * unfold MappingQC.report_coverage, add_section.
        rewrite bind_gets, bind_modify. unfold make_description.
        erewrite bind_Ok
          by (apply (describe_same _ st); [reflexivity|exact E]).
        rewrite bind_gets, bind_modify, bind_gets.
        erewrite bind_Ok by (rewrite cats_loop, FM; reflexivity).
        reflexivity.
      * cbn [sections general_stats data_files qcdata].
        rewrite !map_app, <- !app_assoc. now repeat split.
  - assert (E : describe "target region read depth" st
                = (Raise (KeyError "target region read depth"), st)).
    { rewrite describe_spec. unfold Dict.mem in Mr.
      destruct (Dict.get _ (qcml st)); [discriminate|reflexivity]. }
    clear W.
    eexists. split.
    + unfold MappingQC.report_coverage, add_section.
      rewrite bind_gets, bind_modify. unfold make_description.
      erewrite bind_Raise
        by (apply (describe_same _ st); [reflexivity|exact E]).
      reflexivity.
    + cbn [sections general_stats data_files qcdata].
      rewrite map_app. now repeat split.
Qed.

(** X18: a run of MappingQC whose files were parsed, which left a sample
    after the filtering, and in which the description table and every
    sample left have the usable megabases as a number.  Where the
    description table lacks one of the four other required keys, the run
    raises the [KeyError] of the first of them and hands nothing to the
    report.  Where it has them, the general statistics, the data file
    'multiqc_mappingqc' and the section 'Overview' are handed over, and
    the run returns when no file had a 'target region 10x %'.  With one,
    the coverage part runs: it adds 'Coverage', then raises
    [KeyError('target region read depth')] when no file had a read
    depth, else adds 'Sequencing Depth', then raises the [KeyError] of
    the first coverage value that no file had, else adds
    'Target Coverage' and returns.  The read depth is a column of the
    general statistics when a file had it. *)
Theorem mappingqc_run (files : list LogFile) (st1 : state) :
  parse_files files fresh = (Ok tt, st1) ->
  ignore_samples (qcdata st1) <> [] ->
  Dict.mem "bases usable (MB)" (qcml st1) = true ->
  (forall s kv, In (s, kv) (ignore_samples (qcdata st1)) ->
     exists x, Dict.get "bases usable (MB)" kv = Some (VFloat x)) ->
  match first_missing
          ["trimmed base %"; "clipped base %"; "mapped read %";
           "on-target read %"] (qcml st1) with
  | Some k =>
      exists st',
        MappingQC.run files = (Raise (KeyError k), st') /\ no_output st'
  | None =>
      exists st',
        MappingQC.run files
        = (if Dict.mem "target region 10x %" (qcml st1)
           then if Dict.mem "target region read depth" (qcml st1)
                then match first_missing
                             (map MappingQC.coverage_key
                                MappingQC.coverage_values) (qcml st1) with
                     | Some k => Raise (KeyError k)
                     | None => Ok tt
                     end
                else Raise (KeyError "target region read depth")
           else Ok tt, st')
        /\ map (@sec_name pyfloat) (sections st')
           = "Overview"
             :: (if Dict.mem "target region 10x %" (qcml st1)
                 then "Coverage"
                      :: (if Dict.mem "target region read depth" (qcml st1)
                          then "Sequencing Depth"
                               :: match first_missing
                                          (map MappingQC.coverage_key
                                             MappingQC.coverage_values)
                                          (qcml st1) with
                                  | Some _ => []
                                  | None => ["Target Coverage"]
                                  end
                          else [])
                 else [])
        /\ map (fun g => Dict.keys (snd g)) (general_stats st')
           = [(["bases usable"; "mapped read %"; "on-target read %"]
               ++ (if Dict.mem "target region read depth" (qcml st1)
                   then ["target region read depth"] else []))%list]
        /\ map snd (data_files st') = ["multiqc_mappingqc"]
        /\ Forall2
             (fun a b =>
                fst a = fst b
                /\ converted "bases usable (MB)" "bases usable"
                     (snd a) (snd b))
             (ignore_samples (qcdata st1)) (qcdata st')
  end.
Proof.
  intros P NE MB A.
  assert (W : table_wf (qcml st1)).
  { exact (parse_files_named_table_wf cleaned files fresh (Ok tt) st1 P
             table_wf_fresh). }
  assert (O : no_output st1).
  { exact (same_no_output (parse_files_output _ _ P) no_output_fresh). }
  destruct O as (O1 & O2 & O3).
  pose (st2 := set_qcdata (ignore_samples (qcdata st1)) st1).
  destruct (add_bases_usable_run st2 MB A) as (d' & AB & F).
  pose (q3 := Dict.set "bases usable"
                [("description", "Bases sequenced in total.")]
                (Dict.remove "bases usable (MB)" (qcml st1))).
  pose (st3 := set_qcdata d' (set_qcml q3 st2)).
  change (MappingQC.add_bases_usable st2 = (Ok tt, st3)) in AB.
  pose (h0 := map (fun ke => (fst ke, header_of "MappingQC" (fst ke) (snd ke)))
                q3).
  assert (PH : prepare_headers "MappingQC" st3 = (Ok h0, st3)).
  { apply prepare_headers_wf.
    - apply NoDup_keys_set, NoDup_keys_remove. exact (proj1 W).
    - intros k e I. apply In_set in I as [E|I].
      + inversion E; subst. eexists. reflexivity.
      + apply In_remove in I. exact (proj1 (proj2 W k e I)). }
  assert (Mh : forall k, k <> "bases usable (MB)" ->
                 Dict.mem k h0
                 = ("bases usable" =? k) || Dict.mem k (qcml st1)).
  { intros k N. unfold h0, q3. rewrite mem_prepared, mem_set, mem_remove.
    destruct (String.eqb_spec "bases usable (MB)" k); [congruence|].
    reflexivity. }
  assert (FM : first_missing mappingqc_required h0
               = first_missing
                   ["trimmed base %"; "clipped base %"; "mapped read %";
                    "on-target read %"] (qcml st1)).
  { unfold first_missing, mappingqc_required. cbn [find].
    rewrite !Mh by discriminate.
    change ("bases usable" =? "trimmed base %") with false.
    change ("bases usable" =? "clipped base %") with false.
    change ("bases usable" =? "mapped read %") with false.
    change ("bases usable" =? "bases usable") with true.
    change ("bases usable" =? "on-target read %") with false.
    cbn [orb negb]. reflexivity. }
  assert (R : MappingQC.run files
              = bind (MappingQC.format_required h0)
                  (fun headers =>
                     bind (MappingQC.report_overview
                             (MappingQC.format_optional headers))
                       (fun _ =>
                          if Dict.mem "target region 10x %"
                               (MappingQC.format_optional headers)
                          then MappingQC.report_coverage
                                 (MappingQC.format_optional headers)
                          else ret tt)) st3).
  { unfold MappingQC.run, MappingQC.init.
    erewrite bind_Ok by exact P.
    erewrite bind_Ok by exact (filter_samples_nonempty _ NE).
    erewrite bind_Ok by exact AB.
    erewrite bind_Ok by exact PH. reflexivity. }
  rewrite R. clear R.
  pose proof (update_all_spec
    [("trimmed base %",
      MappingQC.percent [("floor", HInt 1); ("scale", HStr "PuBu")]);
     ("clipped base %",
      MappingQC.percent [("floor", HInt 1); ("scale", HStr "PuRd")]);
     ("mapped read %",
      MappingQC.percent [("max", HInt 100); ("scale", HStr "Reds")]);
     ("bases usable",
      [("suffix", HConfig "base_count_prefix"); ("format", HStr "{:,.2f}");
       ("modify", HTimesConfig "base_count_multiplier");
       ("scale", HStr "Greens")]);
     ("on-target read %",
      MappingQC.percent [("max", HInt 100); ("scale", HStr "Purples")])]
    h0 st3) as U.
  rewrite <- mappingqc_format_as_updates in U.
  change (first_missing (map fst _) h0)
    with (first_missing mappingqc_required h0) in U.
  rewrite FM in U.
  destruct (first_missing _ (qcml st1)) as [k|] eqn:F1.
  - exists st3. split; [now erewrite bind_Raise by exact U|].
    now repeat split.
  - destruct U as (h' & U & Kh & _ & _).
    erewrite bind_Ok by exact U.
    set (h2 := MappingQC.format_optional h').
    assert (M2 : forall k, k <> "bases usable (MB)" ->
                   Dict.mem k h2
                   = ("bases usable" =? k) || Dict.mem k (qcml st1)).
    { intros k N. rewrite <- (Mh k N). apply mem_of_keys.
      unfold h2. now rewrite mappingqc_format_optional_keys. }
    assert (NC : forall k,
               In k (map MappingQC.coverage_key MappingQC.coverage_values) ->
               Dict.mem k h2 = Dict.mem k (qcml st1)).
    { intros k I. vm_compute in I.
      repeat (destruct I as [<-|I]; [now rewrite M2 by discriminate|]).
      destruct I. }
    assert (FC : first_missing
                   (map MappingQC.coverage_key MappingQC.coverage_values) h2
                 = first_missing
                     (map MappingQC.coverage_key MappingQC.coverage_values)
                     (qcml st1)).
    { unfold first_missing. apply find_same_in. intros k I.
      now rewrite (NC k I). }
    assert (RO : exists st4,
               MappingQC.report_overview h2 st3 = (Ok tt, st4)
               /\ qcml st4 = q3 /\ qcdata st4 = d'
               /\ general_stats st4
                  = [(d', dict_ordered_subset h2
                            ["bases usable"; "mapped read %";
                             "on-target read %";
                             "target region read depth"])]
               /\ map snd (data_files st4) = ["multiqc_mappingqc"]
               /\ map (@sec_name pyfloat) (sections st4) = ["Overview"]).
    { eexists. split.
      - unfold MappingQC.report_overview, general_stats_addcols,
          write_data_file, add_section.
        rewrite !bind_modify, bind_gets. reflexivity.
      - cbn [qcml qcdata general_stats data_files sections modify snd].
        unfold st3, st2, set_qcdata, set_qcml;
          cbn [qcml qcdata general_stats data_files sections].
        rewrite O1, O2, O3. now repeat split. }
    destruct RO as (st4 & RO & Q4 & D4 & G4 & DF4 & S4).
    erewrite bind_Ok by exact RO.
    assert (GS : map (fun g => Dict.keys (snd g)) (general_stats st4)
                 = [(["bases usable"; "mapped read %"; "on-target read %"]
                     ++ (if Dict.mem "target region read depth" (qcml st1)
                         then ["target region read depth"] else []))%list]).
    { rewrite G4. cbn [map snd].
      rewrite (proj2 (dict_ordered_subset_facts h2 _)). cbn [filter].
      rewrite !M2 by discriminate.
      change ("bases usable" =? "bases usable") with true.
      change ("bases usable" =? "mapped read %") with false.
      change ("bases usable" =? "on-target read %") with false.
      change ("bases usable" =? "target region read depth") with false.
      cbn [orb].
      rewrite (first_missing_None _ _ _ F1 "mapped read %")
        by (simpl; auto).
      rewrite (first_missing_None _ _ _ F1 "on-target read %")
        by (simpl; auto).
      now destruct (Dict.mem "target region read depth" (qcml st1)). }
    rewrite (M2 "target region 10x %") by discriminate.
    change ("bases usable" =? "target region 10x %") with false.
    cbn [orb].
    destruct (Dict.mem "target region 10x %" (qcml st1)) eqn:M10.
    + assert (G4r : Dict.get "target region read depth" (qcml st4)
                    = Dict.get "target region read depth" (qcml st1)).
      { rewrite Q4. unfold q3. rewrite get_set_neq by discriminate.
        apply get_remove_neq. discriminate. }
      destruct (report_coverage_outcome h2 st4)
        as (st' & RC & SC & GC & DC & QC).
      { intros e G. rewrite G4r in G.
        exact (proj2 W _ e (get_In _ _ G)). }
      unfold Dict.mem in RC, SC. rewrite G4r in RC, SC.
      fold (Dict.mem "target region read depth" (qcml st1)) in RC, SC.
      rewrite FC in RC, SC.
      exists st'. split; [exact RC|]. split; [|split; [|split]].
      * rewrite SC, S4. reflexivity.
      * rewrite GC. exact GS.
      * rewrite DC. exact DF4.
      * rewrite QC, D4. exact F.
    + exists st4. split; [reflexivity|]. split; [exact S4|].
      split; [exact GS|]. split; [exact DF4|]. rewrite D4. exact F.
Qed.

(** ** A run without a sample, and a run with an empty sample *)

(** C5: when the files were parsed and no sample is left after the
    filtering, each of the four modules raises [UserWarning] and has
    handed no general-statistics column, no data file and no section to
    the host. *)
Theorem no_sample_raises_UserWarning (files : list LogFile) (st1 : state) :
  ignore_samples (qcdata st1) = [] ->
  (parse_files files fresh = (Ok tt, st1) ->
   Forall
     (fun run : list LogFile -> result unit * state =>
        exists st', run files = (Raise UserWarning, st') /\ no_output st')
     [ReadQC.run; MappingQC.run; VariantQC.run])
  /\ (SomaticQC.parse_files files fresh = (Ok tt, st1) ->
      exists st',
        SomaticQC.run files = (Raise UserWarning, st') /\ no_output st').
Proof.
  intros E.
  assert (N : no_output st1 -> no_output (set_qcdata (Dict.empty _) st1)).
  { intros (O1 & O2 & O3). now repeat split. }
  split.
  - intros P.
    assert (O : no_output st1).
    { exact (same_no_output (parse_files_output _ _ P) no_output_fresh). }
    repeat constructor; exists (set_qcdata (Dict.empty _) st1);
      (split; [|exact (N O)]).
    + unfold ReadQC.run, ReadQC.init.
      erewrite bind_Ok by exact P.
      now erewrite bind_Raise by exact (filter_samples_empty _ E).
    + unfold MappingQC.run, MappingQC.init.
      erewrite bind_Ok by exact P.
      now erewrite bind_Raise by exact (filter_samples_empty _ E).
    + unfold VariantQC.run, VariantQC.init.
      erewrite bind_Ok by exact P.
      now erewrite bind_Raise by exact (filter_samples_empty _ E).
  - intros P.
    assert (O : no_output st1).
    { exact (same_no_output
               (parse_files_named_output SomaticQC.sample_name files fresh
                  (Ok tt) st1 P) no_output_fresh). }
    exists (set_qcdata (Dict.empty _) st1). split; [|exact (N O)].
    unfold SomaticQC.run, SomaticQC.init.
    erewrite bind_Ok by exact P.
    now erewrite bind_Raise by exact (filter_samples_empty _ E).
Qed.

(** C4 (as amended): when the files were parsed and a sample left after
    the filtering has no quality parameter, no module ends with the
    [UserWarning] that stands for "no data found".  ReadQC, MappingQC
    and SomaticQC end before anything is handed to the report, with the
    [KeyError] of the key they read in every sample (the megabase key,
    'somatic variant rate') or a [TypeError] of an earlier sample.
    VariantQC, which reads no sample, ends as it would without the
    sample: with the [KeyError] of the first of its six keys that the
    description table lacks, or else it returns, with the empty sample
    in its data and both sections handed over. *)
Theorem empty_sample_raises (files : list LogFile) (st1 : state)
    (s : string) :
  In (s, Dict.empty _) (ignore_samples (qcdata st1)) ->
  (parse_files files fresh = (Ok tt, st1) ->
   (exists e st',
      ReadQC.run files = (Raise e, st')
      /\ (e = KeyError "bases sequenced (MB)" \/ e = TypeError)
      /\ e <> UserWarning /\ no_output st')
   /\ (exists e st',
         MappingQC.run files = (Raise e, st')
         /\ (e = KeyError "bases usable (MB)" \/ e = TypeError)
         /\ e <> UserWarning /\ no_output st')
   /\ match first_missing variantqc_required (qcml st1) with
      | Some k =>
          exists st',
            VariantQC.run files = (Raise (KeyError k), st')
            /\ no_output st'
      | None =>
          exists st',
            VariantQC.run files = (Ok tt, st')
            /\ In (s, Dict.empty _) (qcdata st')
            /\ map (@sec_name pyfloat) (sections st')
               = ["Overview"; "Variant Count"]
      end)
  /\ (SomaticQC.parse_files files fresh = (Ok tt, st1) ->
      exists e st',
        SomaticQC.run files = (Raise e, st')
        /\ (e = KeyError "somatic variant rate" \/ e = TypeError)
        /\ e <> UserWarning /\ no_output st').
Proof.
  intros I.
  assert (NE : ignore_samples (qcdata st1) <> []).
  { intros E. rewrite E in I. destruct I. }
  pose (st2 := set_qcdata (ignore_samples (qcdata st1)) st1).
  assert (N2 : no_output st1 -> no_output st2).
  { intros (O1 & O2 & O3). now repeat split. }
  split.
  - intros P.
    assert (O : no_output st1).
    { exact (same_no_output (parse_files_output _ _ P) no_output_fresh). }
    split; [|split].
    + destruct (add_bases_sequenced_empty st2 s I) as (e & st' & A & Pe & S).
      exists e, st'. unfold ReadQC.run, ReadQC.init.
      erewrite bind_Ok by exact P.
      erewrite bind_Ok by exact (filter_samples_nonempty _ NE).
      erewrite bind_Raise by exact A.
      split; [reflexivity|]. split; [exact Pe|].
      split; [destruct Pe; subst; discriminate|].
      exact (same_no_output S (N2 O)).
    + destruct (add_bases_usable_empty st2 s I) as (e & st' & A & Pe & S).
      exists e, st'. unfold MappingQC.run, MappingQC.init.
      erewrite bind_Ok by exact P.
      erewrite bind_Ok by exact (filter_samples_nonempty _ NE).
      erewrite bind_Raise by exact A.
      split; [reflexivity|]. split; [exact Pe|].
      split; [destruct Pe; subst; discriminate|].
      exact (same_no_output S (N2 O)).
    + pose proof (variantqc_run_outcome files st1 P NE) as R.
      destruct (first_missing variantqc_required (qcml st1)) as [k|];
        [exact R|].
      destruct R as (st' & R & D & _ & _ & S).
      exists st'. split; [exact R|]. split; [|exact S].
      rewrite D. exact I.
  - intros P.
    assert (O : no_output st1).
    { exact (same_no_output
               (parse_files_named_output SomaticQC.sample_name files fresh
                  (Ok tt) st1 P) no_output_fresh). }
    destruct (each_sample_raises SomaticQC.somatic_variant_rate
                (fun e => e = KeyError "somatic variant rate"
                          \/ e = TypeError)
                (qcdata st2) s (Dict.empty _))
      as (e & d' & E & Pe).
    { intros kv e H. destruct (somatic_variant_rate_error kv e H); auto. }
    { exact I. }
    { eexists. reflexivity. }
    exists e. eexists. split; [|split; [exact Pe|split]].
    + unfold SomaticQC.run, SomaticQC.init.
      erewrite bind_Ok by exact P.
      erewrite bind_Ok by exact (filter_samples_nonempty _ NE).
      erewrite bind_Raise; [reflexivity|].
      unfold SomaticQC.parse_somatic_variant_rate, for_samples.
      fold st2. rewrite E. reflexivity.
    + destruct Pe; subst; discriminate.
    + destruct (N2 O) as (O1 & O2 & O3). now repeat split.
Qed.

End Runs.

(* ------------------------------------------------------------------ *)
(** ** The binary64 [float] reads no text with the character U+0002 *)

Lemma not_U2 (P : ascii -> bool) (c : ascii) :
  P (ascii_of_nat 2) = false ->
  P c = true -> Ascii.eqb c (ascii_of_nat 2) = false.
Proof.
  intros N T. destruct (Ascii.eqb c (ascii_of_nat 2)) eqn:E; [|reflexivity].
  apply Ascii.eqb_eq in E. subst. congruence.
Qed.

Lemma contains_drop_underscores (s : string) :
  forall prev s',
    Binary64.drop_underscores prev s = Some s' ->
    contains (ascii_of_nat 2) s' = contains (ascii_of_nat 2) s.
Proof.
  induction s as [|c r IH]; intros prev s' H; cbn [Binary64.drop_underscores] in H.
  - destruct (Ascii.eqb prev "_"); [discriminate|]. now inversion H.
  - destruct (Ascii.eqb c "_") eqn:U.
    + destruct (Binary64.is_digit prev); [|discriminate].
      cbn [contains].
      rewrite (not_U2 (fun a => Ascii.eqb a "_") c eq_refl U).
      exact (IH _ _ H).
    + destruct (Ascii.eqb prev "_" && negb (Binary64.is_digit c));
        [discriminate|].
      destruct (Binary64.drop_underscores c r) as [r'|] eqn:D;
        [|discriminate].
      inversion H. cbn [contains]. now rewrite (IH _ _ D).
Qed.

Lemma contains_lstrip (s : string) :
  contains (ascii_of_nat 2) (Binary64.lstrip s)
  = contains (ascii_of_nat 2) s.
Proof.
  induction s as [|c r IH]; [reflexivity|]. cbn [Binary64.lstrip].
  destruct (Binary64.is_space c) eqn:S; [|reflexivity].
  cbn [contains]. now rewrite (not_U2 Binary64.is_space c eq_refl S).
Qed.

Lemma contains_rstrip (s : string) :
  contains (ascii_of_nat 2) (Binary64.rstrip s)
  = contains (ascii_of_nat 2) s.
Proof.
  induction s as [|c r IH]; [reflexivity|]. cbn [Binary64.rstrip].
  destruct (Binary64.rstrip r) as [|c' r'] eqn:R.
  - cbn [contains] in *. rewrite <- IH.
    destruct (Binary64.is_space c) eqn:S.
    + now rewrite (not_U2 Binary64.is_space c eq_refl S).
    + reflexivity.
  - cbn [contains] in *. now rewrite IH.
Qed.

Lemma contains_digits (s : string) :
  forall acc n a m r,
    Binary64.digits s acc n = (a, m, r) ->
    contains (ascii_of_nat 2) s = contains (ascii_of_nat 2) r.
Proof.
  induction s as [|c s IH]; intros acc n a m r H; cbn [Binary64.digits] in H.
  - now inversion H.
  - destruct (Binary64.is_digit c) eqn:D.
    + cbn [contains]. rewrite (not_U2 Binary64.is_digit c eq_refl D).
      exact (IH _ _ _ _ _ H).
    + now inversion H.
Qed.

Lemma contains_sign (s : string) (neg : bool) (r : string) :
  Binary64.sign s = (neg, r) ->
  contains (ascii_of_nat 2) s = contains (ascii_of_nat 2) r.
Proof.
  destruct s as [|c s]; cbn; intros H; [now inversion H|].
  destruct c as [[] [] [] [] [] [] [] []]; inversion H; reflexivity.
Qed.

Lemma contains_fraction (s2 : string) (ip m nf : Z) (s3 : string) :
  match s2 with
  | String "." r => Binary64.digits r ip 0
  | _ => (ip, 0%Z, s2)
  end = (m, nf, s3) ->
  contains (ascii_of_nat 2) s2 = contains (ascii_of_nat 2) s3.
Proof.
  destruct s2 as [|c r]; intros H; [now inversion H|].
  destruct c as [[] [] [] [] [] [] [] []];
    first [ now inversion H
          | exact (contains_digits _ _ _ _ _ _ H) ].
Qed.

Lemma contains_lower_string (s : string) :
  contains (ascii_of_nat 2) (Binary64.lower_string s)
  = contains (ascii_of_nat 2) s.
Proof.
  induction s as [|c r IH]; [reflexivity|].
  cbn [Binary64.lower_string contains]. rewrite IH. f_equal.
  destruct c as [[] [] [] [] [] [] [] []]; reflexivity.
Qed.

Lemma parse_decimal_no_U2 (w : string) (x : Binary64.t) :
  Binary64.parse_decimal w = Some x ->
  contains (ascii_of_nat 2) w = false.
Proof.
  unfold Binary64.parse_decimal.
  destruct (Binary64.sign w) as [neg s1] eqn:S.
  destruct (Binary64.digits s1 0 0) as [[ip ni] s2] eqn:D.
  destruct (match s2 with
            | String "." r => Binary64.digits r ip 0
            | _ => (ip, 0%Z, s2)
            end) as [[m nf] s3] eqn:Fr.
  rewrite (contains_sign _ _ _ S), (contains_digits _ _ _ _ _ _ D),
    (contains_fraction _ _ _ _ _ Fr).
  destruct (ni + nf =? 0)%Z; [discriminate|].
  destruct s3 as [|c r]; [reflexivity|].
  destruct (Binary64.is_e c) eqn:E; [|discriminate].
  destruct (Binary64.sign r) as [eneg r1] eqn:S2.
  destruct (Binary64.digits r1 0 0) as [[ev ne] r2] eqn:D2.
  destruct (ne =? 0)%Z; [discriminate|]. cbn [orb].
  destruct (r2 =? "") eqn:R; [|discriminate].
  apply String.eqb_eq in R. subst r2. intros _.
  cbn [contains]. rewrite (not_U2 Binary64.is_e c eq_refl E).
  now rewrite (contains_sign _ _ _ S2), (contains_digits _ _ _ _ _ _ D2).
Qed.

Lemma parse_inf_nan_no_U2 (w : string) (x : Binary64.t) :
  Binary64.parse_inf_nan w = Some x ->
  contains (ascii_of_nat 2) w = false.
Proof.
  unfold Binary64.parse_inf_nan.
  destruct (Binary64.sign w) as [neg r] eqn:S.
  rewrite (contains_sign _ _ _ S), <- contains_lower_string.
  destruct (Binary64.lower_string r =? "inf") eqn:A.
  { apply String.eqb_eq in A. now rewrite A. }
  destruct (Binary64.lower_string r =? "infinity") eqn:B.
  { apply String.eqb_eq in B. now rewrite B. }
  cbn [orb].
  destruct (Binary64.lower_string r =? "nan") eqn:C; [|discriminate].
  apply String.eqb_eq in C. now rewrite C.
Qed.

Lemma float_rejects_U2 (s : string) :
  contains (ascii_of_nat 2) s = true -> Binary64.float s = None.
Proof.
  intros C. unfold Binary64.float.
  destruct (Binary64.drop_underscores "000" s) as [s'|] eqn:D;
    [|reflexivity].
  rewrite <- (contains_drop_underscores _ _ _ D), <- contains_lstrip,
    <- contains_rstrip in C.
  cbv zeta.
  destruct (Binary64.parse_decimal _) as [x|] eqn:P.
  { apply parse_decimal_no_U2 in P. congruence. }
  destruct (Binary64.parse_inf_nan _) as [x|] eqn:I; [|reflexivity].
  apply parse_inf_nan_no_U2 in I. congruence.
Qed.

(* ------------------------------------------------------------------ *)
(** ** The further properties on the example documents *)

(** The descriptions of the ReadQC report: of two keys as a list, of a
    key the report does not have, and of the derived key
    'bases sequenced', whose entry has a description only. *)
Lemma make_description_spec_witness :
  let st := snd (@parse_qcml py readqc_text fresh) in
  let st' :=
    set_qcml
      (Dict.set "bases sequenced"
         [("description", "Bases sequenced in total.")] (qcml st)) st in
  @make_description py ["read count"; "read length"] st
  = (Ok "<ul><li>about read count</li><li>about read length</li></ul>", st)
  /\ (exists a,
        @make_description py ["read count"; "insert size"] st
        = (Raise (KeyError a), st))
  /\ @make_description py ["bases sequenced"] st'
     = (Raise (KeyError "accession"), st').
Proof.
  intros st st'. split; [|split].
  - apply (proj1 (@make_description_spec py ["read count"; "read length"] st)
             ["about read count"; "about read length"]).
    repeat constructor;
      (eexists; split; [vm_compute; reflexivity|];
       split; [vm_compute; reflexivity|eexists; vm_compute; reflexivity]).
  - apply (proj1 (proj2 (@make_description_spec py
                           ["read count"; "insert size"] st))
             "insert size").
    + simpl. auto.
    + left. vm_compute. reflexivity.
  - apply (proj2 (proj2 (@make_description_spec py ["bases sequenced"] st'))
             "bases sequenced" "Bases sequenced in total.").
    vm_compute. reflexivity.
Defined.

(** The description table after the example of the specification: the
    entry of a parameter, and none for the n/a element. *)
Lemma parse_qcml_description_table_witness :
  exists d st',
    @fromstring py example_text = Some example_doc
    /\ @parse_qcml py example_text fresh = (Ok d, st')
    /\ Dict.get "insert size" (qcml st')
       = Some [("description", "about insert size");
               ("accession", "QC:0000000")]
    /\ Dict.get "target region read depth" (qcml st') = None.
Proof.
  eexists; eexists. split; [reflexivity|].
  split; [vm_compute; reflexivity|].
  match goal with
  | |- Dict.get _ (qcml ?st') = _ /\ _ =>
      destruct (@parse_qcml_description_table py example_text example_doc
                  fresh _ st' eq_refl ltac:(vm_compute; reflexivity))
        as (T & _)
  end.
  rewrite !T. split; vm_compute; reflexivity.
Defined.

(** Three files of the samples A, B and A: two samples, and A has the
    data of its second file.  Two pairs of the tumor T1 are one sample
    of SomaticQC. *)
Lemma parse_files_samples_witness :
  (exists st,
     @Qcml.parse_files py
       [log "A" readqc_text; log "B" mappingqc_text; log "A" coverage_text]
       fresh = (Ok tt, st)
     /\ Dict.keys (qcdata st) = ["A"; "B"]
     /\ Dict.get "A" (qcdata st) = @parsed py (log "A" coverage_text))
  /\ (exists st,
        @SomaticQC.parse_files py
          [log "T1-N1" readqc_text; log "T1-N2" mappingqc_text]
          fresh = (Ok tt, st)
        /\ Dict.keys (qcdata st) = ["T1"]
        /\ Dict.get "T1" (qcdata st)
           = @parsed py (log "T1-N2" mappingqc_text)).
Proof.
  split.
  - eexists. split; [vm_compute; reflexivity|].
    match goal with
    | |- Dict.keys (qcdata ?st) = _ /\ _ =>
        destruct (proj1 (@parse_files_samples py
                    [log "A" readqc_text; log "B" mappingqc_text;
                     log "A" coverage_text] st)
                    ltac:(vm_compute; reflexivity))
          as (_ & K & G)
    end.
    rewrite K, G. split; vm_compute; reflexivity.
  - eexists. split; [vm_compute; reflexivity|].
    match goal with
    | |- Dict.keys (qcdata ?st) = _ /\ _ =>
        destruct (proj2 (@parse_files_samples py
                    [log "T1-N1" readqc_text; log "T1-N2" mappingqc_text]
                    st)
                    ltac:(vm_compute; reflexivity))
          as (_ & K & G)
    end.
    rewrite K, G. split; vm_compute; reflexivity.
Defined.

(** A truncated file after a good one: all four modules raise and hand
    nothing to the report. *)
Lemma malformed_file_aborts_witness :
  @fromstring py "<qcML>" = None
  /\ Forall
       (fun run : list LogFile -> result unit * state =>
          exists e st',
            run [log "A" readqc_text; log "B" "<qcML>"] = (Raise e, st')
            /\ (e = ParseError \/ exists a, e = KeyError a)
            /\ no_output st')
       [@ReadQC.run py; @MappingQC.run py; @SomaticQC.run py;
        @VariantQC.run py].
Proof.
  split; [reflexivity|].
  apply (@malformed_file_aborts py
           [log "A" readqc_text; log "B" "<qcML>"] (log "B" "<qcML>")).
  - simpl. auto.
  - reflexivity.
Defined.

(** The headers prepared from the ReadQC report, and no headers from a
    table with an entry that has an accession only. *)
Lemma prepare_headers_spec_witness :
  let st := snd (@parse_qcml py readqc_text fresh) in
  let bad := @set_qcml py [("read count", [("accession", "QC:0000000")])]
               fresh in
  (exists h,
     @prepare_headers py "ReadQC" st = (Ok h, st)
     /\ Dict.keys h
        = ["read count"; "read length"; "Q20 read %"; "Q30 base %";
           "no base call %"; "gc content %"; "bases sequenced (MB)"]
     /\ Dict.get "read count" h
        = Some [("namespace", HStr "ReadQC"); ("title", HStr "read count");
                ("description", HStr "about read count")])
  /\ @prepare_headers py "ReadQC" bad = (Raise (KeyError "description"), bad).
Proof.
  intros st bad. split.
  - eexists. split; [|split].
    + apply (proj1 (@prepare_headers_spec py "ReadQC" st)).
      * vm_compute.
        repeat (constructor; [simpl; intuition discriminate|]).
        constructor.
      * intros k e I. vm_compute in I.
        repeat (destruct I as [I|I];
                [inversion I; eexists; vm_compute; reflexivity|]).
        destruct I.
    + vm_compute. reflexivity.
    + vm_compute. reflexivity.
  - apply (proj2 (@prepare_headers_spec py "ReadQC" bad)).
    exists "read count", [("accession", "QC:0000000")].
    split; [vm_compute; auto|reflexivity].
Defined.

(** The headers of a MappingQC report with the 10x coverage and neither
    a properly-paired percentage nor a read depth: the coverage header
    stays as prepared. *)
Lemma mappingqc_optional_headers_witness :
  let h :=
    map (fun ke => (fst ke, header_of "MappingQC" (fst ke) (snd ke)))
      (qcml (snd (@parse_qcml py coverage_text fresh))) in
  Dict.get "insert size" (MappingQC.format_optional h) = None
  /\ Dict.get "target region 10x %" (MappingQC.format_optional h)
     = Some [("namespace", HStr "MappingQC");
             ("title", HStr "target region 10x %");
             ("description", HStr "about target region 10x percentage")].
Proof.
  intros h.
  destruct (mappingqc_optional_headers h) as (_ & _ & I & C).
  split.
  - rewrite (I ltac:(vm_compute; reflexivity)). vm_compute. reflexivity.
  - etransitivity;
      [exact (C ltac:(vm_compute; reflexivity) 10%nat
                ltac:(simpl; auto))|].
    vm_compute. reflexivity.
Defined.

(** The coverage part on a report with the read depth and all coverage
    values, and on a module without a description table. *)
Lemma report_coverage_spec_witness :
  let st := snd (@parse_qcml py_more full_mappingqc_text fresh) in
  let h :=
    map (fun ke => (fst ke, header_of "MappingQC" (fst ke) (snd ke)))
      (qcml st) in
  (exists st',
     @MappingQC.report_coverage py_more h st = (Ok tt, st')
     /\ map (@sec_name Binary64.t) (sections st')
        = ["Coverage"; "Sequencing Depth"; "Target Coverage"])
  /\ (exists a st',
        @MappingQC.report_coverage py_more [] fresh
        = (Raise (KeyError a), st')
        /\ map (@sec_name Binary64.t) (sections st') = ["Coverage"]).
Proof.
  intros st h. split.
  - assert (E : exists e,
               Dict.get "target region read depth" (qcml st) = Some e
               /\ complete_entry e).
    { eexists. split; [vm_compute; reflexivity|].
      split; eexists; vm_compute; reflexivity. }
    pose proof (proj2 (@report_coverage_spec py_more h st) E) as R.
    assert (FM : first_missing
                   (map MappingQC.coverage_key MappingQC.coverage_values) h
                 = None) by (vm_compute; reflexivity).
    rewrite FM in R. destruct R as (st' & R & S & _).
    exists st'. split; [exact R|exact S].
  - exact (proj1 (@report_coverage_spec py_more [] fresh)
             (or_introl eq_refl)).
Defined.

(** The sample of the pair 'tumor-normal' is 'tumor'. *)
Lemma pair_name_spec_witness :
  SomaticQC.pair_name "tumor-normal" = Some "tumor"
  /\ exists c r,
       "tumor-normal" = "tumor" ++ "-" ++ String c r /\ "tumor" <> ""
       /\ Str.all SomaticQC.not_dash "tumor" = true
       /\ SomaticQC.not_dash c = true.
Proof.
  destruct pair_name_spec as [A B]. split.
  - exact (A "tumor" "n"%char "ormal" ltac:(discriminate) eq_refl eq_refl).
  - exact (B "tumor-normal" "tumor" ltac:(vm_compute; reflexivity)).
Defined.

(** With binary64 numbers: the step on one sample with an annotated
    rate, and on this sample followed by one with the rate 12.5. *)
Lemma somatic_variant_rate_never_a_number_witness :
  let st :=
    snd (@SomaticQC.parse_files py_more [log "T1-N1" somaticqc_text]
           fresh) in
  let st2 :=
    snd (@SomaticQC.parse_files py_more
           [log "T1-N1" somaticqc_text; log "T2-N2" numeric_rate_text]
           fresh) in
  (exists st',
     @SomaticQC.parse_somatic_variant_rate py_more st = (Ok tt, st')
     /\ map (fun skv => (fst skv,
                         Dict.mem "somatic variant rate" (snd skv)))
          (qcdata st') = [("T1", false)])
  /\ (exists st',
        @SomaticQC.parse_somatic_variant_rate py_more st2
        = (Raise TypeError, st')
        /\ map (fun skv => (fst skv,
                            Dict.mem "somatic variant rate" (snd skv)))
             (qcdata st') = [("T1", false); ("T2", true)]).
Proof.
  intros st st2. split.
  - assert (T : forall s kv v,
              In (s, kv) (qcdata st) ->
              Dict.get "somatic variant rate" kv = Some (VStr v) ->
              @float py_more v = None).
    { intros s kv v I G. vm_compute in I. destruct I as [I|[]].
      inversion I; subst. vm_compute in G. inversion G; subst.
      vm_compute. reflexivity. }
    destruct (@somatic_variant_rate_never_a_number py_more st
                float_rejects_U2 T) as [A _].
    eexists. split.
    + apply A. intros s kv I. vm_compute in I. destruct I as [I|[]].
      inversion I; subst. eexists. vm_compute. reflexivity.
    + vm_compute. reflexivity.
  - assert (T : forall s kv v,
              In (s, kv) (qcdata st2) ->
              Dict.get "somatic variant rate" kv = Some (VStr v) ->
              @float py_more v = None).
    { intros s kv v I G. vm_compute in I. destruct I as [I|[I|[]]];
        inversion I; subst; vm_compute in G; inversion G; subst.
      vm_compute. reflexivity. }
    destruct (@somatic_variant_rate_never_a_number py_more st2
                float_rejects_U2 T) as [_ B].
    pose proof (B [("T1",
                    match @parsed py_more (log "T1-N1" somaticqc_text) with
                    | Some kv => kv
                    | None => []
                    end)]
                  "T2"
                  match @parsed py_more (log "T2-N2" numeric_rate_text) with
                  | Some kv => kv
                  | None => []
                  end
                  []
                  ltac:(vm_compute; reflexivity)) as R.
    match type of R with
    | _ -> _ -> _ = (Raise ?e, _) =>
        assert (M : e = TypeError) by (vm_compute; reflexivity)
    end.
    rewrite M in R. eexists. split.
    + apply R.
      * intros s kv I. vm_compute in I. destruct I as [I|[]].
        inversion I; subst. eexists. vm_compute. reflexivity.
      * right. eexists. vm_compute. reflexivity.
    + vm_compute. reflexivity.
Defined.

(** The renaming on the sample of a SomaticQC report, without the
    header, and with a sample of another report. *)
Lemma rename_variant_count_spec_witness :
  let st := snd (@Qcml.parse_files py_more [log "T1" somaticqc_text] fresh) in
  let st2 :=
    snd (@Qcml.parse_files py_more
           [log "T1" somaticqc_text; log "T2" readqc_text] fresh) in
  let hd := [("title", HStr "variant count")] in
  @SomaticQC.rename_variant_count py_more [] st
  = (Raise (KeyError "variant count"), st)
  /\ (exists h' st',
        @SomaticQC.rename_variant_count py_more [("variant count", hd)] st
        = (Ok h', st')
        /\ Dict.get "variant count somaticqc" h' = Some hd
        /\ Dict.get "variant count" h' = None
        /\ qcml st' = qcml st)
  /\ (exists st',
        @SomaticQC.rename_variant_count py_more [("variant count", hd)] st2
        = (Raise (KeyError "variant count"), st')).
Proof.
  intros st st2 hd. split; [|split].
  - exact (proj1 (@rename_variant_count_spec py_more [] st) eq_refl).
  - destruct (proj1 (proj2 (@rename_variant_count_spec py_more
                              [("variant count", hd)] st)) hd eq_refl)
      as (h' & st' & E & A & B & C & _).
    + intros s kv I. vm_compute in I. destruct I as [I|[]].
      inversion I. eexists. vm_compute. reflexivity.
    + exists h', st'. repeat split; assumption.
  - destruct (proj2 (proj2 (@rename_variant_count_spec py_more
                              [("variant count", hd)] st2)) hd "T2"
                (match @parsed py_more (log "T2" readqc_text) with
                 | Some kv => kv
                 | None => []
                 end) eq_refl) as (st' & E).
    + vm_compute. auto.
    + vm_compute. reflexivity.
    + exists st'. exact E.
Defined.

(** A run of VariantQC on a VariantQC report, and on a ReadQC report,
    which has none of its keys. *)
Lemma variantqc_run_witness :
  (exists st',
     @VariantQC.run py_more [log "A" variantqc_text] = (Ok tt, st')
     /\ map (fun g => Dict.keys (snd g)) (general_stats st')
        = [["variant count"; "known variants %"]]
     /\ map snd (data_files st') = ["multiqc_variantqc"]
     /\ map (@sec_name Binary64.t) (sections st')
        = ["Overview"; "Variant Count"])
  /\ (exists st',
        @VariantQC.run py_more [log "A" readqc_text]
        = (Raise (KeyError "variant count"), st')
        /\ no_output st').
Proof.
  split.
  - pose (st1 := snd (@Qcml.parse_files py_more [log "A" variantqc_text]
                        fresh)).
    pose proof (@variantqc_run py_more [log "A" variantqc_text] st1
                  ltac:(vm_compute; reflexivity)
                  ltac:(vm_compute; discriminate)) as R.
    assert (FM : first_missing variantqc_required (qcml st1) = None)
      by (vm_compute; reflexivity).
    rewrite FM in R. destruct R as (st' & R & _ & G & D & S).
    exists st'. repeat split; assumption.
  - pose (st1 := snd (@Qcml.parse_files py_more [log "A" readqc_text]
                        fresh)).
    pose proof (@variantqc_run py_more [log "A" readqc_text] st1
                  ltac:(vm_compute; reflexivity)
                  ltac:(vm_compute; discriminate)) as R.
    assert (FM : first_missing variantqc_required (qcml st1)
                 = Some "variant count")
      by (vm_compute; reflexivity).
    rewrite FM in R. exact R.
Defined.

(** A run of ReadQC on a ReadQC report. *)
Lemma readqc_run_witness :
  exists st',
    @ReadQC.run py [log "A" readqc_text] = (Ok tt, st')
    /\ map (fun g => Dict.keys (snd g)) (general_stats st')
       = [["read count"; "bases sequenced"; "gc content %"]]
    /\ map snd (data_files st') = ["multiqc_readqc"]
    /\ map (@sec_name Binary64.t) (sections st') = ["Overview"].
Proof.
  pose (st1 := snd (@Qcml.parse_files py [log "A" readqc_text] fresh)).
  assert (A : forall s kv,
            In (s, kv) (@ignore_samples py (qcdata st1)) ->
            exists x, Dict.get "bases sequenced (MB)" kv = Some (VFloat x)).
  { intros s kv I. vm_compute in I. destruct I as [I|[]].
    inversion I. eexists. vm_compute. reflexivity. }
  pose proof (@readqc_run py [log "A" readqc_text] st1
                ltac:(vm_compute; reflexivity)
                ltac:(vm_compute; discriminate)
                ltac:(vm_compute; reflexivity) A) as R.
  assert (FM : first_missing
                 ["Q20 read %"; "Q30 base %"; "gc content %";
                  "no base call %"; "read count"; "read length"] (qcml st1)
               = None)
    by (vm_compute; reflexivity).
  rewrite FM in R. destruct R as (st' & R & _ & G & D & S).
  exists st'. repeat split; assumption.
Defined.

(** A run of SomaticQC on a report with the rate 12.5. *)
Lemma somaticqc_numeric_rate_witness :
  exists e st',
    @SomaticQC.run py_more [log "T1-N1" numeric_rate_text] = (Raise e, st')
    /\ (e = TypeError \/ e = KeyError "somatic variant rate")
    /\ no_output st'.
Proof.
  pose (st1 := snd (@SomaticQC.parse_files py_more
                      [log "T1-N1" numeric_rate_text] fresh)).
  apply (@somaticqc_numeric_rate py_more [log "T1-N1" numeric_rate_text]
           st1 "T1"
           (match @parsed py_more (log "T1-N1" numeric_rate_text) with
            | Some kv => kv
            | None => []
            end)
           (Binary64.of_decimal false 125 (-1))).
  - vm_compute. reflexivity.
  - vm_compute. auto.
  - vm_compute. reflexivity.
Defined.

(** A run of SomaticQC on a report with an annotated rate. *)
Lemma somaticqc_run_witness :
  exists st',
    @SomaticQC.run py_more [log "T1-N1" somaticqc_text] = (Ok tt, st')
    /\ map (fun g => Dict.keys (snd g)) (general_stats st')
       = [["sample correlation"; "somatic variant count";
           "known somatic variants %"]]
    /\ map snd (data_files st') = ["multiqc_somaticqc"]
    /\ map (@sec_name Binary64.t) (sections st')
       = ["Overview"; "Somatic Variant Count"].
Proof.
  pose (st1 := snd (@SomaticQC.parse_files py_more
                      [log "T1-N1" somaticqc_text] fresh)).
  assert (A : forall s kv,
            In (s, kv) (@ignore_samples py_more (qcdata st1)) ->
            (exists v, Dict.get "somatic variant rate" kv = Some (VStr v)
                       /\ @float py_more v = None)
            /\ exists c, Dict.get "variant count" kv = Some c).
  { intros s kv I. vm_compute in I. destruct I as [I|[]].
    inversion I. split.
    - eexists. split; vm_compute; reflexivity.
    - eexists. vm_compute. reflexivity. }
  pose proof (@somaticqc_run py_more [log "T1-N1" somaticqc_text] st1
                float_rejects_U2
                ltac:(vm_compute; reflexivity)
                ltac:(vm_compute; discriminate) A) as R.
  assert (FM : first_missing somaticqc_required (qcml st1) = None)
    by (vm_compute; reflexivity).
  rewrite FM in R. destruct R as (st' & R & _ & G & D & S).
  exists st'. repeat split; assumption.
Defined.

(** A run of MappingQC on a report with the read depth and all coverage
    values, and on one with the 10x coverage and no read depth. *)
Lemma mappingqc_run_witness :
  (exists st',
     @MappingQC.run py_more [log "A" full_mappingqc_text] = (Ok tt, st')
     /\ map (@sec_name Binary64.t) (sections st')
        = ["Overview"; "Coverage"; "Sequencing Depth"; "Target Coverage"]
     /\ map (fun g => Dict.keys (snd g)) (general_stats st')
        = [["bases usable"; "mapped read %"; "on-target read %";
            "target region read depth"]])
  /\ (exists st',
        @MappingQC.run py [log "A" coverage_text]
        = (Raise (KeyError "target region read depth"), st')
        /\ map (@sec_name Binary64.t) (sections st')
           = ["Overview"; "Coverage"]
        /\ map snd (data_files st') = ["multiqc_mappingqc"]).
Proof.
  split.
  - pose (st1 := snd (@Qcml.parse_files py_more
                        [log "A" full_mappingqc_text] fresh)).
    assert (A : forall s kv,
              In (s, kv) (@ignore_samples py_more (qcdata st1)) ->
              exists x, Dict.get "bases usable (MB)" kv = Some (VFloat x)).
    { intros s kv I. vm_compute in I. destruct I as [I|[]].
      inversion I. eexists. vm_compute. reflexivity. }
    pose proof (@mappingqc_run py_more [log "A" full_mappingqc_text] st1
                  ltac:(vm_compute; reflexivity)
                  ltac:(vm_compute; discriminate)
                  ltac:(vm_compute; reflexivity) A) as R.
    assert (FM : first_missing
                   ["trimmed base %"; "clipped base %"; "mapped read %";
                    "on-target read %"] (qcml st1) = None)
      by (vm_compute; reflexivity).
    assert (M10 : Dict.mem "target region 10x %" (qcml st1) = true)
      by (vm_compute; reflexivity).
    assert (Mrd : Dict.mem "target region read depth" (qcml st1) = true)
      by (vm_compute; reflexivity).
    assert (FC : first_missing
                   (map MappingQC.coverage_key MappingQC.coverage_values)
                   (qcml st1) = None)
      by (vm_compute; reflexivity).
    rewrite FM, M10, Mrd, FC in R.
    destruct R as (st' & R & S & G & _).
    exists st'. repeat split; assumption.
  - pose (st1 := snd (@Qcml.parse_files py [log "A" coverage_text] fresh)).
    assert (A : forall s kv,
              In (s, kv) (@ignore_samples py (qcdata st1)) ->
              exists x, Dict.get "bases usable (MB)" kv = Some (VFloat x)).
    { intros s kv I. vm_compute in I. destruct I as [I|[]].
      inversion I. eexists. vm_compute. reflexivity. }
    pose proof (@mappingqc_run py [log "A" coverage_text] st1
                  ltac:(vm_compute; reflexivity)
                  ltac:(vm_compute; discriminate)
                  ltac:(vm_compute; reflexivity) A) as R.
    assert (FM : first_missing
                   ["trimmed base %"; "clipped base %"; "mapped read %";
                    "on-target read %"] (qcml st1) = None)
      by (vm_compute; reflexivity).
    assert (M10 : Dict.mem "target region 10x %" (qcml st1) = true)
      by (vm_compute; reflexivity).
    assert (Mrd : Dict.mem "target region read depth" (qcml st1) = false)
      by (vm_compute; reflexivity).
    rewrite FM, M10, Mrd in R.
    destruct R as (st' & R & S & _ & D & _).
    exists st'. repeat split; assumption.
Defined.

(** ** The claims on whole runs, on the example documents *)

(** The only sample of the run is ignored: all four modules raise
    [UserWarning]. *)
Lemma no_sample_raises_UserWarning_witness :
  Forall
    (fun run : list LogFile -> result unit * @state py_without_A =>
       exists st',
         run [log "A" readqc_text] = (Raise UserWarning, st')
         /\ no_output st')
    [@ReadQC.run py_without_A; @MappingQC.run py_without_A;
     @VariantQC.run py_without_A]
  /\ exists st',
       @SomaticQC.run py_without_A [log "A" readqc_text]
       = (Raise UserWarning, st')
       /\ no_output st'.
Proof.
  pose (st1 := snd (@parse_files py_without_A [log "A" readqc_text] fresh)).
  destruct (@no_sample_raises_UserWarning py_without_A
              [log "A" readqc_text] st1 ltac:(vm_compute; reflexivity))
    as [A B].
  split.
  - exact (A ltac:(vm_compute; reflexivity)).
  - exact (B ltac:(vm_compute; reflexivity)).
Defined.

(** C4 as stated fails: the only sample of the run has no quality
    parameter, and ReadQC ends with a [KeyError], not with the
    [UserWarning] that stands for "no data found"; and VariantQC on a
    full and an empty sample does not end at all before its report: it
    returns. *)
Lemma empty_sample_is_a_KeyError :
  fst (@parse_qcml py empty_text fresh) = Ok []
  /\ fst (@ReadQC.run py [log "A" empty_text])
     = Raise (KeyError "bases sequenced (MB)")
  /\ fst (@ReadQC.run py [log "A" empty_text]) <> Raise UserWarning
  /\ fst (@VariantQC.run py_more
            [log "A" variantqc_text; log "B" empty_text]) = Ok tt
  /\ Dict.get "B"
       (qcdata (snd (@VariantQC.run py_more
                       [log "A" variantqc_text; log "B" empty_text])))
     = Some [].
Proof.
  split; [reflexivity|].
  assert (E : fst (@ReadQC.run py [log "A" empty_text])
              = Raise (KeyError "bases sequenced (MB)"))
    by (vm_compute; reflexivity).
  split; [exact E|]. split; [rewrite E; discriminate|].
  split.
  - vm_compute. reflexivity.
  - vm_compute. reflexivity.
Qed.

(** Runs with a full sample and an empty sample "B", for each module on
    a report of its own: ReadQC, MappingQC and SomaticQC return without
    the empty sample and raise with it; VariantQC returns with it. *)
Lemma empty_sample_raises_witness :
  (fst (@ReadQC.run py_more [log "A" readqc_text]) = Ok tt
   /\ exists e st',
        @ReadQC.run py_more [log "A" readqc_text; log "B" empty_text]
        = (Raise e, st')
        /\ (e = KeyError "bases sequenced (MB)" \/ e = TypeError)
        /\ e <> UserWarning /\ no_output st')
  /\ (fst (@MappingQC.run py_more [log "A" mappingqc_text]) = Ok tt
      /\ exists e st',
           @MappingQC.run py_more
             [log "A" mappingqc_text; log "B" empty_text]
           = (Raise e, st')
           /\ (e = KeyError "bases usable (MB)" \/ e = TypeError)
           /\ e <> UserWarning /\ no_output st')
  /\ (exists st',
        @VariantQC.run py_more [log "A" variantqc_text; log "B" empty_text]
        = (Ok tt, st')
        /\ In ("B", Dict.empty _) (qcdata st')
        /\ map (@sec_name Binary64.t) (sections st')
           = ["Overview"; "Variant Count"])
  /\ (fst (@SomaticQC.run py_more [log "A" somaticqc_text]) = Ok tt
      /\ exists e st',
           @SomaticQC.run py_more
             [log "A" somaticqc_text; log "B" empty_text]
           = (Raise e, st')
           /\ (e = KeyError "somatic variant rate" \/ e = TypeError)
           /\ e <> UserWarning /\ no_output st').
Proof.
  split; [|split; [|split]].
  - split; [vm_compute; reflexivity|].
    pose (st1 := snd (@parse_files py_more
                        [log "A" readqc_text; log "B" empty_text] fresh)).
    exact (proj1 (proj1 (@empty_sample_raises py_more
                           [log "A" readqc_text; log "B" empty_text]
                           st1 "B" ltac:(vm_compute; auto))
                    ltac:(vm_compute; reflexivity))).
  - split; [vm_compute; reflexivity|].
    pose (st1 := snd (@parse_files py_more
                        [log "A" mappingqc_text; log "B" empty_text] fresh)).
    exact (proj1 (proj2 (proj1 (@empty_sample_raises py_more
                                  [log "A" mappingqc_text;
                                   log "B" empty_text]
                                  st1 "B" ltac:(vm_compute; auto))
                           ltac:(vm_compute; reflexivity)))).
  - pose (st1 := snd (@parse_files py_more
                        [log "A" variantqc_text; log "B" empty_text] fresh)).
    destruct (@empty_sample_raises py_more
                [log "A" variantqc_text; log "B" empty_text]
                st1 "B" ltac:(vm_compute; auto)) as [P1 _].
    destruct (P1 ltac:(vm_compute; reflexivity)) as (_ & _ & R).
    assert (FM : first_missing variantqc_required (qcml st1) = None)
      by (vm_compute; reflexivity).
    rewrite FM in R. exact R.
  - split; [vm_compute; reflexivity|].
    pose (st1 := snd (@SomaticQC.parse_files py_more
                        [log "A" somaticqc_text; log "B" empty_text] fresh)).
    exact (proj2 (@empty_sample_raises py_more
                    [log "A" somaticqc_text; log "B" empty_text]
                    st1 "B" ltac:(vm_compute; auto))
             ltac:(vm_compute; reflexivity)).
Defined.

(** C10 as stated fails: the sample T1 has the annotated rate
    'high (12.5 var/Mb)', the sample T2 before it has the rate 12.5; the
    step and the run raise [TypeError] at T2, and T1 keeps its rate. *)
Lemma numeric_rate_before_annotated :
  let files := [log "T2-N2" numeric_rate_text; log "T1-N1" somaticqc_text] in
  let st := snd (@SomaticQC.parse_files py_more files fresh) in
  Dict.keys (qcdata st) = ["T2"; "T1"]
  /\ option_map (Dict.get "somatic variant rate") (Dict.get "T1" (qcdata st))
     = Some (Some (VStr "high (12.5 var/Mb)"))
  /\ fst (@SomaticQC.parse_somatic_variant_rate py_more st) = Raise TypeError
  /\ option_map (Dict.get "somatic variant rate")
       (Dict.get "T1"
          (qcdata (snd (@SomaticQC.parse_somatic_variant_rate py_more st))))
     = Some (Some (VStr "high (12.5 var/Mb)"))
  /\ fst (@SomaticQC.run py_more files) = Raise TypeError.
Proof.
  intros files st. repeat split; vm_compute; reflexivity.
Qed.

(** The annotated rate "high (12.5 var/Mb)" of T1 is removed where T1
    stands first, also when the step raises at the sample after it, and
    stays where T1 stands after a sample with the rate 12.5. *)
Lemma annotated_variant_rate_is_removed_witness :
  let kv := match @parsed py_more (log "T1-N1" somaticqc_text) with
            | Some kv => kv
            | None => []
            end in
  let st :=
    snd (@SomaticQC.parse_files py_more
           [log "T1-N1" somaticqc_text; log "T2-N2" numeric_rate_text]
           fresh) in
  let st2 :=
    snd (@SomaticQC.parse_files py_more
           [log "T2-N2" numeric_rate_text; log "T1-N1" somaticqc_text]
           fresh) in
  (exists r before' after',
     @SomaticQC.parse_somatic_variant_rate py_more st
     = (r,
        set_qcdata
          (before'
           ++ ("T1", Dict.remove "somatic variant rate" kv) :: after')%list
          st)
     /\ map fst before' = []
     /\ map fst after' = ["T2"])
  /\ (exists e before',
        @SomaticQC.parse_somatic_variant_rate py_more st2
        = (Raise e, set_qcdata (before' ++ [("T1", kv)])%list st2)
        /\ (e = TypeError \/ e = KeyError "somatic variant rate")
        /\ map fst before' = ["T2"]).
Proof.
  intros kv st st2.
  assert (L : In "high" ["low"; "moderate"; "high"])
    by (right; right; now left).
  assert (N : "12.5" <> "") by discriminate.
  pose (kv2 := match @parsed py_more (log "T2-N2" numeric_rate_text) with
               | Some kv => kv
               | None => []
               end).
  split.
  - destruct (proj1 (@annotated_variant_rate_is_removed py_more st
                       [] [("T2", kv2)] "T1" kv "high" "12.5" L N
                       eq_refl eq_refl
                       ltac:(vm_compute; reflexivity)
                       ltac:(vm_compute; reflexivity)))
      as (r & b' & a' & E & K1 & K2 & _).
    + intros s0 kv0 [].
    + exists r, b', a'. split; [exact E|]. split; [exact K1|exact K2].
  - destruct (proj2 (@annotated_variant_rate_is_removed py_more st2
                       [("T2", kv2)] [] "T1" kv "high" "12.5" L N
                       eq_refl eq_refl
                       ltac:(vm_compute; reflexivity)
                       ltac:(vm_compute; reflexivity)))
      as (e & b' & E & Pe & K).
    + exists "T2", kv2. split; [left; reflexivity|].
      right. eexists. vm_compute. reflexivity.
    + exists e, b'. split; [exact E|]. split; [exact Pe|exact K].
Defined.
